(** * Scrape -> filter -> download -> caption -> aggregate pipeline

    A shallow embedding of the image captioning pipeline
    ([src/scraper/web_scraper.py], [src/scraper/image_downloader.py],
    [src/captioning/caption_generator.py], [src/pipeline/image_captioner.py])
    together with the properties its specification states about it.

    A Python [str] is modelled by the [string] of the bytes of its UTF-8
    encoding, Python ints as [Z] or, for loop counters and lengths, [nat].  The HTTP transport, the
    HTML parser, the image decoder, the captioning model and
    [urllib.parse.urljoin] are external collaborators: they are fields of a
    [World] record, and every call that reaches the outside advances a
    clock so that two calls with the same arguments may answer
    differently. *)

From Stdlib Require Import String Ascii List ZArith Arith Lia Bool.
From Stdlib Require Import Sorting.Sorted Sorting.Permutation.
Import ListNotations.
Local Open Scope string_scope.
Local Open Scope list_scope.
Set Warnings "-register-all".

(* ===================================================================== *)
(** ** Python string operations *)
(* ===================================================================== *)

Module Str.

(** [s.startswith(p)] *)
Definition startswith (s p : string) : bool := String.prefix p s.

(** [ch.lower()] on ASCII letters; bytes outside [A-Z] are unchanged.
    Python lowers letters outside ASCII too, but none of them to a
    character of ".svg" (only U+0130 and U+212A give an ASCII letter, "i"
    and "k"), and a URL scheme holds ASCII letters only: those are the
    two uses of [lower] below. *)
Definition lower_ascii (c : ascii) : ascii :=
  let n := nat_of_ascii c in
  if ((65 <=? n) && (n <=? 90))%nat then ascii_of_nat (n + 32) else c.

(** [s.lower()] *)
Fixpoint lower (s : string) : string :=
  match s with
  | EmptyString => EmptyString
  | String c r => String (lower_ascii c) (lower r)
  end.

(** [sub in s] *)
Fixpoint contains (s sub : string) : bool :=
  String.prefix sub s ||
  match s with
  | EmptyString => false
  | String _ r => contains r sub
  end.

(** [s.endswith(p)] *)
Fixpoint endswith (s p : string) : bool :=
  String.eqb s p ||
  match s with
  | EmptyString => false
  | String _ r => endswith r p
  end.

(** Truth value of a string: the empty string is falsy. *)
Definition truthy (s : string) : bool :=
  match s with EmptyString => false | String _ _ => true end.

(** The ASCII characters of which [str.isspace] holds: TAB, LF, VT, FF,
    CR, FS, GS, RS, US, SPACE. *)
Definition isspace (c : ascii) : bool :=
  let n := nat_of_ascii c in
  (((9 <=? n) && (n <=? 13)) || ((28 <=? n) && (n <=? 32)))%nat.

(** The number of bytes of the whitespace character [s] starts with, 0
    when it starts with none.  [str.isspace] holds of the ASCII characters
    above and of U+0085, U+00A0 (two bytes, C2 85 and C2 A0), U+1680
    (E1 9A 80), U+2000 to U+200A, U+2028, U+2029, U+202F (E2 80 80 to
    E2 80 8A, E2 80 A8, E2 80 A9, E2 80 AF), U+205F (E2 81 9F) and U+3000
    (E3 80 80). *)
Definition space_width (s : string) : nat :=
  match s with
  | EmptyString => 0
  | String c1 r1 =>
      if isspace c1 then 1
      else
        match r1 with
        | EmptyString => 0
        | String c2 r2 =>
            let n1 := nat_of_ascii c1 in
            let n2 := nat_of_ascii c2 in
            if ((n1 =? 194) && ((n2 =? 133) || (n2 =? 160)))%nat then 2
            else
              match r2 with
              | EmptyString => 0
              | String c3 _ =>
                  let n3 := nat_of_ascii c3 in
                  if (((n1 =? 225) && (n2 =? 154) && (n3 =? 128))
                      || ((n1 =? 226) && (n2 =? 128)
                          && (((128 <=? n3) && (n3 <=? 138))
                              || (n3 =? 168) || (n3 =? 169) || (n3 =? 175)))
                      || ((n1 =? 226) && (n2 =? 129) && (n3 =? 159))
                      || ((n1 =? 227) && (n2 =? 128) && (n3 =? 128)))%nat
                  then 3
                  else 0
              end
        end
  end.

(** [s.lstrip()]; [skip] counts the bytes still to drop of the whitespace
    character being read. *)
Fixpoint lstrip_aux (skip : nat) (s : string) : string :=
  match s with
  | EmptyString => EmptyString
  | String _ r =>
      match skip with
      | S k => lstrip_aux k r
      | O =>
          match space_width s with
          | S k => lstrip_aux k r
          | O => s
          end
      end
  end.

Definition lstrip (s : string) : string := lstrip_aux 0 s.

(** [s] holds whitespace characters only. *)
Fixpoint all_space (skip : nat) (s : string) : bool :=
  match s with
  | EmptyString => true
  | String _ r =>
      match skip with
      | S k => all_space k r
      | O =>
          match space_width s with
          | S k => all_space k r
          | O => false
          end
      end
  end.

(** [s.rstrip()]: cut where what is left holds whitespace only. *)
Fixpoint rstrip (s : string) : string :=
  match s with
  | EmptyString => EmptyString
  | String c r => if all_space 0 s then EmptyString else String c (rstrip r)
  end.

(** [s.strip()] *)
Definition strip (s : string) : string := rstrip (lstrip s).

(** [s.split(sep)] for a one-character separator: never the empty list. *)
Fixpoint split_on (sep : ascii) (s : string) : list string :=
  match s with
  | EmptyString => [EmptyString]
  | String c r =>
      if Ascii.eqb c sep then EmptyString :: split_on sep r
      else match split_on sep r with
           | [] => [String c EmptyString]
           | w :: ws => String c w :: ws
           end
  end.

(** [s.split()]: runs of whitespace separate the words; no empty words.
    [cur] is the word being read, [skip] as in [lstrip_aux]. *)
Fixpoint split_ws_aux (skip : nat) (cur : string) (s : string) : list string :=
  match s with
  | EmptyString => if truthy cur then [cur] else []
  | String c r =>
      match skip with
      | S k => split_ws_aux k cur r
      | O =>
          match space_width s with
          | S k => (if truthy cur then [cur] else []) ++ split_ws_aux k EmptyString r
          | O => split_ws_aux 0 (cur ++ String c EmptyString)%string r
          end
      end
  end.

Definition split (s : string) : list string := split_ws_aux 0 EmptyString s.

(** [sep.join(l)] *)
Definition join (sep : string) (l : list string) : string := String.concat sep l.

(** [s.partition(c)]: the text before and after the first [c], if any. *)
Fixpoint partition (c : ascii) (s : string) : option (string * string) :=
  match s with
  | EmptyString => None
  | String a r =>
      if Ascii.eqb a c then Some (EmptyString, r)
      else match partition c r with
           | Some (h, t) => Some (String a h, t)
           | None => None
           end
  end.

(** [s.rpartition(c)]: the text before and after the last [c], if any. *)
Fixpoint rpartition (c : ascii) (s : string) : option (string * string) :=
  match s with
  | EmptyString => None
  | String a r =>
      match rpartition c r with
      | Some (h, t) => Some (String a h, t)
      | None => if Ascii.eqb a c then Some (EmptyString, r) else None
      end
  end.

Definition in_list (s : string) (l : list string) : bool :=
  existsb (String.eqb s) l.

End Str.

(* ===================================================================== *)
(** ** Exceptions and results *)
(* ===================================================================== *)

(** The exception classes the pipeline can meet.  All of them derive from
    [Exception]; the payload is the text [str(e)] yields.  What lies
    outside [Exception] ([KeyboardInterrupt], [SystemExit]) is not
    modelled. *)
Inductive exn : Type :=
| RequestException (msg : string)
| OSError (msg : string)
| IndexError (msg : string)
| ValueError (msg : string)
| UnboundLocalError (msg : string)
| RuntimeError (msg : string).

Definition str_exn (e : exn) : string :=
  match e with
  | RequestException m | OSError m | IndexError m
  | ValueError m | UnboundLocalError m | RuntimeError m => m
  end.

Inductive result (A : Type) : Type :=
| Ok (a : A)
| Raise (e : exn).
Arguments Ok {A} a.
Arguments Raise {A} e.

Definition is_ok {A} (r : result A) : bool :=
  match r with Ok _ => true | Raise _ => false end.

Definition rbind {A B} (r : result A) (k : A -> result B) : result B :=
  match r with
  | Ok a => k a
  | Raise e => Raise e
  end.

(* ===================================================================== *)
(** ** [urllib.parse.urljoin]

    A model of the standard library's [urljoin], which the scraper calls
    but does not define.  It follows CPython's implementation step by step
    ([urlsplit], [urlparse], [urlunparse], the dot-segment loop).  Left out:
    the validation of bracketed (IPv6) hosts and of non-ASCII hosts, both
    of which can only raise [ValueError]. *)
(* ===================================================================== *)

Module urllib_parse.

Definition uses_relative : list string :=
  [""; "ftp"; "http"; "gopher"; "nntp"; "imap"; "wais"; "file"; "https";
   "shttp"; "mms"; "prospero"; "rtsp"; "rtspu"; "sftp"; "svn"; "svn+ssh";
   "ws"; "wss"].

Definition uses_netloc : list string :=
  [""; "ftp"; "http"; "gopher"; "nntp"; "telnet"; "imap"; "wais"; "file";
   "mms"; "https"; "shttp"; "snews"; "prospero"; "rtsp"; "rtspu"; "rsync";
   "svn"; "svn+ssh"; "sftp"; "nfs"; "git"; "git+ssh"; "ws"; "wss"].

Definition uses_params : list string :=
  [""; "ftp"; "hdl"; "prospero"; "http"; "imap"; "https"; "shttp"; "rtsp";
   "rtspu"; "sip"; "sips"; "mms"; "sftp"; "tel"].

Definition is_alpha (c : ascii) : bool :=
  let n := nat_of_ascii c in
  (((65 <=? n) && (n <=? 90)) || ((97 <=? n) && (n <=? 122)))%nat.

Definition is_digit (c : ascii) : bool :=
  let n := nat_of_ascii c in ((48 <=? n) && (n <=? 57))%nat.

(** [c in scheme_chars] *)
Definition scheme_char (c : ascii) : bool :=
  is_alpha c || is_digit c ||
  Ascii.eqb c "+" || Ascii.eqb c "-" || Ascii.eqb c ".".

Fixpoint all_chars (p : ascii -> bool) (s : string) : bool :=
  match s with
  | EmptyString => true
  | String c r => p c && all_chars p r
  end.

(** C0 control characters and space, stripped from the left of a URL. *)
Definition c0_or_space (c : ascii) : bool := (nat_of_ascii c <=? 32)%nat.

Fixpoint lstrip_c0 (s : string) : string :=
  match s with
  | EmptyString => EmptyString
  | String c r => if c0_or_space c then lstrip_c0 r else s
  end.

(** TAB, CR and LF are removed wherever they stand. *)
Definition unsafe_byte (c : ascii) : bool :=
  let n := nat_of_ascii c in ((n =? 9) || (n =? 10) || (n =? 13))%nat.

Fixpoint remove_unsafe (s : string) : string :=
  match s with
  | EmptyString => EmptyString
  | String c r => if unsafe_byte c then remove_unsafe r else String c (remove_unsafe r)
  end.

(** [_splitnetloc(url, 2)] on a [url] whose leading "//" is already gone:
    the host part runs up to the first of "/", "?", "#". *)
Fixpoint splitnetloc (s : string) : string * string :=
  match s with
  | EmptyString => (EmptyString, EmptyString)
  | String c r =>
      if Ascii.eqb c "/" || Ascii.eqb c "?" || Ascii.eqb c "#"
      then (EmptyString, s)
      else let (h, t) := splitnetloc r in (String c h, t)
  end.

Record SplitResult : Type := {
  sr_scheme : string;
  sr_netloc : string;
  sr_path : string;
  sr_query : string;
  sr_fragment : string
}.

Definition urlsplit (url0 scheme0 : string) : SplitResult :=
  let url := remove_unsafe (lstrip_c0 url0) in
  let '(scheme, url) :=
    match Str.partition ":" url with
    | Some (String c r as pre, rest) =>
        if is_alpha c && all_chars scheme_char pre
        then (Str.lower pre, rest)
        else (scheme0, url)
    | _ => (scheme0, url)
    end in
  let '(netloc, url) :=
    match url with
    | String "/" (String "/" r) => splitnetloc r
    | _ => (EmptyString, url)
    end in
  let '(url, fragment) :=
    match Str.partition "#" url with
    | Some (h, t) => (h, t)
    | None => (url, EmptyString)
    end in
  let '(url, query) :=
    match Str.partition "?" url with
    | Some (h, t) => (h, t)
    | None => (url, EmptyString)
    end in
  {| sr_scheme := scheme; sr_netloc := netloc; sr_path := url;
     sr_query := query; sr_fragment := fragment |}.

(** [_splitparams(url)], called only when [";" in url]. *)
Definition splitparams (url : string) : string * string :=
  match Str.rpartition "/" url with
  | Some (dir, last) =>
      match Str.partition ";" last with
      | Some (h, t) => ((dir ++ "/" ++ h)%string, t)
      | None => (url, EmptyString)
      end
  | None =>
      match Str.partition ";" url with
      | Some (h, t) => (h, t)
      | None => (url, EmptyString)
      end
  end.

Record ParseResult : Type := {
  pr_scheme : string;
  pr_netloc : string;
  pr_path : string;
  pr_params : string;
  pr_query : string;
  pr_fragment : string
}.

Definition urlparse (url scheme0 : string) : ParseResult :=
  let s := urlsplit url scheme0 in
  let '(path, params) :=
    if Str.in_list (sr_scheme s) uses_params && Str.contains (sr_path s) ";"
    then splitparams (sr_path s)
    else (sr_path s, EmptyString) in
  {| pr_scheme := sr_scheme s; pr_netloc := sr_netloc s; pr_path := path;
     pr_params := params; pr_query := sr_query s; pr_fragment := sr_fragment s |}.

Definition urlunsplit (scheme netloc url query fragment : string) : string :=
  let url :=
    if Str.truthy netloc ||
       (Str.truthy scheme && Str.in_list scheme uses_netloc
        && negb (Str.startswith url "//"))
    then ("//" ++ netloc ++
          (if Str.truthy url && negb (Str.startswith url "/") then "/" ++ url else url))%string
    else url in
  let url := if Str.truthy scheme then (scheme ++ ":" ++ url)%string else url in
  let url := if Str.truthy query then (url ++ "?" ++ query)%string else url in
  if Str.truthy fragment then (url ++ "#" ++ fragment)%string else url.

Definition urlunparse (scheme netloc url params query fragment : string) : string :=
  let url := if Str.truthy params then (url ++ ";" ++ params)%string else url in
  urlunsplit scheme netloc url query fragment.

(** [segments[1:-1] = filter(None, segments[1:-1])] *)
Definition drop_inner_empty (segments : list string) : list string :=
  match segments with
  | [] => []
  | first :: rest =>
      match rev rest with
      | [] => [first]
      | last :: inner_rev => first :: filter Str.truthy (rev inner_rev) ++ [last]
      end
  end.

(** The loop over [segments] that resolves "." and "..". *)
Fixpoint resolve_segments (resolved : list string) (segments : list string) : list string :=
  match segments with
  | [] => resolved
  | seg :: rest =>
      if String.eqb seg ".." then resolve_segments (removelast resolved) rest
      else if String.eqb seg "." then resolve_segments resolved rest
      else resolve_segments (resolved ++ [seg]) rest
  end.

Definition urljoin (base url : string) : string :=
  if negb (Str.truthy base) then url
  else if negb (Str.truthy url) then base
  else
    let b := urlparse base "" in
    let u := urlparse url (pr_scheme b) in
    let scheme := pr_scheme u in
    if negb (String.eqb scheme (pr_scheme b)) || negb (Str.in_list scheme uses_relative)
    then url
    else if Str.in_list scheme uses_netloc && Str.truthy (pr_netloc u)
    then urlunparse scheme (pr_netloc u) (pr_path u) (pr_params u)
                    (pr_query u) (pr_fragment u)
    else
      let netloc := if Str.in_list scheme uses_netloc then pr_netloc b else pr_netloc u in
      if negb (Str.truthy (pr_path u)) && negb (Str.truthy (pr_params u))
      then urlunparse scheme netloc (pr_path b) (pr_params b)
                      (if Str.truthy (pr_query u) then pr_query u else pr_query b)
                      (pr_fragment u)
      else
        let base_parts := Str.split_on "/" (pr_path b) in
        let base_parts :=
          if String.eqb (last base_parts "") "" then base_parts
          else removelast base_parts in
        let segments :=
          if Str.startswith (pr_path u) "/" then Str.split_on "/" (pr_path u)
          else drop_inner_empty (base_parts ++ Str.split_on "/" (pr_path u)) in
        let resolved := resolve_segments [] segments in
        let resolved :=
          if Str.in_list (last segments "") ["."; ".."] then resolved ++ [""]
          else resolved in
        let path := Str.join "/" resolved in
        urlunparse scheme netloc (if Str.truthy path then path else "/")
                   (pr_params u) (pr_query u) (pr_fragment u).

End urllib_parse.

(* ===================================================================== *)
(** ** Parsed markup: the part of BeautifulSoup the scraper uses *)
(* ===================================================================== *)

(** A parsed document.  The root that [BeautifulSoup(...)] returns is a
    [Tag] named "[document]".  Attribute values are the raw strings of the
    markup; the multi-valued "class" attribute is split on demand. *)
Inductive PageElement : Type :=
| Tag (name : string) (attrs : list (string * string)) (contents : list PageElement)
| NavigableString (s : string).

(** An element together with what [.parent] and the sibling chain give. *)
Record Located : Type := {
  element : PageElement;
  parent : PageElement;
  next_siblings : list PageElement
}.

Module bs4.

Definition name_of (el : PageElement) : option string :=
  match el with
  | Tag n _ _ => Some n
  | NavigableString _ => None
  end.

Definition attrs_of (el : PageElement) : list (string * string) :=
  match el with
  | Tag _ a _ => a
  | NavigableString _ => []
  end.

Fixpoint lookup (key : string) (attrs : list (string * string)) : option string :=
  match attrs with
  | [] => None
  | (k, v) :: rest => if String.eqb k key then Some v else lookup key rest
  end.

(** [el.get(key)] *)
Definition get (el : PageElement) (key : string) : option string :=
  lookup key (attrs_of el).

(** [el.get(key, default)] *)
Definition get_default (el : PageElement) (key default : string) : string :=
  match get el key with
  | Some v => v
  | None => default
  end.

(** [el.has_attr(key)] *)
Definition has_attr (el : PageElement) (key : string) : bool :=
  match get el key with
  | Some _ => true
  | None => false
  end.

(** [el.get("class", [])]: the class tokens. *)
Definition get_class (el : PageElement) : list string :=
  match get el "class" with
  | Some v => Str.split v
  | None => []
  end.

(** Every descendant of [root] in document order, with its parent and the
    siblings that follow it. *)
Fixpoint descendants (root : PageElement) : list Located :=
  match root with
  | NavigableString _ => []
  | Tag _ _ contents =>
      (fix walk (l : list PageElement) : list Located :=
         match l with
         | [] => []
         | c :: rest =>
             {| element := c; parent := root; next_siblings := rest |}
               :: descendants c ++ walk rest
         end) contents
  end.

Definition is_tag_named (n : string) (el : PageElement) : bool :=
  match el with
  | Tag m _ _ => String.eqb m n
  | NavigableString _ => false
  end.

(** [root.find_all(name)] *)
Definition find_all (root : PageElement) (n : string) : list Located :=
  filter (fun l => is_tag_named n (element l)) (descendants root).

(** [root.find(name)] *)
Definition find (root : PageElement) (n : string) : option PageElement :=
  match find_all root n with
  | [] => None
  | l :: _ => Some (element l)
  end.

(** [el.find_next_sibling()]: the next sibling that is a tag. *)
Fixpoint first_tag (l : list PageElement) : option PageElement :=
  match l with
  | [] => None
  | Tag n a c :: _ => Some (Tag n a c)
  | NavigableString _ :: rest => first_tag rest
  end.

Definition find_next_sibling (l : Located) : option PageElement :=
  first_tag (next_siblings l).

(** The strings below [root], in document order. *)
Definition strings (root : PageElement) : list string :=
  flat_map (fun l => match element l with
                     | NavigableString s => [s]
                     | Tag _ _ _ => []
                     end) (descendants root).

(** [el.get_text(strip=True)]: each string stripped, empty ones dropped,
    the rest concatenated. *)
Definition get_text_strip (root : PageElement) : string :=
  Str.join "" (filter Str.truthy (map Str.strip (strings root))).

(** CSS selectors, as far as the scraper's own selector list needs them:
    a type selector "name", a class selector ".name", an id selector
    "#name". *)
Definition selector_matches (selector : string) (el : PageElement) : bool :=
  match selector with
  | String "." cls => Str.in_list cls (get_class el)
  | String "#" id =>
      match el, get el "id" with
      | Tag _ _ _, Some v => String.eqb v id
      | _, _ => false
      end
  | _ => is_tag_named selector el
  end.

(** [root.select_one(selector)] *)
Definition select_one (root : PageElement) (selector : string) : option PageElement :=
  match filter (fun l => selector_matches selector (element l)) (descendants root) with
  | [] => None
  | l :: _ => Some (element l)
  end.

End bs4.

(* ===================================================================== *)
(** ** The outside world *)
(* ===================================================================== *)

(** What [requests.get] hands back. *)
Record Response : Type := {
  status_code : Z;
  text : string;
  content : string
}.

(** A [PIL.Image]: its [size] and [mode]. *)
Record Image : Type := {
  size : Z * Z;
  mode : string
}.

(** The external collaborators.  [requests_get] and [generate] and
    [open_path] see the clock, so the same URL may be answered differently
    on a second request. *)
Record World : Type := {
  requests_get : nat -> string -> result Response;
  html_parser : string -> result PageElement;
  urljoin : string -> string -> result string;
  Image_open : string -> result Image;
  Image_convert : Image -> string -> result Image;
  open_path : nat -> string -> result Image;
  generate : nat -> Image -> option string -> result string
}.

(** Computations that talk to the world: a clock is threaded through, and
    it keeps running when an exception is raised. *)
Definition M (A : Type) : Type := nat -> result A * nat.

Definition ret {A} (a : A) : M A := fun t => (Ok a, t).

Definition raise {A} (e : exn) : M A := fun t => (Raise e, t).

Definition bind {A B} (c : M A) (k : A -> M B) : M B :=
  fun t => match c t with
           | (Ok a, t') => k a t'
           | (Raise e, t') => (Raise e, t')
           end.

Definition lift {A} (r : result A) : M A := fun t => (r, t).

(** [try: c  except Exception as e: h e] *)
Definition try_except {A} (c : M A) (h : exn -> M A) : M A :=
  fun t => match c t with
           | (Ok a, t') => (Ok a, t')
           | (Raise e, t') => h e t'
           end.

Notation "x <- c ;; k" := (bind c (fun x => k))
  (at level 61, c at next level, right associativity).
Notation "c ;;; k" := (bind c (fun _ => k))
  (at level 61, right associativity).

(** Python's [a or b] on optional strings: [None] and "" are falsy. *)
Definition truthy_opt (o : option string) : bool :=
  match o with
  | Some s => Str.truthy s
  | None => false
  end.

Definition py_or (a b : option string) : option string :=
  if truthy_opt a then a else b.

(* ===================================================================== *)
(** ** [WebScraper] *)
(* ===================================================================== *)

(** The dictionary [scrape_images] builds for one image. *)
Record ImageData : Type := {
  d_url : string;
  d_alt : string;
  d_title : string;
  d_width : string;
  d_height : string;
  d_index : nat
}.

(** The dictionary [scrape_article_images] builds for one image. *)
Record ArticleImageData : Type := {
  a_url : string;
  a_alt : string;
  a_title : string;
  a_caption : string;
  a_index : nat
}.

(** [response.raise_for_status()]: 4xx and 5xx raise [HTTPError], a
    [RequestException]. *)
Definition raise_for_status (r : Response) : result unit :=
  if ((400 <=? status_code r) && (status_code r <? 600))%Z
  then Raise (RequestException "HTTPError")
  else Ok tt.

(** [WebScraper._is_svg] *)
Definition _is_svg (url : string) : bool :=
  Str.endswith (Str.lower url) ".svg" || Str.contains (Str.lower url) ".svg".

(** The content selectors [scrape_article_images] uses by default. *)
Definition default_content_selectors : list string :=
  ["article"; ".article-content"; ".post-content"; ".entry-content";
   "#content"; "main"].

(** [WebScraper._extract_caption] *)
Definition _extract_caption (img : Located) : string :=
  let figcaption :=
    if bs4.is_tag_named "figure" (parent img)
    then bs4.find (parent img) "figcaption"
    else None in
  match figcaption with
  | Some fc => bs4.get_text_strip fc
  | None =>
      match bs4.find_next_sibling img with
      | Some next_sibling =>
          if (bs4.is_tag_named "p" next_sibling
              || bs4.is_tag_named "div" next_sibling
              || bs4.is_tag_named "span" next_sibling)
             && Str.in_list "caption" (bs4.get_class next_sibling)
          then bs4.get_text_strip next_sibling
          else ""
      | None => ""
      end
  end.

(** The loop of [scrape_article_images] that looks for the content
    region: the first selector that selects something wins. *)
Fixpoint find_content (soup : PageElement) (content_selectors : list string)
  : option PageElement :=
  match content_selectors with
  | [] => None
  | selector :: rest =>
      match bs4.select_one soup selector with
      | Some content => Some content
      | None => find_content soup rest
      end
  end.

Section Scraper.

Variable w : World.

Definition http_get (url : string) : M Response :=
  fun t => (requests_get w t url, S t).

(** [WebScraper._extract_image_url] *)
Definition _extract_image_url (img_element : PageElement) (base_url : string)
  : result (option string) :=
  let img_url := py_or (bs4.get img_element "src") (bs4.get img_element "data-src") in
  rbind
    (if negb (truthy_opt img_url) && bs4.has_attr img_element "srcset"
     then
       let srcset := bs4.get_default img_element "srcset" "" in
       match Str.split srcset with
       | [] => Raise (IndexError "list index out of range")
       | first :: _ => Ok (Some (hd "" (Str.split_on "," first)))
       end
     else Ok img_url)
    (fun img_url =>
       match img_url with
       | None => Ok None
       | Some u =>
           if negb (Str.truthy u) then Ok None
           else if Str.startswith u "//" then Ok (Some ("https:" ++ u)%string)
           else if Str.startswith u "/"
                then rbind (urljoin w base_url u) (fun r => Ok (Some r))
           else if negb (Str.startswith u "http")
                then rbind (urljoin w base_url u) (fun r => Ok (Some r))
           else Ok (Some u)
       end).

(** The body of the [for idx, img in enumerate(img_elements, start=1)] loop
    of [scrape_images], with [images] the list built so far. *)
Fixpoint scrape_images_loop (url : string) (idx : nat)
    (img_elements : list Located) (images : list ImageData)
  : result (list ImageData) :=
  match img_elements with
  | [] => Ok images
  | img :: rest =>
      match _extract_image_url (element img) url with
      | Raise e => Raise e
      | Ok img_url =>
          if negb (truthy_opt img_url) then scrape_images_loop url (S idx) rest images
          else
            let u := match img_url with Some u => u | None => "" end in
            if _is_svg u then scrape_images_loop url (S idx) rest images
            else if Str.startswith u "data:" then scrape_images_loop url (S idx) rest images
            else
              let image_data :=
                {| d_url := u;
                   d_alt := bs4.get_default (element img) "alt" "";
                   d_title := bs4.get_default (element img) "title" "";
                   d_width := bs4.get_default (element img) "width" "";
                   d_height := bs4.get_default (element img) "height" "";
                   d_index := idx |} in
              scrape_images_loop url (S idx) rest (images ++ [image_data])
      end
  end.

(** [WebScraper.scrape_images].  Both handlers re-raise. *)
Definition scrape_images (url : string) (min_width min_height : Z)
  : M (list ImageData) :=
  try_except
    (response <- http_get url ;;
     lift (raise_for_status response) ;;;
     soup <- lift (html_parser w (text response)) ;;
     let img_elements := bs4.find_all soup "img" in
     lift (scrape_images_loop url 1 img_elements []))
    (fun e => match e with
              | RequestException _ => raise e
              | _ => raise e
              end).

(** The image loop of [scrape_article_images]. *)
Fixpoint scrape_article_loop (url : string) (idx : nat)
    (img_elements : list Located) (images : list ArticleImageData)
  : result (list ArticleImageData) :=
  match img_elements with
  | [] => Ok images
  | img :: rest =>
      match _extract_image_url (element img) url with
      | Raise e => Raise e
      | Ok img_url =>
          let u := match img_url with Some u => u | None => "" end in
          if negb (truthy_opt img_url) || _is_svg u || Str.startswith u "data:"
          then scrape_article_loop url (S idx) rest images
          else
            let image_data :=
              {| a_url := u;
                 a_alt := bs4.get_default (element img) "alt" "";
                 a_title := bs4.get_default (element img) "title" "";
                 a_caption := _extract_caption img;
                 a_index := idx |} in
            scrape_article_loop url (S idx) rest (images ++ [image_data])
      end
  end.

(** [WebScraper.scrape_article_images] *)
Definition scrape_article_images (url : string) (content_selectors : option (list string))
  : M (list ArticleImageData) :=
  let content_selectors :=
    match content_selectors with
    | None => default_content_selectors
    | Some l => l
    end in
  try_except
    (response <- http_get url ;;
     lift (raise_for_status response) ;;;
     soup <- lift (html_parser w (text response)) ;;
     let content :=
       match find_content soup content_selectors with
       | Some content => content
       | None => soup
       end in
     let img_elements := bs4.find_all content "img" in
     lift (scrape_article_loop url 1 img_elements []))
    (fun e => raise e).

(** [WebScraper.get_page_title] *)
Definition get_page_title (url : string) : M string :=
  try_except
    (response <- http_get url ;;
     lift (raise_for_status response) ;;;
     soup <- lift (html_parser w (text response)) ;;
     match bs4.find soup "title" with
     | Some title => ret (bs4.get_text_strip title)
     | None => ret ""
     end)
    (fun _ => ret "").

End Scraper.

(* ===================================================================== *)
(** ** [ImageDownloader] *)
(* ===================================================================== *)

(** The default of [download_image]'s [min_size] parameter. *)
Definition default_min_size : Z := 200.

Section Downloader.

Variable w : World.

(** The [try] block of [ImageDownloader.download_image]. *)
Definition download_image_body (url : string) (min_size : Z) : M (option Image) :=
  response <- http_get w url ;;
  lift (raise_for_status response) ;;;
  image <- lift (Image_open w (content response)) ;;
  let '(width, height) := size image in
  if (width * height <? min_size)%Z then ret None
  else
    image <- (if negb (String.eqb (mode image) "RGB")
              then lift (Image_convert w image "RGB")
              else ret image) ;;
    ret (Some image).

(** [ImageDownloader.download_image]: the three handlers all return
    [None]. *)
Definition download_image (url : string) (min_size : Z) : M (option Image) :=
  try_except (download_image_body url min_size)
    (fun e => match e with
              | RequestException _ => ret None
              | OSError _ => ret None
              | _ => ret None
              end).

End Downloader.

(* ===================================================================== *)
(** ** [BLIP2Model] and [CaptionGenerator] *)
(* ===================================================================== *)

(** What [caption_single] returns, and what [caption_batch] records for a
    path that failed (there the "caption" entry is [None]). *)
Inductive BatchResult : Type :=
| Captioned (image_path : string) (prompt : option string) (caption : string)
| Failed (image_path : string) (error : string).

(** The characters iterating over a [str] yields.  In UTF-8 a character
    is a byte that is no continuation byte (10xxxxxx) together with the
    continuation bytes that follow it. *)
Definition is_continuation (c : ascii) : bool :=
  let n := nat_of_ascii c in ((128 <=? n) && (n <? 192))%nat.

Fixpoint characters_aux (cur : string) (s : string) : list string :=
  match s with
  | EmptyString => if Str.truthy cur then [cur] else []
  | String c r =>
      if is_continuation c then characters_aux (cur ++ String c EmptyString)%string r
      else (if Str.truthy cur then [cur] else []) ++ characters_aux (String c EmptyString) r
  end.

Definition characters (s : string) : list string := characters_aux EmptyString s.

Section Captioning.

Variable w : World.

(** [BLIP2Model.generate_caption]: the processor is given the prompt only
    when it is truthy; the handler re-raises. *)
Definition generate_caption (image : Image) (prompt : option string) : M string :=
  try_except
    (fun t => (generate w t image (if truthy_opt prompt then prompt else None), S t))
    (fun e => raise e).

(** [BLIP2Model.generate_caption_from_path] *)
Definition generate_caption_from_path (image_path : string) (prompt : option string)
  : M string :=
  try_except
    (opened <- (fun t => (open_path w t image_path, S t)) ;;
     image <- lift (Image_convert w opened "RGB") ;;
     generate_caption image prompt)
    (fun e => raise e).

(** [CaptionGenerator.caption_single] *)
Definition caption_single (default_prompt : option string)
    (image_path : string) (prompt : option string) : M BatchResult :=
  let used_prompt := py_or prompt default_prompt in
  caption <- generate_caption_from_path image_path used_prompt ;;
  ret (Captioned image_path used_prompt caption).

(** The body of the loop of [caption_batch], run over [items]. *)
Fixpoint caption_batch_loop (default_prompt : option string)
    (items : list string) (prompt : option string) (results : list BatchResult)
  : M (list BatchResult) :=
  match items with
  | [] => ret results
  | image_path :: rest =>
      results <- try_except
                   (result <- caption_single default_prompt image_path prompt ;;
                    ret (results ++ [result]))
                   (fun e => ret (results ++ [Failed image_path (str_exn e)])) ;;
      caption_batch_loop default_prompt rest prompt results
  end.

(** [CaptionGenerator.caption_batch].  The loop header reads
    [enumerate(image_path, start=1)]: it iterates over the loop variable
    [image_path] itself, a local of the function that holds no value when
    the header is evaluated, and not over the parameter [image_paths]. *)
Definition caption_batch (default_prompt : option string)
    (image_paths : list string) (prompt : option string) : M (list BatchResult) :=
  let results : list BatchResult := [] in
  let image_path : option string := None in
  match image_path with
  | None =>
      raise (UnboundLocalError
        "cannot access local variable 'image_path' where it is not associated with a value")
  | Some s => caption_batch_loop default_prompt (characters s) prompt results
  end.

End Captioning.

(* ===================================================================== *)
(** ** [ImageCaptionPipeline] *)
(* ===================================================================== *)

(** A success entry of [process_url]. *)
Record CaptionRecord : Type := {
  r_image_url : string;
  r_caption : string;
  r_alt : string;
  r_title : string;
  r_width : Z;
  r_height : Z;
  r_index : nat
}.

(** A success entry of [process_article]. *)
Record ArticleCaptionRecord : Type := {
  ar_image_url : string;
  ar_caption : string;
  ar_original_caption : string;
  ar_alt : string;
  ar_width : Z;
  ar_height : Z;
  ar_index : nat
}.

(** An entry of the [errors] list. *)
Record FailureRecord : Type := {
  e_index : nat;
  e_url : string;
  e_error : string
}.

(** The summary dictionary both modes return. *)
Record Summary (R : Type) : Type := {
  s_url : string;
  s_title : string;
  total_images_found : nat;
  images_processed : nat;
  images_failed : nat;
  results : list R;
  errors : list FailureRecord
}.
Arguments s_url {R} s.
Arguments s_title {R} s.
Arguments total_images_found {R} s.
Arguments images_processed {R} s.
Arguments images_failed {R} s.
Arguments results {R} s.
Arguments errors {R} s.

(** [l[:stop]] *)
Definition slice_to {A} (l : list A) (stop : Z) : list A :=
  if (stop <? 0)%Z
  then firstn (Z.to_nat (Z.of_nat (length l) + stop)) l
  else firstn (Z.to_nat stop) l.

(** [if max_images: images = images[:max_images]] *)
Definition limit {A} (max_images : option Z) (images : list A) : list A :=
  match max_images with
  | None => images
  | Some m => if (m =? 0)%Z then images else slice_to images m
  end.

Section Pipeline.

Variable w : World.

(** [self.min_image_size] *)
Variable min_image_size : Z.

(** One pass through the body of the loop of [process_url]: the [try]
    block and its handler, for the image [img_data] numbered [idx], with
    [results] and [errors] the lists built so far. *)
Definition process_url_item (prompt : option string) (idx : nat)
    (img_data : ImageData)
    (results : list CaptionRecord) (errors : list FailureRecord)
  : M (list CaptionRecord * list FailureRecord) :=
  try_except
    (image <- download_image w (d_url img_data) min_image_size ;;
     match image with
     | None =>
         ret (results,
              errors ++ [ {| e_index := idx;
                             e_url := d_url img_data;
                             e_error := "Download failed or image too small" |} ])
     | Some image =>
         caption <- generate_caption w image prompt ;;
         ret (results ++ [ {| r_image_url := d_url img_data;
                              r_caption := caption;
                              r_alt := d_alt img_data;
                              r_title := d_title img_data;
                              r_width := fst (size image);
                              r_height := snd (size image);
                              r_index := idx |} ],
              errors)
     end)
    (fun e =>
       ret (results,
            errors ++ [ {| e_index := idx;
                           e_url := d_url img_data;
                           e_error := str_exn e |} ])).

(** The loop of [process_url] over [enumerate(images, start=1)]. *)
Fixpoint process_url_loop (prompt : option string) (idx : nat)
    (images : list ImageData)
    (results : list CaptionRecord) (errors : list FailureRecord)
  : M (list CaptionRecord * list FailureRecord) :=
  match images with
  | [] => ret (results, errors)
  | img_data :: rest =>
      acc <- process_url_item prompt idx img_data results errors ;;
      process_url_loop prompt (S idx) rest (fst acc) (snd acc)
  end.

(** [ImageCaptionPipeline.process_url] *)
Definition process_url (url : string) (prompt : option string) (max_images : option Z)
  : M (Summary CaptionRecord) :=
  page_title <- get_page_title w url ;;
  images <- scrape_images w url 200 200 ;;
  let images := limit max_images images in
  acc <- process_url_loop prompt 1 images [] [] ;;
  ret {| s_url := url;
         s_title := page_title;
         total_images_found := length images;
         images_processed := length (fst acc);
         images_failed := length (snd acc);
         results := fst acc;
         errors := snd acc |}.

(** One pass through the body of the loop of [process_article]. *)
Definition process_article_item (prompt : option string) (idx : nat)
    (img_data : ArticleImageData)
    (results : list ArticleCaptionRecord) (errors : list FailureRecord)
  : M (list ArticleCaptionRecord * list FailureRecord) :=
  try_except
    (image <- download_image w (a_url img_data) default_min_size ;;
     match image with
     | None =>
         ret (results,
              errors ++ [ {| e_index := idx;
                             e_url := a_url img_data;
                             e_error := "Download failed" |} ])
     | Some image =>
         caption <- generate_caption w image prompt ;;
         ret (results ++ [ {| ar_image_url := a_url img_data;
                              ar_caption := caption;
                              ar_original_caption := a_caption img_data;
                              ar_alt := a_alt img_data;
                              ar_width := fst (size image);
                              ar_height := snd (size image);
                              ar_index := idx |} ],
              errors)
     end)
    (fun e =>
       ret (results,
            errors ++ [ {| e_index := idx;
                           e_url := a_url img_data;
                           e_error := str_exn e |} ])).

(** The loop of [process_article]. *)
Fixpoint process_article_loop (prompt : option string) (idx : nat)
    (images : list ArticleImageData)
    (results : list ArticleCaptionRecord) (errors : list FailureRecord)
  : M (list ArticleCaptionRecord * list FailureRecord) :=
  match images with
  | [] => ret (results, errors)
  | img_data :: rest =>
      acc <- process_article_item prompt idx img_data results errors ;;
      process_article_loop prompt (S idx) rest (fst acc) (snd acc)
  end.

(** [ImageCaptionPipeline.process_article] *)
Definition process_article (url : string) (prompt : option string)
  : M (Summary ArticleCaptionRecord) :=
  page_title <- get_page_title w url ;;
  images <- scrape_article_images w url None ;;
  acc <- process_article_loop prompt 1 images [] [] ;;
  ret {| s_url := url;
         s_title := page_title;
         total_images_found := length images;
         images_processed := length (fst acc);
         images_failed := length (snd acc);
         results := fst acc;
         errors := snd acc |}.

(** [ImageCaptionPipeline.process_image_file]; the pipeline's generator is
    built without a default prompt. *)
Definition process_image_file (image_path : string) (prompt : option string)
  : M BatchResult :=
  caption_single w None image_path prompt.

(** [ImageCaptionPipeline.process_image_batch] *)
Definition process_image_batch (image_paths : list string) (prompt : option string)
  : M (list BatchResult) :=
  caption_batch w None image_paths prompt.

End Pipeline.

(* ===================================================================== *)
(** ** Properties the specification speaks about *)
(* ===================================================================== *)

(** An absolute URL with the [http] or [https] scheme. *)
Definition is_http_absolute (url : string) : bool :=
  Str.startswith url "http://" || Str.startswith url "https://".

(** Every record carries the index that the extractor stamped on the
    descriptor of the same image. *)
Definition index_is_sequence_index
    (images : list ImageData) (s : Summary CaptionRecord) : Prop :=
  (forall r, In r (results s) ->
     exists d, In d images /\ d_url d = r_image_url r /\ d_index d = r_index r) /\
  (forall e, In e (errors s) ->
     exists d, In d images /\ d_url d = e_url e /\ d_index d = e_index e).

(** The indices of the records of [s] are, taken together, the sequence
    indices of the descriptors [images]: results and errors partition the
    descriptor set by sequence index. *)
Definition partitions_by_sequence_index
    (images : list ImageData) (s : Summary CaptionRecord) : Prop :=
  Permutation (map r_index (results s) ++ map e_index (errors s))
              (map d_index images).

(** [l] is strictly ascending and its [k]-th entry, counted from 0, is
    more than [k]: what holds of the indices the extractor stamps. *)
Definition ascending_from_one (l : list nat) : Prop :=
  (forall j i a b, j < i -> nth_error l j = Some a -> nth_error l i = Some b -> a < b) /\
  (forall k x, nth_error l k = Some x -> S k <= x).

(** The failure classes of an image fetch, read off the outcome of the
    [try] block of [download_image]: [None] for a fetched image. *)
Definition failure_class (outcome : result (option Image)) : option string :=
  match outcome with
  | Ok (Some _) => None
  | Ok None => Some "too small"
  | Raise (RequestException _) => Some "download failed"
  | Raise _ => Some "decode error"
  end.

(** The value [download_image] returns tells the failure classes apart:
    some way of reading a reason off it gives, at every URL of [urls], the
    class of the fetch. *)
Definition reason_distinguishes_class (w : World) (urls : list string)
    (min_size : Z) (t : nat) : Prop :=
  exists reason_of : result (option Image) -> option string,
    forall url, In url urls ->
      reason_of (fst (download_image w url min_size t))
      = failure_class (fst (download_image_body w url min_size t)).

(** The title fetch fails: the request, the status check or the parser
    raises. *)
Definition title_fetch_fails (w : World) (url : string) (t : nat) : Prop :=
  match requests_get w t url with
  | Raise _ => True
  | Ok response =>
      match raise_for_status response with
      | Raise _ => True
      | Ok _ => match html_parser w (text response) with
                | Raise _ => True
                | Ok _ => False
                end
      end
  end.

(** The page served for [url] at time [t], when it is served and parses. *)
Definition page_at (w : World) (url : string) (t : nat) : option PageElement :=
  match requests_get w t url with
  | Raise _ => None
  | Ok response =>
      match raise_for_status response with
      | Raise _ => None
      | Ok _ => match html_parser w (text response) with
                | Raise _ => None
                | Ok soup => Some soup
                end
      end
  end.

(** None of the content selectors selects anything in the page. *)
Definition no_content_region (w : World) (url : string) (t : nat)
    (content_selectors : list string) : Prop :=
  forall soup, page_at w url t = Some soup ->
    Forall (fun selector => bs4.select_one soup selector = None) content_selectors.

(** A whole-page descriptor and an article descriptor of the same image. *)
Definition same_descriptor (d : ImageData) (a : ArticleImageData) : Prop :=
  d_url d = a_url a /\ d_alt d = a_alt a /\ d_title d = a_title a /\
  d_index d = a_index a.

(** Two results are alike: both raise the same exception, or both return
    and the values are related. *)
Definition result_rel {A B} (R : A -> B -> Prop) (x : result A) (y : result B) : Prop :=
  match x, y with
  | Ok a, Ok b => R a b
  | Raise e, Raise e' => e = e'
  | _, _ => False
  end.

(** A success record of the whole-page mode and one of the article mode
    that agree on every field both have. *)
Definition record_agrees (r : CaptionRecord) (r' : ArticleCaptionRecord) : Prop :=
  r_image_url r = ar_image_url r' /\ r_caption r = ar_caption r' /\
  r_alt r = ar_alt r' /\ r_width r = ar_width r' /\
  r_height r = ar_height r' /\ r_index r = ar_index r'.

(** The two modes differ in nothing but the extra field of the success
    records: everything else in the summaries is equal. *)
Definition same_modulo_extra_field
    (s : Summary CaptionRecord) (s' : Summary ArticleCaptionRecord) : Prop :=
  s_url s = s_url s' /\ s_title s = s_title s' /\
  total_images_found s = total_images_found s' /\
  images_processed s = images_processed s' /\
  images_failed s = images_failed s' /\
  Forall2 record_agrees (results s) (results s') /\
  errors s = errors s'.

(** Two failure records that agree up to the wording of the reason the
    two modes give for an image that was not fetched. *)
Definition failure_agrees (e e' : FailureRecord) : Prop :=
  e_index e = e_index e' /\ e_url e = e_url e' /\
  (e_error e = e_error e' \/
   (e_error e = "Download failed or image too small" /\ e_error e' = "Download failed")).

Definition modes_agree
    (s : Summary CaptionRecord) (s' : Summary ArticleCaptionRecord) : Prop :=
  s_url s = s_url s' /\ s_title s = s_title s' /\
  total_images_found s = total_images_found s' /\
  images_processed s = images_processed s' /\
  images_failed s = images_failed s' /\
  Forall2 record_agrees (results s) (results s') /\
  Forall2 failure_agrees (errors s) (errors s').

(** What holds of a descriptor emitted while the counter runs from [idx]
    over [n] elements. *)
Definition emitted_ok (idx n : nat) (d : ImageData) : Prop :=
  idx <= d_index d < idx + n /\
  Str.truthy (d_url d) = true /\
  _is_svg (d_url d) = false /\
  Str.startswith (d_url d) "data:" = false.

(** The record of a success and the record of a failure, for the image
    numbered [idx] whose descriptor is [d]. *)
Definition record_of (idx : nat) (d : ImageData) (r : CaptionRecord) : Prop :=
  r_index r = idx /\ r_image_url r = d_url d /\
  r_alt r = d_alt d /\ r_title r = d_title d.

Definition failure_of (idx : nat) (d : ImageData) (e : FailureRecord) : Prop :=
  e_index e = idx /\ e_url e = d_url d.

(** The records the loop adds, for the images numbered from [idx] on:
    every record belongs to the image at its position, and between them
    the two lists hold each position exactly once, in ascending order. *)
Definition loop_outcome (idx : nat) (images : list ImageData)
    (rs : list CaptionRecord) (es : list FailureRecord) : Prop :=
  length rs + length es = length images /\
  Forall (fun r => idx <= r_index r /\
                   exists d, nth_error images (r_index r - idx) = Some d /\
                             record_of (r_index r) d r) rs /\
  Forall (fun e => idx <= e_index e /\
                   exists d, nth_error images (e_index e - idx) = Some d /\
                             failure_of (e_index e) d e) es /\
  StronglySorted lt (map r_index rs) /\
  StronglySorted lt (map e_index es) /\
  Permutation (map r_index rs ++ map e_index es) (seq idx (length images)).

(** The summary [process_url] assembles from the title, the capped
    descriptors and the two lists. *)
Definition summary_of (url title : string) (images : list ImageData)
    (rs : list CaptionRecord) (es : list FailureRecord) : Summary CaptionRecord :=
  {| s_url := url; s_title := title;
     total_images_found := length images;
     images_processed := length rs;
     images_failed := length es;
     results := rs; errors := es |}.

(* ===================================================================== *)
(** ** Sample worlds *)
(* ===================================================================== *)

Module Sample.

Definition python_urljoin (base url : string) : result string :=
  Ok (urllib_parse.urljoin base url).

Definition img (attrs : list (string * string)) : PageElement := Tag "img" attrs [].

Definition document (body : list PageElement) : PageElement :=
  Tag "[document]" [] body.

(** The decoder: three payloads are images, anything else is not. *)
Definition decode (payload : string) : result Image :=
  if String.eqb payload "png 300x300" then Ok {| size := (300, 300)%Z; mode := "RGB" |}
  else if String.eqb payload "gif 50x50" then Ok {| size := (50, 50)%Z; mode := "P" |}
  else if String.eqb payload "png 10x10" then Ok {| size := (10, 10)%Z; mode := "RGB" |}
  else Raise (OSError "cannot identify image file").

Definition ok_page : Response :=
  {| status_code := 200; text := "<html>"; content := "<html>" |}.

Definition ok_image (payload : string) : Response :=
  {| status_code := 200; text := payload; content := payload |}.

Definition not_found : Response :=
  {| status_code := 404; text := "Not Found"; content := "Not Found" |}.

Definition page_url : string := "https://example.com/page".

(** U+00A0, the no-break space, in UTF-8. *)
Definition nbsp : string :=
  String (ascii_of_nat 194) (String (ascii_of_nat 160) EmptyString).

(** The server: one page and a handful of image files. *)
Definition server (url : string) : result Response :=
  if String.eqb url page_url then Ok ok_page
  else if Str.endswith url "/tiny.png" then Ok (ok_image "png 10x10")
  else if Str.endswith url "/corrupt.png" then Ok (ok_image "garbage")
  else if Str.endswith url "/missing.png" then Ok not_found
  else if Str.endswith url "/icon.gif" then Ok (ok_image "gif 50x50")
  else if Str.startswith url "https://" && Str.endswith url ".png"
       then Ok (ok_image "png 300x300")
  else Raise (RequestException "ConnectionError").

Definition world (soup : PageElement) (get : nat -> string -> result Response) : World :=
  {| requests_get := get;
     html_parser := fun _ => Ok soup;
     urljoin := python_urljoin;
     Image_open := decode;
     Image_convert := fun image m => Ok {| size := size image; mode := m |};
     open_path := fun _ _ => Raise (OSError "No such file or directory");
     generate := fun _ _ _ => Ok "a photo" |}.

(** A page whose first image is an SVG icon. *)
Definition page_with_icon : PageElement :=
  document [ img [("src", "icon.svg")];
             img [("src", "https://example.com/b.png"); ("alt", "B")] ].

Definition w_icon : World := world page_with_icon (fun _ => server).

(** A page with one image of each failure class, and one good image. *)
Definition page_failures : PageElement :=
  document [ img [("src", "/missing.png")];
             img [("src", "/tiny.png")];
             img [("src", "/corrupt.png")];
             img [("src", "/good.png")] ].

Definition w_failures : World := world page_failures (fun _ => server).

(** Scenario A of the specification. *)
Definition page_logo : PageElement :=
  document [ img [("src", "/logo.png"); ("alt", "Logo")] ].

Definition w_logo : World := world page_logo (fun _ => server).

(** A page with a relative image reference under a directory whose name
    starts with "http". *)
Definition page_httpdocs : PageElement :=
  document [ img [("src", "httpdocs/a.png")] ].

Definition w_httpdocs : World := world page_httpdocs (fun _ => server).

(** Five images. *)
Definition page_five : PageElement :=
  document [ img [("src", "/1.png")]; img [("src", "/2.png")];
             img [("src", "/missing.png")]; img [("src", "/4.png")];
             img [("src", "/5.png")] ].

Definition w_five : World := world page_five (fun _ => server).

(** The first request times out, the later ones are served. *)
Definition flaky (t : nat) (url : string) : result Response :=
  match t with
  | O => Raise (RequestException "ReadTimeout")
  | S _ => server url
  end.

Definition w_flaky : World := world page_logo flaky.

(** A page with a [div] around its images and no article markup. *)
Definition page_plain : PageElement :=
  document [ Tag "div" [("class", "wrap")]
               [ img [("src", "/missing.png"); ("alt", "gone")];
                 img [("src", "/good.png"); ("alt", "here")] ] ].

Definition w_plain : World := world page_plain (fun _ => server).

End Sample.

(* ===================================================================== *)
(** ** Further properties of the extraction *)
(* ===================================================================== *)

(** The descriptor [d] carries what [scrape_images] reads off the element
    [img]: its resolved URL and its "alt", "title", "width" and "height"
    attributes, the empty string standing for a missing one. *)
Definition descriptor_of_element (w : World) (url : string)
    (img : Located) (d : ImageData) : Prop :=
  _extract_image_url w (element img) url = Ok (Some (d_url d)) /\
  d_alt d = bs4.get_default (element img) "alt" "" /\
  d_title d = bs4.get_default (element img) "title" "" /\
  d_width d = bs4.get_default (element img) "width" "" /\
  d_height d = bs4.get_default (element img) "height" "".

(** The element [img] resolves to the URL [u], and [u] passes the three
    filters of the extraction loops: it is not empty, not an SVG reference
    and not a "data:" URI. *)
Definition emits (w : World) (url : string) (img : Located) (u : string) : Prop :=
  _extract_image_url w (element img) url = Ok (Some u) /\
  Str.truthy u = true /\ _is_svg u = false /\ Str.startswith u "data:" = false.

(** An [<img>] element whose only attribute is "src". *)
Definition img_with_src (u : string) : PageElement := Tag "img" [("src", u)] [].

(** The article descriptor [a] carries what [scrape_article_images] reads
    off the element [img]: its resolved URL, its "alt" and "title"
    attributes and the caption found next to it. *)
Definition article_descriptor_of_element (w : World) (url : string)
    (img : Located) (a : ArticleImageData) : Prop :=
  emits w url img (a_url a) /\
  a_alt a = bs4.get_default (element img) "alt" "" /\
  a_title a = bs4.get_default (element img) "title" "" /\
  a_caption a = _extract_caption img.

(** The region [scrape_article_images] searches in [soup]. *)
Definition content_region (soup : PageElement) (content_selectors : option (list string))
  : PageElement :=
  match find_content soup
          (match content_selectors with
           | None => default_content_selectors
           | Some l => l
           end) with
  | Some content => content
  | None => soup
  end.

(** The walk [bs4.descendants] makes over the children [l] of [root]. *)
Fixpoint siblings_walk (root : PageElement) (l : list PageElement) : list Located :=
  match l with
  | [] => []
  | c :: rest =>
      {| element := c; parent := root; next_siblings := rest |}
        :: bs4.descendants c ++ siblings_walk root rest
  end.

Module SampleArticle.

(** A page with a banner, a [main] region and, after it, an [article]
    with a captioned figure and an inline SVG icon. *)
Definition page : PageElement :=
  Sample.document
    [ Sample.img [("src", "/banner.png"); ("alt", "banner")];
      Tag "main" []
        [ Sample.img [("src", "/side.png")] ];
      Tag "article" []
        [ Tag "figure" []
            [ Sample.img [("src", "/cat.png"); ("alt", "cat")];
              Tag "figcaption" [] [ NavigableString "  A cat. " ] ];
          Sample.img [("src", "/icon.svg")];
          Sample.img [("src", "/dog.png")];
          Tag "p" [("class", "caption wide")] [ NavigableString "A dog." ] ] ].

Definition w : World := Sample.world page (fun _ => Sample.server).

End SampleArticle.

(* ===================================================================== *)
(** ** Further properties of the fetch and of the runs *)
(* ===================================================================== *)

(** What [Image.convert] promises: the converted image has the mode asked
    for and the size of the original. *)
Definition convert_contract (w : World) : Prop :=
  forall image m converted,
    Image_convert w image m = Ok converted ->
    mode converted = m /\ size converted = size image.

(** The number [process_url] reports as [total_images_found] when
    extraction yields [n] descriptors, for each value of [max_images]. *)
Definition capped_count (max_images : option Z) (n : nat) : Z :=
  match max_images with
  | None => Z.of_nat n
  | Some m =>
      if (m =? 0)%Z then Z.of_nat n
      else if (m <? 0)%Z then Z.max 0 (Z.of_nat n + m)
      else Z.min m (Z.of_nat n)
  end.

(** The failure record [e] is accounted for: either the fetch of its URL
    returned nothing and its reason is the fixed text [literal], or the
    fetch returned an image on which the model raised, and its reason is
    the text of that exception. *)
Definition failure_explained (w : World) (min_size : Z) (literal : string)
    (prompt : option string) (e : FailureRecord) : Prop :=
  (exists t, download_image w (e_url e) min_size t = (Ok None, S t) /\
             e_error e = literal) \/
  (exists t image ex,
     download_image w (e_url e) min_size t = (Ok (Some image), S t) /\
     generate w (S t) image (if truthy_opt prompt then prompt else None) = Raise ex /\
     e_error e = str_exn ex).

Module SampleFiles.

(** A world with one readable image file, [cat.jpg]. *)
Definition w : World :=
  {| requests_get := fun _ => Sample.server;
     html_parser := fun _ => Ok Sample.page_logo;
     urljoin := Sample.python_urljoin;
     Image_open := Sample.decode;
     Image_convert := fun image m => Ok {| size := size image; mode := m |};
     open_path := fun _ path =>
       if String.eqb path "cat.jpg" then Ok {| size := (640, 480)%Z; mode := "L" |}
       else Raise (OSError "No such file or directory");
     generate := fun _ _ prompt =>
       match prompt with
       | None => Ok "a cat"
       | Some p => Ok (p ++ " a cat")%string
       end |}.

End SampleFiles.

(* ===================================================================== *)
(** ** The remaining operations of the scraper, the downloader and the UI *)
(* ===================================================================== *)

From Stdlib Require DecimalString.

(** The collaborators these operations need beyond [World]: the HEAD
    request, [urllib.parse.urlparse] (which may raise [ValueError]),
    [Image.thumbnail] and [Image.save], the loading of the models behind
    [GradioApp._init_models], [json.dumps] and [Path(...).name]. *)
Record Platform : Type := {
  world : World;
  requests_head : nat -> string -> result Response;
  urlparse : string -> result urllib_parse.ParseResult;
  Image_thumbnail : Image -> Z * Z -> result Image;
  Image_save : nat -> Image -> string -> result unit;
  load_models : nat -> result unit;
  json_dumps : list BatchResult -> string;
  path_name : string -> string
}.

(** [str(n)] for a non-negative integer. *)
Definition str_nat (n : nat) : string :=
  DecimalString.NilZero.string_of_uint (Nat.to_uint n).

Definition newline : string := String (ascii_of_nat 10) EmptyString.

Section Platform.

Variable p : Platform.

Definition http_head (url : string) : M Response :=
  fun t => (requests_head p t url, S t).

(** [WebScraper.is_valid_url]; the bare [except:] catches everything. *)
Definition is_valid_url (url : string) : M bool :=
  try_except
    (parsed <- lift (urlparse p url) ;;
     if negb (Str.truthy (urllib_parse.pr_scheme parsed)
              && Str.truthy (urllib_parse.pr_netloc parsed))
     then ret false
     else
       response <- http_head url ;;
       ret (status_code response =? 200)%Z)
    (fun _ => ret false).

(** [ImageDownloader.is_image_accessible] *)
Definition is_image_accessible (url : string) : M bool :=
  try_except
    (response <- http_head url ;;
     ret (status_code response =? 200)%Z)
    (fun _ => ret false).

(** [ImageDownloader.download_and_save]; [max_size] is a (width, height)
    pair or [None]. *)
Definition download_and_save (url output_path : string) (max_size : option (Z * Z))
  : M bool :=
  try_except
    (image <- download_image (world p) url default_min_size ;;
     match image with
     | None => ret false
     | Some image =>
         image <- match max_size with
                  | Some bound => lift (Image_thumbnail p image bound)
                  | None => ret image
                  end ;;
         (fun t => (Image_save p t image output_path, S t)) ;;;
         ret true
     end)
    (fun _ => ret false).

(** [prompt.strip() if prompt and prompt.strip() else None] *)
Definition use_prompt (prompt : option string) : option string :=
  match prompt with
  | Some s => if Str.truthy s && Str.truthy (Str.strip s) then Some (Str.strip s) else None
  | None => None
  end.

(** The loop of [caption_batch_images] that lists the results. *)
Fixpoint batch_summary_lines (idx : nat) (results : list BatchResult) (summary : string)
  : string :=
  match results with
  | [] => summary
  | Failed _ error :: rest =>
      batch_summary_lines (S idx) rest
        (summary ++ "**" ++ str_nat idx ++ ".** ❌ Error: " ++ error ++ newline)
  | Captioned image_path _ caption :: rest =>
      batch_summary_lines (S idx) rest
        (summary ++ "**" ++ str_nat idx ++ ".** ✅ " ++ caption ++ newline
                 ++ "   - File: " ++ path_name p image_path ++ newline ++ newline)
  end%string.

(** [GradioApp.caption_batch_images]: the summary text and the JSON text.
    The generator behind the UI is built without a default prompt. *)
Definition caption_batch_images (files : list string) (prompt : option string)
  : M (string * string) :=
  try_except
    ((fun t => (load_models p t, S t)) ;;;
     match files with
     | [] => ret ("⚠️ Please upload at least one image.", "")
     | _ :: _ =>
         results <- caption_batch (world p) None files (use_prompt prompt) ;;
         let summary :=
           ("## 📊 Batch Processing Complete!" ++ newline ++ newline
            ++ "**Total Images:** " ++ str_nat (length results) ++ newline ++ newline
            ++ "### Results:" ++ newline ++ newline)%string in
         let summary := batch_summary_lines 1 results summary in
         ret (summary, json_dumps p results)
     end)
    (fun e => ret (("❌ **Error:** " ++ str_exn e)%string, "")).

End Platform.

Module SamplePlatform.

(** The sample world with a HEAD request answered like a GET, CPython's
    [urlparse], and models that load. *)
Definition p : Platform :=
  {| world := Sample.w_failures;
     requests_head := fun _ => Sample.server;
     urlparse := fun url => Ok (urllib_parse.urlparse url "");
     Image_thumbnail := fun image _ => Ok image;
     Image_save := fun _ _ path =>
       if Str.startswith path "/readonly/" then Raise (OSError "Permission denied")
       else Ok tt;
     load_models := fun _ => Ok tt;
     json_dumps := fun _ => "[]";
     path_name := fun path => last (Str.split_on "/" path) "" |}.

End SamplePlatform.


(* ===================================================================== *)
(** ** Running the monad *)
(* ===================================================================== *)

Ltac unfold_M :=
  unfold try_except, bind, ret, raise, lift, http_get in *.

Lemma bind_ok {A B} (c : M A) (k : A -> M B) t a t' :
  c t = (Ok a, t') -> bind c k t = k a t'.
Proof. intros H; unfold bind; now rewrite H. Qed.

Lemma bind_raise {A B} (c : M A) (k : A -> M B) t e t' :
  c t = (Raise e, t') -> bind c k t = (Raise e, t').
Proof. intros H; unfold bind; now rewrite H. Qed.

(* ===================================================================== *)
(** ** The title fetch and the image fetch never raise *)
(* ===================================================================== *)

Lemma get_page_title_total w url t :
  exists title, get_page_title w url t = (Ok title, S t).
Proof.
  unfold get_page_title; unfold_M.
  destruct (requests_get w t url) as [response|e]; [|eauto].
  destruct (raise_for_status response); [|eauto].
  destruct (html_parser w (text response)) as [soup|e]; [|eauto].
  destruct (bs4.find soup "title"); eauto.
Qed.

Lemma get_page_title_failure w url t :
  title_fetch_fails w url t -> get_page_title w url t = (Ok "", S t).
Proof.
  unfold title_fetch_fails, get_page_title; unfold_M.
  destruct (requests_get w t url) as [response|e]; [|reflexivity].
  destruct (raise_for_status response); [|reflexivity].
  destruct (html_parser w (text response)) as [soup|e]; [|reflexivity].
  intros [].
Qed.

Lemma download_image_returns w url min_size t :
  download_image w url min_size t =
    (Ok (match fst (download_image_body w url min_size t) with
         | Ok r => r
         | Raise _ => None
         end), S t).
Proof.
  unfold download_image, download_image_body; unfold_M.
  destruct (requests_get w t url) as [response|e]; [|now destruct e].
  destruct (raise_for_status response) as [u|e]; [|now destruct e].
  destruct (Image_open w (content response)) as [image|e]; [|now destruct e].
  destruct (size image) as [width height].
  destruct (width * height <? min_size)%Z; [reflexivity|].
  destruct (negb (mode image =? "RGB")%string); [|reflexivity].
  destruct (Image_convert w image "RGB") as [image'|e]; [reflexivity|now destruct e].
Qed.

Lemma download_image_total w url min_size t :
  exists r, download_image w url min_size t = (Ok r, S t).
Proof. rewrite download_image_returns; eauto. Qed.

(** An image whose area is below [min_size] is never returned. *)
Lemma download_image_too_small w url min_size t response image :
  requests_get w t url = Ok response ->
  raise_for_status response = Ok tt ->
  Image_open w (content response) = Ok image ->
  (fst (size image) * snd (size image) < min_size)%Z ->
  download_image_body w url min_size t = (Ok None, S t) /\
  download_image w url min_size t = (Ok None, S t).
Proof.
  intros Hget Hst Hopen Hlt.
  assert (Hb : download_image_body w url min_size t = (Ok None, S t)).
  { unfold download_image_body; unfold_M.
    rewrite Hget, Hst, Hopen. destruct (size image) as [width height]; simpl in *.
    apply Z.ltb_lt in Hlt. now rewrite Hlt. }
  split; [exact Hb|]. rewrite download_image_returns, Hb. reflexivity.
Qed.

(** An image that is returned was decoded from the response and has at
    least the required area (measured before the conversion to RGB). *)
Lemma download_image_some w url min_size t image :
  download_image w url min_size t = (Ok (Some image), S t) ->
  exists response decoded,
    requests_get w t url = Ok response /\
    raise_for_status response = Ok tt /\
    Image_open w (content response) = Ok decoded /\
    (min_size <= fst (size decoded) * snd (size decoded))%Z /\
    (if negb (String.eqb (mode decoded) "RGB")
     then Image_convert w decoded "RGB" = Ok image
     else image = decoded).
Proof.
  unfold download_image, download_image_body; unfold_M.
  destruct (requests_get w t url) as [response|e] eqn:Hget; [|now destruct e].
  destruct (raise_for_status response) as [[]|e] eqn:Hst; [|now destruct e].
  destruct (Image_open w (content response)) as [decoded|e] eqn:Hopen; [|now destruct e].
  destruct (size decoded) as [width height] eqn:Hsize.
  destruct (width * height <? min_size)%Z eqn:Hlt; [discriminate|].
  apply Z.ltb_ge in Hlt.
  intros H. exists response, decoded. rewrite Hsize; simpl.
  repeat split; try assumption.
  destruct (negb (mode decoded =? "RGB")%string).
  - destruct (Image_convert w decoded "RGB") as [image'|e]; [|now destruct e].
    congruence.
  - congruence.
Qed.

(* ===================================================================== *)
(** ** What the extraction loop emits *)
(* ===================================================================== *)

Lemma emitted_ok_shift idx n d : emitted_ok (S idx) n d -> emitted_ok idx (S n) d.
Proof. unfold emitted_ok; intuition lia. Qed.

Lemma sorted_cons_from (idx : nat) (l : list nat) :
  Forall (fun i => S idx <= i) l -> StronglySorted lt l -> StronglySorted lt (idx :: l).
Proof.
  intros Hall Hs. constructor; [exact Hs|].
  eapply Forall_impl; [|exact Hall]. simpl; intros; lia.
Qed.

Lemma scrape_images_loop_spec w url els :
  forall idx acc images,
    scrape_images_loop w url idx els acc = Ok images ->
    exists new,
      images = acc ++ new /\
      Forall (emitted_ok idx (length els)) new /\
      StronglySorted lt (map d_index new) /\
      (forall k d, nth_error new k = Some d -> idx + k <= d_index d).
Proof.
  induction els as [|img rest IH]; intros idx acc images H; simpl in H.
  - inversion H; subst. exists []. rewrite app_nil_r.
    repeat split; try constructor. intros [|k] d; discriminate.
  - destruct (_extract_image_url w (element img) url) as [img_url|e]; [|discriminate].
    assert (Hskip : scrape_images_loop w url (S idx) rest acc = Ok images ->
                    exists new, images = acc ++ new /\
                      Forall (emitted_ok idx (length (img :: rest))) new /\
                      StronglySorted lt (map d_index new) /\
                      (forall k d, nth_error new k = Some d -> idx + k <= d_index d)).
    { intros H'. destruct (IH _ _ _ H') as (new & -> & Hall & Hs & Hn).
      exists new. repeat split; try assumption.
      - eapply Forall_impl; [|exact Hall]. intros d; apply emitted_ok_shift.
      - intros k d Hk. specialize (Hn k d Hk). lia. }
    destruct (negb (truthy_opt img_url)) eqn:Htruthy; [auto|].
    destruct img_url as [u|]; [|discriminate]. simpl in Htruthy.
    apply negb_false_iff in Htruthy.
    destruct (_is_svg u) eqn:Hsvg; [auto|].
    destruct (Str.startswith u "data:") eqn:Hdata; [auto|].
    clear Hskip.
    destruct (IH _ _ _ H) as (new & -> & Hall & Hs & Hn).
    eexists (_ :: new). rewrite <- app_assoc. simpl. split; [reflexivity|].
    repeat split.
    + constructor.
      * unfold emitted_ok; simpl. repeat split; auto; lia.
      * eapply Forall_impl; [|exact Hall]. intros d; apply emitted_ok_shift.
    + simpl. apply sorted_cons_from; [|exact Hs].
      apply Forall_map. eapply Forall_impl; [|exact Hall].
      unfold emitted_ok; intros d Hd; simpl. lia.
    + intros [|k] d Hk; simpl in Hk.
      * inversion Hk; subst; simpl. lia.
      * specialize (Hn k d Hk). lia.
Qed.

(** What [scrape_images] returns when it returns. *)
Lemma scrape_images_ok w url min_width min_height t images t' :
  scrape_images w url min_width min_height t = (Ok images, t') ->
  t' = S t /\
  exists soup,
    page_at w url t = Some soup /\
    scrape_images_loop w url 1 (bs4.find_all soup "img") [] = Ok images.
Proof.
  unfold scrape_images, page_at; unfold_M.
  destruct (requests_get w t url) as [response|e]; [|now destruct e].
  destruct (raise_for_status response) as [[]|e]; [|now destruct e].
  destruct (html_parser w (text response)) as [soup|e]; [|now destruct e].
  destruct (scrape_images_loop w url 1 (bs4.find_all soup "img") []) as [l|e] eqn:Hl;
    [|now destruct e].
  intros H; inversion H; subst. split; [reflexivity|]. exists soup. split; auto.
Qed.

(** Descriptors come out in strictly increasing order of their index, the
    [k]-th of them (from 0) carries an index of at least [k + 1], and none
    of them is empty, an SVG reference or a "data:" URI. *)
Lemma scrape_images_descriptors w url min_width min_height t images t' :
  scrape_images w url min_width min_height t = (Ok images, t') ->
  StronglySorted lt (map d_index images) /\
  (forall k d, nth_error images k = Some d -> S k <= d_index d) /\
  Forall (fun d => Str.truthy (d_url d) = true /\ _is_svg (d_url d) = false /\
                   Str.startswith (d_url d) "data:" = false) images.
Proof.
  intros H. apply scrape_images_ok in H as (_ & soup & _ & Hloop).
  apply scrape_images_loop_spec in Hloop as (new & -> & Hall & Hs & Hn).
  simpl. repeat split; auto.
  eapply Forall_impl; [|exact Hall]. unfold emitted_ok; intuition.
Qed.

(* ===================================================================== *)
(** ** The per-item loop of [process_url] *)
(* ===================================================================== *)

(** One pass through the loop body appends exactly one record, a success
    or a failure, and never raises. *)
Lemma process_url_item_cases w min_image_size prompt idx d results errors t :
  exists t',
    (exists r, record_of idx d r /\
       process_url_item w min_image_size prompt idx d results errors t
       = (Ok (results ++ [r], errors), t')) \/
    (exists e, failure_of idx d e /\
       process_url_item w min_image_size prompt idx d results errors t
       = (Ok (results, errors ++ [e]), t')).
Proof.
  unfold process_url_item, try_except, bind.
  rewrite download_image_returns.
  destruct (match fst (download_image_body w (d_url d) min_image_size t) with
            | Ok r => r | Raise _ => None end) as [image|].
  - unfold generate_caption, try_except, raise, ret.
    destruct (generate w (S t) image _) as [caption|e].
    + eexists; left; eexists; split; [|reflexivity]. now unfold record_of.
    + eexists; right; eexists; split; [|reflexivity]. now unfold failure_of.
  - eexists; right; eexists; split; [|reflexivity]. now unfold failure_of.
Qed.

Lemma nth_error_shift {A} (x : A) (l : list A) (i idx : nat) :
  S idx <= i -> nth_error (x :: l) (i - idx) = nth_error l (i - S idx).
Proof.
  intros H. replace (i - idx) with (S (i - S idx)) by lia. reflexivity.
Qed.

Lemma process_url_loop_spec w min_image_size prompt images :
  forall idx results errors t,
  exists rs es t',
    process_url_loop w min_image_size prompt idx images results errors t
    = (Ok (results ++ rs, errors ++ es), t') /\
    loop_outcome idx images rs es.
Proof.
  induction images as [|d rest IH]; intros idx results errors t; simpl.
  - exists [], [], t. rewrite !app_nil_r. split; [reflexivity|].
    unfold loop_outcome; simpl. repeat split; constructor.
  - destruct (process_url_item_cases w min_image_size prompt idx d results errors t)
      as (t1 & [(r & Hr & Hitem) | (e & He & Hitem)]);
      rewrite (bind_ok _ _ _ _ _ Hitem); simpl.
    + destruct (IH (S idx) (results ++ [r]) errors t1)
        as (rs' & es' & t2' & Hloop & Hlen & Hrs & Hes & Hsr & Hse & Hperm).
      exists (r :: rs'), es', t2'. rewrite Hloop, <- app_assoc. split; [reflexivity|].
      assert (Hidx : r_index r = idx) by apply Hr.
      unfold loop_outcome; simpl. repeat split.
      * lia.
      * constructor.
        -- rewrite Hidx, Nat.sub_diag. split; [lia|]. exists d. now split.
        -- eapply Forall_impl; [|exact Hrs]. intros r0 (Hle & d0 & Hn & Hrec).
           split; [lia|]. exists d0. now rewrite nth_error_shift.
      * eapply Forall_impl; [|exact Hes]. intros e0 (Hle & d0 & Hn & Hrec).
        split; [lia|]. exists d0. now rewrite nth_error_shift.
      * rewrite Hidx. apply sorted_cons_from; [|exact Hsr].
        apply Forall_map. eapply Forall_impl; [|exact Hrs]. now intros r0 [Hle _].
      * exact Hse.
      * rewrite Hidx. now constructor.
    + destruct (IH (S idx) results (errors ++ [e]) t1)
        as (rs' & es' & t2' & Hloop & Hlen & Hrs & Hes & Hsr & Hse & Hperm).
      exists rs', (e :: es'), t2'. rewrite Hloop, <- app_assoc. split; [reflexivity|].
      assert (Hidx : e_index e = idx) by apply He.
      unfold loop_outcome; simpl. repeat split.
      * lia.
      * eapply Forall_impl; [|exact Hrs]. intros r0 (Hle & d0 & Hn & Hrec).
        split; [lia|]. exists d0. now rewrite nth_error_shift.
      * constructor.
        -- rewrite Hidx, Nat.sub_diag. split; [lia|]. exists d. now split.
        -- eapply Forall_impl; [|exact Hes]. intros e0 (Hle & d0 & Hn & Hrec).
           split; [lia|]. exists d0. now rewrite nth_error_shift.
      * exact Hsr.
      * rewrite Hidx. apply sorted_cons_from; [|exact Hse].
        apply Forall_map. eapply Forall_impl; [|exact Hes]. now intros e0 [Hle _].
      * rewrite Hidx. apply Permutation_sym, Permutation_cons_app, Permutation_sym.
        exact Hperm.
Qed.

(* ===================================================================== *)
(** ** Runs of [process_url] *)
(* ===================================================================== *)

Lemma nth_error_firstn_some {A} (n : nat) (l : list A) (k : nat) (x : A) :
  nth_error (firstn n l) k = Some x -> nth_error l k = Some x.
Proof.
  revert l k; induction n as [|n IH]; intros [|y l] [|k]; simpl; try discriminate; auto.
Qed.

(** The cap keeps a prefix of the list. *)
Lemma limit_prefix {A} (max_images : option Z) (images : list A) :
  exists n, limit max_images images = firstn n images.
Proof.
  destruct max_images as [m|]; simpl.
  - destruct (m =? 0)%Z.
    + exists (length images). now rewrite firstn_all.
    + unfold slice_to. destruct (m <? 0)%Z; eauto.
  - exists (length images). now rewrite firstn_all.
Qed.

(** A positive cap keeps the first [max_images] entries. *)
Lemma limit_positive {A} (m : Z) (images : list A) :
  (0 < m)%Z -> limit (Some m) images = firstn (Z.to_nat m) images.
Proof.
  intros H. unfold limit, slice_to.
  destruct (Z.eqb_spec m 0); [lia|]. destruct (Z.ltb_spec m 0); [lia|reflexivity].
Qed.

(** Once extraction has returned, the run completes: neither the title
    fetch nor the loop can raise. *)
Lemma process_url_ok w min_image_size url prompt max_images t images t2 :
  scrape_images w url 200 200 (S t) = (Ok images, t2) ->
  exists title rs es t3,
    get_page_title w url t = (Ok title, S t) /\
    process_url_loop w min_image_size prompt 1 (limit max_images images) [] [] t2
    = (Ok (rs, es), t3) /\
    loop_outcome 1 (limit max_images images) rs es /\
    process_url w min_image_size url prompt max_images t
    = (Ok (summary_of url title (limit max_images images) rs es), t3).
Proof.
  intros Hscrape.
  destruct (get_page_title_total w url t) as [title Htitle].
  destruct (process_url_loop_spec w min_image_size prompt (limit max_images images)
              1 [] [] t2) as (rs & es & t3 & Hloop & Hout).
  simpl in Hloop.
  exists title, rs, es, t3.
  split; [exact Htitle|]. split; [exact Hloop|]. split; [exact Hout|].
  unfold process_url.
  rewrite (bind_ok _ _ _ _ _ Htitle), (bind_ok _ _ _ _ _ Hscrape),
          (bind_ok _ _ _ _ _ Hloop).
  reflexivity.
Qed.

(** A failure of extraction aborts the run. *)
Lemma process_url_raise w min_image_size url prompt max_images t e t2 :
  scrape_images w url 200 200 (S t) = (Raise e, t2) ->
  process_url w min_image_size url prompt max_images t = (Raise e, t2).
Proof.
  intros Hscrape.
  destruct (get_page_title_total w url t) as [title Htitle].
  unfold process_url.
  now rewrite (bind_ok _ _ _ _ _ Htitle), (bind_raise _ _ _ _ _ Hscrape).
Qed.

(** A run that completes went through a successful extraction. *)
Lemma process_url_inv w min_image_size url prompt max_images t s t3 :
  process_url w min_image_size url prompt max_images t = (Ok s, t3) ->
  exists title images t2 rs es,
    get_page_title w url t = (Ok title, S t) /\
    scrape_images w url 200 200 (S t) = (Ok images, t2) /\
    process_url_loop w min_image_size prompt 1 (limit max_images images) [] [] t2
    = (Ok (rs, es), t3) /\
    loop_outcome 1 (limit max_images images) rs es /\
    s = summary_of url title (limit max_images images) rs es.
Proof.
  intros Hrun.
  destruct (scrape_images w url 200 200 (S t)) as [[images|e] t2] eqn:Hscrape.
  - destruct (process_url_ok w min_image_size url prompt max_images t images t2 Hscrape)
      as (title & rs & es & t3' & Htitle & Hloop & Hout & Hrun').
    rewrite Hrun' in Hrun. inversion Hrun; subst.
    exists title, images, t2, rs, es. auto.
  - rewrite (process_url_raise _ _ _ _ _ _ _ _ Hscrape) in Hrun. discriminate.
Qed.

(** ** Ascending lists of indices *)

Lemma sorted_nth_lt (l : list nat) :
  StronglySorted lt l ->
  forall j i a b, j < i -> nth_error l j = Some a -> nth_error l i = Some b -> a < b.
Proof.
  induction 1 as [|x l Hs IH Hall]; intros j i a b Hlt Hj Hi.
  - destruct j; discriminate.
  - destruct i as [|i]; [lia|]. simpl in Hi. destruct j as [|j]; simpl in Hj.
    + inversion Hj; subst. rewrite Forall_forall in Hall.
      apply Hall. eapply nth_error_In; eauto.
    + apply (IH j i); [lia|exact Hj|exact Hi].
Qed.

Lemma ascending_firstn (n : nat) (l : list nat) :
  ascending_from_one l -> ascending_from_one (firstn n l).
Proof.
  intros [Hlt Hpos]. split.
  - intros j i a b Hji Hj Hi. apply nth_error_firstn_some in Hj, Hi. eauto.
  - intros k x Hk. apply nth_error_firstn_some in Hk. eauto.
Qed.

Lemma ascending_gap (l : list nat) :
  ascending_from_one l ->
  forall i j a b, j <= i -> nth_error l j = Some a -> nth_error l i = Some b ->
  a + (i - j) <= b.
Proof.
  intros [Hlt _]. induction i as [|i IH]; intros j a b Hji Hj Hi.
  - assert (j = 0) by lia. subst. rewrite Hj in Hi. inversion Hi. lia.
  - destruct (Nat.eq_dec j (S i)) as [->|Hne].
    + rewrite Hj in Hi. inversion Hi. lia.
    + destruct (nth_error l i) as [c|] eqn:Hc.
      * assert (a + (i - j) <= c) by (apply (IH j a c); [lia|exact Hj|reflexivity]).
        assert (c < b) by (apply (Hlt i (S i) c b); [lia|exact Hc|exact Hi]).
        lia.
      * apply nth_error_None in Hc.
        assert (S i < length l) by (apply nth_error_Some; congruence). lia.
Qed.

(** In such a list the entry at position [i] is [S i] exactly when the
    entries up to it are 1, 2, ..., [S i]: no number was left out before
    it. *)
Lemma ascending_exact_prefix (l : list nat) :
  ascending_from_one l ->
  forall i x, nth_error l i = Some x ->
  (x = S i <-> firstn (S i) l = seq 1 (S i)).
Proof.
  intros Hasc i x Hi. split.
  - intros ->. apply nth_error_ext. intros n.
    rewrite nth_error_firstn, nth_error_seq.
    destruct (n <? S i)%nat eqn:Hn; [|reflexivity].
    apply Nat.ltb_lt in Hn.
    destruct (nth_error l n) as [y|] eqn:Hy.
    + assert (y + (i - n) <= S i)
        by (apply (ascending_gap l Hasc i n y (S i)); [lia|exact Hy|exact Hi]).
      assert (S n <= y) by (apply (proj2 Hasc n y Hy)).
      f_equal. lia.
    + apply nth_error_None in Hy.
      assert (i < length l) by (apply nth_error_Some; congruence). lia.
  - intros Heq.
    assert (H : nth_error (firstn (S i) l) i = Some x).
    { rewrite nth_error_firstn. now rewrite (proj2 (Nat.ltb_lt i (S i)) (Nat.lt_succ_diag_r i)). }
    rewrite Heq, nth_error_seq in H.
    rewrite (proj2 (Nat.ltb_lt i (S i)) (Nat.lt_succ_diag_r i)) in H.
    inversion H. reflexivity.
Qed.

(** Such a list is a rearrangement of 1, ..., [n] only if it is that
    list. *)
Lemma ascending_permutation_seq (l : list nat) :
  ascending_from_one l ->
  Permutation l (seq 1 (length l)) -> l = seq 1 (length l).
Proof.
  intros Hasc Hperm.
  destruct (length l) as [|n] eqn:Hlen.
  - now apply length_zero_iff_nil in Hlen.
  - destruct (nth_error l n) as [x|] eqn:Hx.
    + assert (Hin : In x (seq 1 (S n)))
        by (apply (Permutation_in _ Hperm); eapply nth_error_In; eauto).
      apply in_seq in Hin.
      assert (S n <= x) by (apply (proj2 Hasc n x Hx)).
      assert (Hxn : x = S n) by lia.
      apply (ascending_exact_prefix l Hasc n x Hx) in Hxn.
      rewrite <- Hlen, firstn_all in Hxn. now rewrite Hlen in Hxn.
    + apply nth_error_None in Hx. lia.
Qed.

Lemma descriptors_ascending w url min_width min_height t images t' :
  scrape_images w url min_width min_height t = (Ok images, t') ->
  ascending_from_one (map d_index images).
Proof.
  intros H. destruct (scrape_images_descriptors _ _ _ _ _ _ _ H) as (Hs & Hpos & _).
  split; [exact (sorted_nth_lt _ Hs)|].
  intros k x Hk. rewrite nth_error_map in Hk.
  destruct (nth_error images k) as [d|] eqn:Hd; [|discriminate].
  inversion Hk; subst. exact (Hpos k d Hd).
Qed.

(** The index of a record at position [i] of a prefix of the extracted
    list, against the index stamped on its descriptor. *)
Lemma position_and_sequence_index w url min_width min_height t images t' n i d :
  scrape_images w url min_width min_height t = (Ok images, t') ->
  1 <= i ->
  nth_error (firstn n images) (i - 1) = Some d ->
  nth_error images (i - 1) = Some d /\
  i <= d_index d /\
  (i = d_index d <-> map d_index (firstn i images) = seq 1 i).
Proof.
  intros Hscrape Hi Hnth.
  pose proof (descriptors_ascending _ _ _ _ _ _ _ Hscrape) as Hasc.
  apply nth_error_firstn_some in Hnth.
  assert (Hm : nth_error (map d_index images) (i - 1) = Some (d_index d))
    by now apply map_nth_error.
  split; [exact Hnth|].
  pose proof (proj2 Hasc _ _ Hm) as Hle.
  split; [lia|].
  pose proof (ascending_exact_prefix _ Hasc _ _ Hm) as Hiff.
  replace (S (i - 1)) with i in Hiff by lia.
  rewrite <- firstn_map. split.
  - intros Heq. apply Hiff. now symmetry.
  - intros Heq. symmetry. now apply Hiff.
Qed.

(** ** C1: the index of a record *)

(** C1, as the claim states it, fails: on a page whose first image is an
    SVG icon the extractor stamps index 2 on the second image, and the
    record [process_url] produces for that image carries index 1. *)
Lemma C1_index_renumbered :
  exists images s t2 t3,
    scrape_images Sample.w_icon Sample.page_url 200 200 1 = (Ok images, t2) /\
    process_url Sample.w_icon 200 Sample.page_url None None 0 = (Ok s, t3) /\
    map d_index images = [2] /\
    map r_index (results s) = [1] /\
    ~ index_is_sequence_index images s.
Proof.
  do 4 eexists. split; [vm_compute; reflexivity|].
  split; [vm_compute; reflexivity|].
  split; [reflexivity|]. split; [reflexivity|].
  intros [Hres _].
  destruct (Hres _ (or_introl eq_refl)) as (d & [<- | []] & _ & Hidx).
  discriminate Hidx.
Qed.

(** C1 (amended): the index of every success and failure record is the
    1-based position of its descriptor in the capped descriptor list,
    which is its position in the extracted list, as counted by the loop
    of [process_url]; the record carries the URL of that descriptor.  The
    index never exceeds the index the extractor stamped on the
    descriptor, and the two are equal exactly when the extracted
    descriptors up to and including that one carry the indices 1, 2, ...
    without a gap.  Which other items failed does not enter: the index is
    fixed by the position alone. *)
Theorem C1_index_is_position w min_image_size url prompt max_images t s t3 :
  process_url w min_image_size url prompt max_images t = (Ok s, t3) ->
  exists images t2,
    scrape_images w url 200 200 (S t) = (Ok images, t2) /\
    (forall r, In r (results s) ->
       1 <= r_index r /\
       exists d, nth_error (limit max_images images) (r_index r - 1) = Some d /\
                 nth_error images (r_index r - 1) = Some d /\
                 r_image_url r = d_url d /\
                 r_index r <= d_index d /\
                 (r_index r = d_index d <->
                  map d_index (firstn (r_index r) images) = seq 1 (r_index r))) /\
    (forall e, In e (errors s) ->
       1 <= e_index e /\
       exists d, nth_error (limit max_images images) (e_index e - 1) = Some d /\
                 nth_error images (e_index e - 1) = Some d /\
                 e_url e = d_url d /\
                 e_index e <= d_index d /\
                 (e_index e = d_index d <->
                  map d_index (firstn (e_index e) images) = seq 1 (e_index e))).
Proof.
  intros Hrun.
  destruct (process_url_inv _ _ _ _ _ _ _ _ Hrun)
    as (title & images & t2 & rs & es & _ & Hscrape & _ & Hout & ->).
  destruct Hout as (_ & Hrs & Hes & _).
  destruct (limit_prefix max_images images) as [n Hn].
  rewrite Forall_forall in Hrs, Hes.
  exists images, t2. split; [exact Hscrape|]. simpl. split.
  - intros r Hin. destruct (Hrs r Hin) as (Hle & d & Hnth & Hrec).
    split; [exact Hle|]. exists d. split; [exact Hnth|].
    rewrite Hn in Hnth.
    destruct (position_and_sequence_index _ _ _ _ _ _ _ n (r_index r) d Hscrape Hle Hnth)
      as (Hpos & Hbound & Hiff).
    split; [exact Hpos|]. split; [apply Hrec|]. split; [exact Hbound|exact Hiff].
  - intros e Hin. destruct (Hes e Hin) as (Hle & d & Hnth & Hrec).
    split; [exact Hle|]. exists d. split; [exact Hnth|].
    rewrite Hn in Hnth.
    destruct (position_and_sequence_index _ _ _ _ _ _ _ n (e_index e) d Hscrape Hle Hnth)
      as (Hpos & Hbound & Hiff).
    split; [exact Hpos|]. split; [apply Hrec|]. split; [exact Hbound|exact Hiff].
Qed.

(** The run over the page with three failing images and one good one. *)
Lemma C1_index_is_position_witness :
  exists s t3,
    process_url Sample.w_failures 200 Sample.page_url None None 0 = (Ok s, t3) /\
    map r_index (results s) = [4] /\ map e_index (errors s) = [1; 2; 3] /\
    exists images t2,
      scrape_images Sample.w_failures Sample.page_url 200 200 1 = (Ok images, t2) /\
      (forall r, In r (results s) ->
         1 <= r_index r /\
         exists d, nth_error (limit None images) (r_index r - 1) = Some d /\
                   nth_error images (r_index r - 1) = Some d /\
                   r_image_url r = d_url d /\
                   r_index r <= d_index d /\
                   (r_index r = d_index d <->
                    map d_index (firstn (r_index r) images) = seq 1 (r_index r))) /\
      (forall e, In e (errors s) ->
         1 <= e_index e /\
         exists d, nth_error (limit None images) (e_index e - 1) = Some d /\
                   nth_error images (e_index e - 1) = Some d /\
                   e_url e = d_url d /\
                   e_index e <= d_index d /\
                   (e_index e = d_index d <->
                    map d_index (firstn (e_index e) images) = seq 1 (e_index e))).
Proof.
  do 2 eexists. split; [vm_compute; reflexivity|].
  split; [reflexivity|]. split; [reflexivity|].
  apply (C1_index_is_position Sample.w_failures 200 Sample.page_url None None 0)
    with (t3 := 7).
  vm_compute. reflexivity.
Defined.

(** ** C2: counts and partition *)

(** C2, as the claim states it, fails in its last part: on the page whose
    first image is an SVG icon the one capped descriptor carries sequence
    index 2 and its record carries index 1, so the records do not
    partition the capped descriptor set by sequence index. *)
Lemma C2_partition_is_not_by_sequence_index :
  exists images s t2 t3,
    scrape_images Sample.w_icon Sample.page_url 200 200 1 = (Ok images, t2) /\
    process_url Sample.w_icon 200 Sample.page_url None None 0 = (Ok s, t3) /\
    map d_index (limit None images) = [2] /\
    map r_index (results s) ++ map e_index (errors s) = [1] /\
    ~ partitions_by_sequence_index (limit None images) s.
Proof.
  do 4 eexists. split; [vm_compute; reflexivity|].
  split; [vm_compute; reflexivity|].
  split; [reflexivity|]. split; [reflexivity|].
  intros Hperm.
  apply Permutation_in with (x := 1) in Hperm; [|now left].
  destruct Hperm as [H|[]]. discriminate H.
Qed.

(** C2 (amended): in the summary of every run of [process_url] that
    completes, the number of successes plus the number of failures is
    [total_images_found], which is the length of the capped descriptor
    list; [results] and [errors] are each in strictly ascending order of
    index; the indices of the two lists together are exactly 1, ...,
    [total_images_found], each once; and the record with index [i] carries
    the URL of the [i]-th capped descriptor.  The indices are loop
    positions: they are the sequence indices of the capped descriptors,
    rearranged, exactly when those sequence indices are 1, ...,
    [total_images_found] themselves. *)
Theorem C2_summary_partitions_capped_descriptors
    w min_image_size url prompt max_images t s t3 :
  process_url w min_image_size url prompt max_images t = (Ok s, t3) ->
  exists images t2,
    scrape_images w url 200 200 (S t) = (Ok images, t2) /\
    images_processed s + images_failed s = total_images_found s /\
    images_processed s = length (results s) /\
    images_failed s = length (errors s) /\
    total_images_found s = length (limit max_images images) /\
    StronglySorted lt (map r_index (results s)) /\
    StronglySorted lt (map e_index (errors s)) /\
    Permutation (map r_index (results s) ++ map e_index (errors s))
                (seq 1 (length (limit max_images images))) /\
    (forall r, In r (results s) ->
       exists d, nth_error (limit max_images images) (r_index r - 1) = Some d /\
                 r_image_url r = d_url d) /\
    (forall e, In e (errors s) ->
       exists d, nth_error (limit max_images images) (e_index e - 1) = Some d /\
                 e_url e = d_url d) /\
    (partitions_by_sequence_index (limit max_images images) s <->
     map d_index (limit max_images images) = seq 1 (total_images_found s)).
Proof.
  intros Hrun.
  destruct (process_url_inv _ _ _ _ _ _ _ _ Hrun)
    as (title & images & t2 & rs & es & _ & Hscrape & _ & Hout & ->).
  destruct Hout as (Hlen & Hrs & Hes & Hsr & Hse & Hperm).
  rewrite Forall_forall in Hrs, Hes.
  exists images, t2; simpl.
  split; [exact Hscrape|]. split; [exact Hlen|].
  do 3 (split; [reflexivity|]).
  split; [exact Hsr|]. split; [exact Hse|]. split; [exact Hperm|].
  split; [|split].
  - intros r Hin. destruct (Hrs r Hin) as (_ & d & Hnth & Hrec).
    exists d. split; [exact Hnth|apply Hrec].
  - intros e Hin. destruct (Hes e Hin) as (_ & d & Hnth & Hrec).
    exists d. split; [exact Hnth|apply Hrec].
  - unfold partitions_by_sequence_index; simpl.
    destruct (limit_prefix max_images images) as [n Hn].
    assert (Hasc : ascending_from_one (map d_index (limit max_images images))).
    { rewrite Hn, <- firstn_map. apply ascending_firstn.
      exact (descriptors_ascending _ _ _ _ _ _ _ Hscrape). }
    split.
    + intros Hseq.
      assert (Hp : Permutation (map d_index (limit max_images images))
                     (seq 1 (length (map d_index (limit max_images images))))).
      { rewrite length_map. eapply Permutation_trans; [|exact Hperm].
        now apply Permutation_sym. }
      apply (ascending_permutation_seq _ Hasc) in Hp.
      now rewrite length_map in Hp.
    + intros ->. exact Hperm.
Qed.

(** The same run: one success with index 4, failures with indices 1, 2
    and 3. *)
Lemma C2_summary_partitions_witness :
  exists s t3,
    process_url Sample.w_failures 200 Sample.page_url None None 0 = (Ok s, t3) /\
    exists images t2,
      scrape_images Sample.w_failures Sample.page_url 200 200 1 = (Ok images, t2) /\
      images_processed s + images_failed s = total_images_found s /\
      images_processed s = length (results s) /\
      images_failed s = length (errors s) /\
      total_images_found s = length (limit None images) /\
      StronglySorted lt (map r_index (results s)) /\
      StronglySorted lt (map e_index (errors s)) /\
      Permutation (map r_index (results s) ++ map e_index (errors s))
                  (seq 1 (length (limit None images))) /\
      (forall r, In r (results s) ->
         exists d, nth_error (limit None images) (r_index r - 1) = Some d /\
                   r_image_url r = d_url d) /\
      (forall e, In e (errors s) ->
         exists d, nth_error (limit None images) (e_index e - 1) = Some d /\
                   e_url e = d_url d) /\
      (partitions_by_sequence_index (limit None images) s <->
       map d_index (limit None images) = seq 1 (total_images_found s)).
Proof.
  do 2 eexists. split; [vm_compute; reflexivity|].
  apply (C2_summary_partitions_capped_descriptors
           Sample.w_failures 200 Sample.page_url None None 0) with (t3 := 7).
  vm_compute. reflexivity.
Defined.

(** ** C6: the cap *)

(** C6: when [max_images] is a positive integer [m], [process_url] runs
    its loop over the first [m] descriptors of the extracted list, which
    are the [m] lowest sequence indices since extraction emits descriptors
    in ascending index order, and [total_images_found] is the length of
    that prefix, the smaller of [m] and the number of descriptors; five
    descriptors capped at three give [total_images_found = 3]. *)
Theorem C6_cap_truncates_before_processing
    w min_image_size url prompt (m : Z) t s t3 :
  (0 < m)%Z ->
  process_url w min_image_size url prompt (Some m) t = (Ok s, t3) ->
  exists images t2,
    scrape_images w url 200 200 (S t) = (Ok images, t2) /\
    StronglySorted lt (map d_index images) /\
    limit (Some m) images = firstn (Z.to_nat m) images /\
    process_url_loop w min_image_size prompt 1 (firstn (Z.to_nat m) images) [] [] t2
    = (Ok (results s, errors s), t3) /\
    total_images_found s = length (firstn (Z.to_nat m) images) /\
    total_images_found s = Nat.min (Z.to_nat m) (length images) /\
    (length images = 5 -> m = 3%Z -> total_images_found s = 3).
Proof.
  intros Hm Hrun.
  destruct (process_url_inv _ _ _ _ _ _ _ _ Hrun)
    as (title & images & t2 & rs & es & _ & Hscrape & Hloop & _ & ->).
  destruct (scrape_images_descriptors _ _ _ _ _ _ _ Hscrape) as (Hsorted & _ & _).
  rewrite (limit_positive m images Hm) in *.
  exists images, t2; unfold summary_of; cbn [total_images_found results errors].
  split; [exact Hscrape|]. split; [exact Hsorted|].
  split; [exact (limit_positive m images Hm)|].
  split; [exact Hloop|]. split; [reflexivity|].
  rewrite length_firstn. split; [reflexivity|].
  intros H5 ->. rewrite H5. reflexivity.
Qed.

(** Scenario E: five descriptors, [max_images = 3]. *)
Lemma C6_cap_truncates_witness :
  exists s t3,
    process_url Sample.w_five 200 Sample.page_url None (Some 3%Z) 0 = (Ok s, t3) /\
    total_images_found s = 3 /\
    exists images t2,
      scrape_images Sample.w_five Sample.page_url 200 200 1 = (Ok images, t2) /\
      length images = 5 /\
      StronglySorted lt (map d_index images) /\
      limit (Some 3%Z) images = firstn 3 images /\
      process_url_loop Sample.w_five 200 None 1 (firstn 3 images) [] [] t2
      = (Ok (results s, errors s), t3) /\
      total_images_found s = length (firstn 3 images).
Proof.
  do 2 eexists. split; [vm_compute; reflexivity|].
  destruct (C6_cap_truncates_before_processing
              Sample.w_five 200 Sample.page_url None 3%Z 0 _ 7
              ltac:(lia) ltac:(vm_compute; reflexivity))
    as (images & t2 & Hscrape & Hsorted & Hlimit & Hloop & Htotal & _ & H53).
  assert (Himages : length images = 5).
  { vm_compute in Hscrape. inversion Hscrape. reflexivity. }
  split; [exact (H53 Himages eq_refl)|].
  exists images, t2. repeat (split; [assumption|]). exact Htotal.
Defined.

(** ** C3: what the image fetcher tells its caller *)

(** C3, as the claim states it, fails: a 404, an image of 10 x 10 pixels
    and an undecodable payload fall into three different failure classes,
    yet [download_image] returns the same value, [None], for all three, so
    nothing read off its result can name the class; [process_url] records
    the same reason for each. *)
Lemma C3_failure_classes_collapse :
  map (fun u => failure_class (fst (download_image_body Sample.w_failures u 200 0)))
      ["https://example.com/missing.png"; "https://example.com/tiny.png";
       "https://example.com/corrupt.png"]
  = [Some "download failed"; Some "too small"; Some "decode error"] /\
  map (fun u => fst (download_image Sample.w_failures u 200 0))
      ["https://example.com/missing.png"; "https://example.com/tiny.png";
       "https://example.com/corrupt.png"]
  = [Ok None; Ok None; Ok None] /\
  (exists s t3,
     process_url Sample.w_failures 200 Sample.page_url None None 0 = (Ok s, t3) /\
     map e_error (errors s)
     = ["Download failed or image too small"; "Download failed or image too small";
        "Download failed or image too small"]) /\
  ~ reason_distinguishes_class Sample.w_failures
      ["https://example.com/missing.png"; "https://example.com/tiny.png"] 200 0.
Proof.
  split; [vm_compute; reflexivity|]. split; [vm_compute; reflexivity|].
  split; [do 2 eexists; split; vm_compute; reflexivity|].
  intros [reason_of H].
  pose proof (H "https://example.com/missing.png" (or_introl eq_refl)) as H1.
  pose proof (H "https://example.com/tiny.png" (or_intror (or_introl eq_refl))) as H2.
  vm_compute in H1, H2. rewrite H1 in H2. discriminate H2.
Qed.

(** What [download_image] returns, read off the world. *)
Lemma download_image_outcome w url min_size t :
  download_image w url min_size t =
    (Ok match requests_get w t url with
        | Raise _ => None
        | Ok response =>
            if ((400 <=? status_code response) && (status_code response <? 600))%Z
            then None
            else
              match Image_open w (content response) with
              | Raise _ => None
              | Ok decoded =>
                  if (fst (size decoded) * snd (size decoded) <? min_size)%Z then None
                  else if String.eqb (mode decoded) "RGB" then Some decoded
                  else match Image_convert w decoded "RGB" with
                       | Ok converted => Some converted
                       | Raise _ => None
                       end
              end
        end, S t).
Proof.
  unfold download_image, download_image_body, raise_for_status; unfold_M.
  destruct (requests_get w t url) as [response|e]; [|now destruct e].
  destruct ((400 <=? status_code response) && (status_code response <? 600))%Z;
    [reflexivity|].
  destruct (Image_open w (content response)) as [decoded|e]; [|now destruct e].
  destruct (size decoded) as [width height]; simpl.
  destruct (width * height <? min_size)%Z; [reflexivity|].
  destruct (mode decoded =? "RGB")%string; simpl; [reflexivity|].
  destruct (Image_convert w decoded "RGB") as [converted|e]; [reflexivity|now destruct e].
Qed.

(** C3 (amended): [download_image] makes one request and returns either
    an image or [None]; it never raises.  It returns [None] when the
    request raises, when the status of the response is 4xx or 5xx, when
    the payload cannot be decoded, when width times height of the decoded
    image is below [min_size], and when the conversion to RGB raises.  It
    returns an image exactly when the request is answered with a status
    outside 400..599 whose payload decodes to an image of area at least
    [min_size] that is in RGB mode or converts to RGB; what is returned is
    the decoded image or its conversion.  For a [None], whatever its
    cause, [process_url] appends one failure record with the single reason
    "Download failed or image too small" and is done with the item after
    that one request. *)
Theorem C3_fetch_returns_image_or_none w url min_size t :
  exists r,
    download_image w url min_size t = (Ok r, S t) /\
    (forall e, requests_get w t url = Raise e -> r = None) /\
    (forall response,
       requests_get w t url = Ok response ->
       (400 <= status_code response < 600)%Z -> r = None) /\
    (forall response e,
       requests_get w t url = Ok response ->
       Image_open w (content response) = Raise e -> r = None) /\
    (forall response decoded,
       requests_get w t url = Ok response ->
       Image_open w (content response) = Ok decoded ->
       (fst (size decoded) * snd (size decoded) < min_size)%Z -> r = None) /\
    (forall response decoded e,
       requests_get w t url = Ok response ->
       Image_open w (content response) = Ok decoded ->
       mode decoded <> "RGB" ->
       Image_convert w decoded "RGB" = Raise e -> r = None) /\
    (forall image,
       r = Some image <->
       exists response decoded,
         requests_get w t url = Ok response /\
         ~ (400 <= status_code response < 600)%Z /\
         Image_open w (content response) = Ok decoded /\
         (min_size <= fst (size decoded) * snd (size decoded))%Z /\
         (if String.eqb (mode decoded) "RGB" then image = decoded
          else Image_convert w decoded "RGB" = Ok image)) /\
    (forall prompt idx d results errors,
       d_url d = url -> r = None ->
       process_url_item w min_size prompt idx d results errors t
       = (Ok (results,
              errors ++ [ {| e_index := idx; e_url := url;
                             e_error := "Download failed or image too small" |} ]),
          S t)).
Proof.
  eexists. split; [apply download_image_outcome|].
  assert (Hstatus : forall response,
            ((400 <=? status_code response) && (status_code response <? 600))%Z = true
            <-> (400 <= status_code response < 600)%Z).
  { intros response. rewrite andb_true_iff, Z.leb_le, Z.ltb_lt. reflexivity. }
  split; [|split; [|split; [|split; [|split; [|split]]]]].
  - intros e ->. reflexivity.
  - intros response -> Hst. apply Hstatus in Hst. now rewrite Hst.
  - intros response e -> Hopen. rewrite Hopen.
    now destruct ((400 <=? status_code response) && (status_code response <? 600))%Z.
  - intros response decoded -> Hopen Hlt. rewrite Hopen.
    apply Z.ltb_lt in Hlt. rewrite Hlt.
    now destruct ((400 <=? status_code response) && (status_code response <? 600))%Z.
  - intros response decoded e -> Hopen Hmode Hconv. rewrite Hopen, Hconv.
    apply String.eqb_neq in Hmode. rewrite Hmode.
    destruct ((400 <=? status_code response) && (status_code response <? 600))%Z;
      [reflexivity|].
    now destruct (fst (size decoded) * snd (size decoded) <? min_size)%Z.
  - intros image. split.
    + destruct (requests_get w t url) as [response|e] eqn:Hget; [|discriminate].
      destruct ((400 <=? status_code response) && (status_code response <? 600))%Z
        eqn:Hst; [discriminate|].
      destruct (Image_open w (content response)) as [decoded|e] eqn:Hopen;
        [|discriminate].
      destruct (fst (size decoded) * snd (size decoded) <? min_size)%Z eqn:Harea;
        [discriminate|].
      intros H. exists response, decoded. split; [reflexivity|].
      split; [intros Hin; apply Hstatus in Hin; congruence|].
      split; [exact Hopen|]. split; [apply Z.ltb_ge in Harea; lia|].
      destruct (mode decoded =? "RGB")%string; [now inversion H|].
      destruct (Image_convert w decoded "RGB") as [converted|e];
        [now inversion H|discriminate].
    + intros (response & decoded & -> & Hst & -> & Harea & Hmode).
      destruct ((400 <=? status_code response) && (status_code response <? 600))%Z
        eqn:Hb; [apply Hstatus in Hb; contradiction|].
      apply Z.ltb_ge in Harea. rewrite Harea.
      destruct (mode decoded =? "RGB")%string; [now subst|now rewrite Hmode].
  - intros prompt idx d results errors Hurl Hnone.
    unfold process_url_item, try_except, bind.
    rewrite Hurl, download_image_outcome, Hnone. reflexivity.
Qed.

(** An instance: the 10 x 10 image is turned away at [min_size = 200]. *)
Example download_tiny_image :
  download_image Sample.w_failures "https://example.com/tiny.png" 200 0 = (Ok None, 1) /\
  download_image Sample.w_failures "https://example.com/tiny.png" 100 0
  = (Ok (Some {| size := (10, 10)%Z; mode := "RGB" |}), 1).
Proof. split; vm_compute; reflexivity. Qed.

(** A decoded image that is not in RGB mode is converted. *)
Example download_converts_to_rgb :
  download_image Sample.w_failures "https://example.com/icon.gif" 200 0
  = (Ok (Some {| size := (50, 50)%Z; mode := "RGB" |}), 1).
Proof. vm_compute; reflexivity. Qed.

(* ===================================================================== *)
(** ** Whole-page and article extraction side by side *)
(* ===================================================================== *)

Lemma find_content_none soup content_selectors :
  Forall (fun selector => bs4.select_one soup selector = None) content_selectors ->
  find_content soup content_selectors = None.
Proof.
  induction 1 as [|selector rest Hsel _ IH]; simpl; [reflexivity|].
  now rewrite Hsel.
Qed.

(** Over the same elements the two extraction loops emit descriptors of
    the same images, or raise the same exception. *)
Lemma scrape_loops_agree w url els :
  forall idx acc acc',
    Forall2 same_descriptor acc acc' ->
    result_rel (Forall2 same_descriptor)
      (scrape_images_loop w url idx els acc)
      (scrape_article_loop w url idx els acc').
Proof.
  induction els as [|img rest IH]; intros idx acc acc' Hacc; simpl.
  - exact Hacc.
  - destruct (_extract_image_url w (element img) url) as [img_url|e]; [|reflexivity].
    destruct (negb (truthy_opt img_url)); simpl; [now apply IH|].
    destruct (_is_svg _); simpl; [now apply IH|].
    destruct (Str.startswith _ "data:"); simpl; [now apply IH|].
    apply IH. apply Forall2_app; [exact Hacc|].
    constructor; [|constructor]. now unfold same_descriptor.
Qed.

(** With no content region in the page, article extraction reads the
    whole document. *)
Lemma scrape_article_images_fallback w url content_selectors t soup :
  page_at w url t = Some soup ->
  Forall (fun selector => bs4.select_one soup selector = None) content_selectors ->
  scrape_article_images w url (Some content_selectors) t
  = (scrape_article_loop w url 1 (bs4.find_all soup "img") [], S t) /\
  scrape_images w url 200 200 t
  = (scrape_images_loop w url 1 (bs4.find_all soup "img") [], S t).
Proof.
  unfold page_at, scrape_article_images, scrape_images; unfold_M.
  destruct (requests_get w t url) as [response|e]; [|discriminate].
  destruct (raise_for_status response) as [[]|e]; [|discriminate].
  destruct (html_parser w (text response)) as [soup'|e]; [|discriminate].
  intros H Hnone; inversion H; subst soup'.
  rewrite (find_content_none _ _ Hnone).
  split.
  - now destruct (scrape_article_loop w url 1 (bs4.find_all soup "img") []).
  - destruct (scrape_images_loop w url 1 (bs4.find_all soup "img") []) as [l|e];
      [reflexivity|now destruct e].
Qed.

(** When the page is not served or does not parse, both extractions raise
    the same exception. *)
Lemma scrape_no_page w url content_selectors t :
  page_at w url t = None ->
  exists e,
    scrape_images w url 200 200 t = (Raise e, S t) /\
    scrape_article_images w url content_selectors t = (Raise e, S t).
Proof.
  unfold page_at, scrape_article_images, scrape_images; unfold_M.
  destruct (requests_get w t url) as [response|e]; [|exists e; now destruct e].
  destruct (raise_for_status response) as [[]|e]; [|exists e; now destruct e].
  destruct (html_parser w (text response)) as [soup'|e]; [discriminate|].
  exists e; now destruct e.
Qed.

Lemma scrape_modes_agree w url t :
  no_content_region w url t default_content_selectors ->
  result_rel (Forall2 same_descriptor)
    (fst (scrape_images w url 200 200 t))
    (fst (scrape_article_images w url None t)) /\
  snd (scrape_images w url 200 200 t) = S t /\
  snd (scrape_article_images w url None t) = S t.
Proof.
  intros Hnone. destruct (page_at w url t) as [soup|] eqn:Hpage.
  - destruct (scrape_article_images_fallback w url default_content_selectors t soup
                Hpage (Hnone soup Hpage)) as [Ha Hp].
    change (scrape_article_images w url None t)
      with (scrape_article_images w url (Some default_content_selectors) t).
    rewrite Ha, Hp; simpl. split; [|split; reflexivity].
    apply scrape_loops_agree. constructor.
  - destruct (scrape_no_page w url None t Hpage) as (e & Hp & Ha).
    rewrite Hp, Ha; simpl. auto.
Qed.

(* ===================================================================== *)
(** ** The two per-item loops side by side *)
(* ===================================================================== *)

Lemma process_items_agree w prompt idx d a results results' errors errors' t :
  d_url d = a_url a -> d_alt d = a_alt a ->
  exists t',
    (exists r r', record_agrees r r' /\
       process_url_item w default_min_size prompt idx d results errors t
       = (Ok (results ++ [r], errors), t') /\
       process_article_item w prompt idx a results' errors' t
       = (Ok (results' ++ [r'], errors'), t')) \/
    (exists e e', failure_agrees e e' /\
       process_url_item w default_min_size prompt idx d results errors t
       = (Ok (results, errors ++ [e]), t') /\
       process_article_item w prompt idx a results' errors' t
       = (Ok (results', errors' ++ [e']), t')).
Proof.
  intros Hurl Halt.
  unfold process_url_item, process_article_item, try_except, bind.
  rewrite <- Hurl, !download_image_returns.
  destruct (match fst (download_image_body w (d_url d) default_min_size t) with
            | Ok r => r | Raise _ => None end) as [image|].
  - unfold generate_caption, try_except, raise, ret.
    destruct (generate w (S t) image _) as [caption|e].
    + eexists; left; do 2 eexists; split; [|split; reflexivity].
      unfold record_agrees; simpl. now rewrite Halt.
    + eexists; right; do 2 eexists; split; [|split; reflexivity].
      unfold failure_agrees; simpl. auto.
  - eexists; right; do 2 eexists; split; [|split; reflexivity].
    unfold failure_agrees; simpl. auto.
Qed.

Lemma process_loops_agree w prompt images images' :
  Forall2 same_descriptor images images' ->
  forall idx results results' errors errors' t,
    Forall2 record_agrees results results' ->
    Forall2 failure_agrees errors errors' ->
    exists rs rs' es es' t',
      process_url_loop w default_min_size prompt idx images results errors t
      = (Ok (rs, es), t') /\
      process_article_loop w prompt idx images' results' errors' t
      = (Ok (rs', es'), t') /\
      Forall2 record_agrees rs rs' /\
      Forall2 failure_agrees es es'.
Proof.
  induction 1 as [|d a rest rest' Hda _ IH];
    intros idx results results' errors errors' t Hres Herr; simpl.
  - exists results, results', errors, errors', t. auto.
  - destruct Hda as (Hurl & Halt & _).
    destruct (process_items_agree w prompt idx d a results results' errors errors' t
                Hurl Halt)
      as (t1 & [(r & r' & Hrr & Hu & Ha) | (e & e' & Hee & Hu & Ha)]);
      rewrite (bind_ok _ _ _ _ _ Hu), (bind_ok _ _ _ _ _ Ha); simpl; apply IH;
      auto using Forall2_app.
Qed.

(** The article loop never raises. *)
Lemma process_article_item_total w prompt idx a results errors t :
  exists rs es t',
    process_article_item w prompt idx a results errors t = (Ok (rs, es), t').
Proof.
  unfold process_article_item, try_except, bind.
  rewrite download_image_returns.
  destruct (match fst (download_image_body w (a_url a) default_min_size t) with
            | Ok r => r | Raise _ => None end) as [image|]; [|do 3 eexists; reflexivity].
  unfold generate_caption, try_except, raise, ret.
  destruct (generate w (S t) image _) as [caption|e]; do 3 eexists; reflexivity.
Qed.

Lemma process_article_loop_total w prompt images :
  forall idx results errors t,
  exists rs es t',
    process_article_loop w prompt idx images results errors t = (Ok (rs, es), t').
Proof.
  induction images as [|a rest IH]; intros idx results errors t; simpl.
  - do 3 eexists; reflexivity.
  - destruct (process_article_item_total w prompt idx a results errors t)
      as (rs & es & t1 & Hitem).
    rewrite (bind_ok _ _ _ _ _ Hitem). apply IH.
Qed.

(** Once article extraction has returned, the article run completes. *)
Lemma process_article_ok w url prompt t images t2 :
  scrape_article_images w url None (S t) = (Ok images, t2) ->
  exists title rs es t3,
    get_page_title w url t = (Ok title, S t) /\
    process_article w url prompt t
    = (Ok {| s_url := url; s_title := title;
             total_images_found := length images;
             images_processed := length rs;
             images_failed := length es;
             results := rs; errors := es |}, t3).
Proof.
  intros Hscrape.
  destruct (get_page_title_total w url t) as [title Htitle].
  destruct (process_article_loop_total w prompt images 1 [] [] t2)
    as (rs & es & t3 & Hloop).
  exists title, rs, es, t3. split; [exact Htitle|].
  unfold process_article.
  rewrite (bind_ok _ _ _ _ _ Htitle), (bind_ok _ _ _ _ _ Hscrape),
          (bind_ok _ _ _ _ _ Hloop).
  reflexivity.
Qed.

(** ** C5: the two modes *)

(** C5, as the claim states it, fails: on a page without article markup,
    where both modes extract the same two images, the failure record for
    the image that cannot be fetched reads "Download failed or image too
    small" in whole-page mode and "Download failed" in article mode, so
    the summaries differ in more than the extra field. *)
Lemma C5_modes_differ_beyond_extra_field :
  exists s s' t3 t3',
    process_url Sample.w_plain default_min_size Sample.page_url None None 0 = (Ok s, t3) /\
    process_article Sample.w_plain Sample.page_url None 0 = (Ok s', t3') /\
    no_content_region Sample.w_plain Sample.page_url 1 default_content_selectors /\
    map e_error (errors s) = ["Download failed or image too small"] /\
    map e_error (errors s') = ["Download failed"] /\
    ~ same_modulo_extra_field s s'.
Proof.
  do 4 eexists. split; [vm_compute; reflexivity|]. split; [vm_compute; reflexivity|].
  split.
  { intros soup H. vm_compute in H. inversion H; subst.
    repeat constructor. }
  split; [reflexivity|]. split; [reflexivity|].
  intros (_ & _ & _ & _ & _ & _ & H). discriminate H.
Qed.

(** The cap exists in whole-page mode only, and each mode applies its own
    minimum area: here whole-page mode, run with [min_image_size = 50] and
    [max_images = 1], reports one image found and fetched, where article
    mode reports two found and none fetched. *)
Example modes_differ_in_cap_and_min_area :
  let soup := Sample.document [ Sample.img [("src", "/tiny.png")];
                                Sample.img [("src", "/tiny.png")] ] in
  let w := Sample.world soup (fun _ => Sample.server) in
  (exists s t3,
     process_url w 50 Sample.page_url None (Some 1%Z) 0 = (Ok s, t3) /\
     total_images_found s = 1 /\ images_processed s = 1) /\
  (exists s' t3',
     process_article w Sample.page_url None 0 = (Ok s', t3') /\
     total_images_found s' = 2 /\ images_processed s' = 0).
Proof.
  split; do 2 eexists; (split; [vm_compute; reflexivity|]); split; reflexivity.
Qed.

(** C5 (amended): both modes run the title fetch, the extraction, the
    per-item loop and the aggregation in the same way, and when no cap is
    set, the pipeline's [min_image_size] is the downloader's default of
    200 and the page has no content region, they either raise the same
    exception or return summaries with the same URL, title, counts, the
    same indices, image URLs, captions, alt texts and dimensions in the
    success records, and failure records with the same index and URL.
    Beyond the extraction scope they differ in these points: article mode
    has no cap; article mode fetches with the downloader's default minimum
    area instead of [min_image_size]; a fetch that returns nothing is
    recorded as "Download failed" instead of "Download failed or image too
    small"; and the success record carries [original_caption] in place of
    [title]. *)
Theorem C5_modes_agree_up_to_reason_and_extra_field w url prompt t :
  no_content_region w url (S t) default_content_selectors ->
  result_rel modes_agree
    (fst (process_url w default_min_size url prompt None t))
    (fst (process_article w url prompt t)) /\
  snd (process_url w default_min_size url prompt None t)
  = snd (process_article w url prompt t).
Proof.
  intros Hnone.
  destruct (scrape_modes_agree w url (S t) Hnone) as (Hrel & Hc & Hc').
  destruct (get_page_title_total w url t) as [title Htitle].
  unfold process_url, process_article.
  rewrite !(bind_ok _ _ _ _ _ Htitle).
  destruct (scrape_images w url 200 200 (S t)) as [[images|e] t2] eqn:Hp;
    destruct (scrape_article_images w url None (S t)) as [[images'|e'] t2'] eqn:Ha;
    simpl in Hrel, Hc, Hc'; try contradiction; subst t2 t2'.
  - rewrite (bind_ok _ _ _ _ _ Hp), (bind_ok _ _ _ _ _ Ha). simpl limit.
    destruct (process_loops_agree w prompt images images' Hrel 1 [] [] [] [] (S (S t))
                (Forall2_nil _) (Forall2_nil _))
      as (rs & rs' & es & es' & t3 & Hu & Hl & Hrs & Hes).
    rewrite (bind_ok _ _ _ _ _ Hu), (bind_ok _ _ _ _ _ Hl). simpl.
    split; [|reflexivity].
    unfold modes_agree; simpl.
    rewrite (Forall2_length Hrel), (Forall2_length Hrs), (Forall2_length Hes).
    repeat split; auto.
  - rewrite (bind_raise _ _ _ _ _ Hp), (bind_raise _ _ _ _ _ Ha). simpl. auto.
Qed.

(** The page without article markup, run in both modes. *)
Lemma C5_modes_agree_witness :
  exists s s' t3,
    process_url Sample.w_plain default_min_size Sample.page_url None None 0 = (Ok s, t3) /\
    process_article Sample.w_plain Sample.page_url None 0 = (Ok s', t3) /\
    modes_agree s s'.
Proof.
  assert (Hnone : no_content_region Sample.w_plain Sample.page_url 1
                    default_content_selectors).
  { intros soup H. vm_compute in H. inversion H; subst. repeat constructor. }
  destruct (C5_modes_agree_up_to_reason_and_extra_field
              Sample.w_plain Sample.page_url None 0 Hnone) as [Hrel Hclock].
  destruct (process_url Sample.w_plain default_min_size Sample.page_url None None 0)
    as [[s|e] t3] eqn:Hu; [|vm_compute in Hu; discriminate Hu].
  destruct (process_article Sample.w_plain Sample.page_url None 0)
    as [[s'|e'] t3'] eqn:Ha; [|vm_compute in Ha; discriminate Ha].
  simpl in Hrel, Hclock. subst t3'.
  exists s, s', t3. auto.
Defined.

(** ** C9: degraded conditions *)

(** C9: a failed title fetch is not fatal: [get_page_title] returns the
    empty string instead of raising, and both [process_url] and
    [process_article] go on to complete, with the empty title, whenever
    extraction returns.  And article extraction does not fail for want of
    a content region: when none of the selectors selects anything it takes
    its images from the whole document, exactly as whole-page extraction
    does. *)
Theorem C9_degraded_conditions_are_not_fatal
    w min_image_size url prompt max_images content_selectors t :
  (title_fetch_fails w url t ->
     get_page_title w url t = (Ok "", S t) /\
     (forall images t2,
        scrape_images w url 200 200 (S t) = (Ok images, t2) ->
        exists s t3,
          process_url w min_image_size url prompt max_images t = (Ok s, t3) /\
          s_title s = "" /\ total_images_found s = length (limit max_images images)) /\
     (forall images t2,
        scrape_article_images w url None (S t) = (Ok images, t2) ->
        exists s t3,
          process_article w url prompt t = (Ok s, t3) /\
          s_title s = "" /\ total_images_found s = length images)) /\
  (forall soup,
     page_at w url t = Some soup ->
     Forall (fun selector => bs4.select_one soup selector = None) content_selectors ->
     find_content soup content_selectors = None /\
     scrape_article_images w url (Some content_selectors) t
     = (scrape_article_loop w url 1 (bs4.find_all soup "img") [], S t) /\
     result_rel (Forall2 same_descriptor)
       (fst (scrape_images w url 200 200 t))
       (fst (scrape_article_images w url (Some content_selectors) t))).
Proof.
  split.
  - intros Hfail. pose proof (get_page_title_failure w url t Hfail) as Htitle.
    split; [exact Htitle|]. split.
    + intros images t2 Hscrape.
      destruct (process_url_ok w min_image_size url prompt max_images t images t2 Hscrape)
        as (title & rs & es & t3 & Htitle' & _ & _ & Hrun).
      rewrite Htitle in Htitle'. inversion Htitle'; subst title.
      eexists _, t3. split; [exact Hrun|]. split; reflexivity.
    + intros images t2 Hscrape.
      destruct (process_article_ok w url prompt t images t2 Hscrape)
        as (title & rs & es & t3 & Htitle' & Hrun).
      rewrite Htitle in Htitle'. inversion Htitle'; subst title.
      eexists _, t3. split; [exact Hrun|]. split; reflexivity.
  - intros soup Hpage Hnone.
    split; [now apply find_content_none|].
    destruct (scrape_article_images_fallback w url content_selectors t soup Hpage Hnone)
      as [Ha Hp].
    split; [exact Ha|]. rewrite Ha, Hp; simpl.
    apply scrape_loops_agree. constructor.
Qed.

(** A title request that times out before a run that completes, and a
    page with no content region. *)
Lemma C9_degraded_conditions_witness :
  (get_page_title Sample.w_flaky Sample.page_url 0 = (Ok "", 1) /\
   exists s t3,
     process_url Sample.w_flaky 200 Sample.page_url None None 0 = (Ok s, t3) /\
     s_title s = "" /\ total_images_found s = 1) /\
  (find_content Sample.page_plain default_content_selectors = None /\
   exists images,
     scrape_article_images Sample.w_plain Sample.page_url
       (Some default_content_selectors) 0 = (Ok images, 1) /\
     map a_url images
     = ["https://example.com/missing.png"; "https://example.com/good.png"]).
Proof.
  destruct (C9_degraded_conditions_are_not_fatal
              Sample.w_flaky 200 Sample.page_url None None default_content_selectors 0)
    as [Htitle _].
  destruct (Htitle I) as (Hempty & Hurl & _).
  destruct (C9_degraded_conditions_are_not_fatal
              Sample.w_plain 200 Sample.page_url None None default_content_selectors 0)
    as [_ Hfallback].
  destruct (Hfallback Sample.page_plain eq_refl
              ltac:(repeat constructor)) as (Hfind & Harticle & _).
  split.
  - split; [exact Hempty|].
    destruct (Hurl _ 2 ltac:(vm_compute; reflexivity)) as (s & t3 & Hrun & Ht & Hn).
    exists s, t3. auto.
  - split; [exact Hfind|].
    eexists. split; [rewrite Harticle; vm_compute; reflexivity|]. reflexivity.
Defined.

(** ** C10: the dimension parameters of [scrape_images] *)

(** C10: the list [scrape_images] returns, and the exception it raises
    when it raises, are the same for any two values of [min_width] and
    [min_height]: the parameters are never read, and no image is dropped
    for its dimensions at extraction time. *)
Theorem C10_min_dimensions_are_ignored
    w url (min_width min_height min_width' min_height' : Z) t :
  scrape_images w url min_width min_height t
  = scrape_images w url min_width' min_height' t.
Proof. reflexivity. Qed.

(** An element that declares a width and height of one pixel is emitted
    all the same, whatever the thresholds. *)
Example one_pixel_image_is_emitted :
  let soup := Sample.document
                [ Sample.img [("src", "/dot.png"); ("width", "1"); ("height", "1")] ] in
  let w := Sample.world soup (fun _ => Sample.server) in
  fst (scrape_images w Sample.page_url 200 200 0)
  = Ok [ {| d_url := "https://example.com/dot.png"; d_alt := ""; d_title := "";
            d_width := "1"; d_height := "1"; d_index := 1 |} ].
Proof. vm_compute; reflexivity. Qed.

(** ** C7: the batch of local files *)

(** C7 fails on the code: for every list of paths, [process_image_batch]
    raises [UnboundLocalError] before the first path is looked at, because
    the loop of [caption_batch] iterates over its own loop variable
    [image_path] instead of the parameter [image_paths].  No list of
    records is returned. *)
Theorem C7_batch_raises_before_first_path w image_paths prompt t :
  process_image_batch w image_paths prompt t
  = (Raise (UnboundLocalError
       "cannot access local variable 'image_path' where it is not associated with a value"),
     t) /\
  forall default_prompt,
    caption_batch w default_prompt image_paths prompt t
    = process_image_batch w image_paths prompt t.
Proof. split; reflexivity. Qed.

(** What the loop body does when it is run over the paths: one record per
    path, in order, a failure being recorded in its place.  This is the
    behaviour the claim describes; [caption_batch] never reaches it. *)
Lemma caption_batch_loop_one_record_per_path w default_prompt prompt image_paths :
  forall results t,
  exists rs t',
    caption_batch_loop w default_prompt image_paths prompt results t
    = (Ok (results ++ rs), t') /\
    Forall2 (fun image_path r =>
               match r with
               | Captioned p _ _ => p = image_path
               | Failed p _ => p = image_path
               end) image_paths rs.
Proof.
  induction image_paths as [|image_path rest IH]; intros results t; simpl.
  - exists [], t. rewrite app_nil_r. split; [reflexivity|constructor].
  - unfold bind at 1.
    assert (Hitem : exists r t1,
              try_except
                (result <- caption_single w default_prompt image_path prompt ;;
                 ret (results ++ [result]))
                (fun e => ret (results ++ [Failed image_path (str_exn e)])) t
              = (Ok (results ++ [r]), t1) /\
              match r with
              | Captioned p _ _ => p = image_path
              | Failed p _ => p = image_path
              end).
    { unfold try_except, bind, caption_single, bind, ret.
      destruct (generate_caption_from_path w image_path (py_or prompt default_prompt) t)
        as [[caption|e] t1]; do 2 eexists; split; reflexivity. }
    destruct Hitem as (r & t1 & Hitem & Hr). rewrite Hitem.
    destruct (IH (results ++ [r]) t1) as (rs & t' & Hloop & Hall).
    exists (r :: rs), t'. rewrite Hloop, <- app_assoc. split; [reflexivity|].
    now constructor.
Qed.

(* ===================================================================== *)
(** ** URL resolution in [_extract_image_url] *)
(* ===================================================================== *)

Lemma prefix_app (p s : string) :
  String.prefix p s = true -> exists r, s = (p ++ r)%string.
Proof.
  revert s; induction p as [|c p IH]; intros s H.
  - now exists s.
  - destruct s as [|c' s]; simpl in H; [discriminate|].
    destruct (ascii_dec c c') as [->|]; [|discriminate].
    destruct (IH s H) as [r ->]. now exists r.
Qed.

(** What [_extract_image_url] does with a non-empty "src" attribute. *)
Lemma extract_image_url_from_src w img base_url u :
  bs4.get img "src" = Some u -> Str.truthy u = true ->
  _extract_image_url w img base_url =
    if Str.startswith u "//" then Ok (Some ("https:" ++ u)%string)
    else if Str.startswith u "/" || negb (Str.startswith u "http")
         then rbind (urljoin w base_url u) (fun r => Ok (Some r))
         else Ok (Some u).
Proof.
  intros Hsrc Hu. unfold _extract_image_url, py_or.
  rewrite Hsrc. destruct u as [|c u]; [discriminate|].
  cbn [truthy_opt Str.truthy negb andb rbind].
  destruct (Str.startswith (String c u) "//"); [reflexivity|].
  destruct (Str.startswith (String c u) "/"); [reflexivity|].
  destruct (Str.startswith (String c u) "http"); reflexivity.
Qed.

(** A protocol-relative source is completed with "https:". *)
Lemma extract_protocol_relative w img base_url u :
  bs4.get img "src" = Some u -> Str.startswith u "//" = true ->
  _extract_image_url w img base_url = Ok (Some ("https:" ++ u)%string).
Proof.
  intros Hsrc Hpre.
  rewrite (extract_image_url_from_src w img base_url u Hsrc), Hpre; [reflexivity|].
  apply prefix_app in Hpre as [r ->]. reflexivity.
Qed.

(** A root-relative source is handed to [urljoin]. *)
Lemma extract_root_relative w img base_url u :
  bs4.get img "src" = Some u ->
  Str.startswith u "/" = true -> Str.startswith u "//" = false ->
  _extract_image_url w img base_url
  = rbind (urljoin w base_url u) (fun r => Ok (Some r)).
Proof.
  intros Hsrc Hroot Hproto.
  rewrite (extract_image_url_from_src w img base_url u Hsrc), Hproto, Hroot;
    [reflexivity|].
  apply prefix_app in Hroot as [r ->]. reflexivity.
Qed.

(** A document-relative source is handed to [urljoin] when it does not
    begin with the letters "http". *)
Lemma extract_document_relative w img base_url u :
  bs4.get img "src" = Some u -> Str.truthy u = true ->
  Str.startswith u "/" = false -> Str.startswith u "http" = false ->
  _extract_image_url w img base_url
  = rbind (urljoin w base_url u) (fun r => Ok (Some r)).
Proof.
  intros Hsrc Hu Hroot Hhttp.
  rewrite (extract_image_url_from_src w img base_url u Hsrc Hu), Hroot, Hhttp.
  destruct (Str.startswith u "//") eqn:Hproto; [|reflexivity].
  apply prefix_app in Hproto as [r ->]. discriminate Hroot.
Qed.

(** An absolute [http] or [https] source passes through unchanged. *)
Lemma extract_absolute w img base_url u :
  bs4.get img "src" = Some u -> is_http_absolute u = true ->
  _extract_image_url w img base_url = Ok (Some u).
Proof.
  intros Hsrc Habs.
  assert (H : exists r, u = ("http://" ++ r)%string \/ u = ("https://" ++ r)%string).
  { unfold is_http_absolute in Habs. apply orb_true_iff in Habs as [H|H];
      apply prefix_app in H as [r ->]; eauto. }
  destruct H as [r [-> | ->]];
    now rewrite (extract_image_url_from_src w img base_url _ Hsrc).
Qed.

(** Scenario A: [<img src="/logo.png" alt="Logo">] on the page
    [https://example.com/page] yields one descriptor, with the URL
    [https://example.com/logo.png]. *)
Example scenario_A_root_relative_logo :
  scrape_images Sample.w_logo "https://example.com/page" 200 200 0
  = (Ok [ {| d_url := "https://example.com/logo.png"; d_alt := "Logo";
             d_title := ""; d_width := ""; d_height := ""; d_index := 1 |} ], 1).
Proof. vm_compute; reflexivity. Qed.

(** Scenario B: [<img src="pic.svg">] yields no descriptor. *)
Example scenario_B_svg_is_dropped :
  let w := Sample.world (Sample.document [ Sample.img [("src", "pic.svg")] ])
                        (fun _ => Sample.server) in
  scrape_images w Sample.page_url 200 200 0 = (Ok [], 1).
Proof. vm_compute; reflexivity. Qed.

(** ** C8: relative references *)

(** C8 fails on the code for one kind of document-relative reference: a
    relative path whose first four letters are "http", such as
    [httpdocs/a.png], is taken for an absolute URL and returned as it
    stands, where relative resolution against
    [https://example.com/page] gives
    [https://example.com/httpdocs/a.png]. *)
Theorem C8_relative_path_starting_with_http_is_not_resolved :
  _extract_image_url Sample.w_httpdocs (Sample.img [("src", "httpdocs/a.png")])
    "https://example.com/page"
  = Ok (Some "httpdocs/a.png") /\
  urljoin Sample.w_httpdocs "https://example.com/page" "httpdocs/a.png"
  = Ok "https://example.com/httpdocs/a.png" /\
  Str.startswith "httpdocs/a.png" "/" = false /\
  is_http_absolute "httpdocs/a.png" = false.
Proof. repeat split; vm_compute; reflexivity. Qed.

(** ** C4: the URLs of emitted descriptors *)

(** C4 fails on the code: the page [<img src="httpdocs/a.png">] yields a
    descriptor whose URL is the relative path [httpdocs/a.png], which is
    not absolute and has neither the [http] nor the [https] scheme. *)
Theorem C4_relative_url_is_emitted :
  exists images t,
    scrape_images Sample.w_httpdocs Sample.page_url 200 200 0 = (Ok images, t) /\
    map d_url images = ["httpdocs/a.png"] /\
    forallb is_http_absolute (map d_url images) = false.
Proof. do 2 eexists. split; [vm_compute; reflexivity|]. split; reflexivity. Qed.

(** The filter itself does what it tests for: no emitted URL contains
    ".svg" in any letter case, and none starts with the lower-case prefix
    "data:". *)
Lemma emitted_urls_are_no_svg_and_no_data_uri w url min_width min_height t images t' :
  scrape_images w url min_width min_height t = (Ok images, t') ->
  Forall (fun d => Str.contains (Str.lower (d_url d)) ".svg" = false /\
                   Str.startswith (d_url d) "data:" = false) images.
Proof.
  intros H. apply scrape_images_descriptors in H as (_ & _ & Hall).
  eapply Forall_impl; [|exact Hall]. intros d (_ & Hsvg & Hdata).
  split; [|exact Hdata]. unfold _is_svg in Hsvg.
  now apply orb_false_iff in Hsvg as [_ Hsvg].
Qed.

(* ===================================================================== *)
(** ** The summary of an article run *)
(* ===================================================================== *)

Lemma Forall2_map_eq {A B C} (R : A -> B -> Prop) (f : A -> C) (g : B -> C) l l' :
  (forall a b, R a b -> f a = g b) -> Forall2 R l l' -> map f l = map g l'.
Proof.
  intros Hfg H; induction H; simpl; [reflexivity|].
  f_equal; auto.
Qed.

(** The counts and the partition hold of article runs as well: the article
    loop numbers its records as the whole-page loop does. *)
Lemma process_article_summary_partitions w url prompt t s t3 :
  process_article w url prompt t = (Ok s, t3) ->
  exists images t2,
    scrape_article_images w url None (S t) = (Ok images, t2) /\
    images_processed s + images_failed s = total_images_found s /\
    total_images_found s = length images /\
    StronglySorted lt (map ar_index (results s)) /\
    StronglySorted lt (map e_index (errors s)) /\
    Permutation (map ar_index (results s) ++ map e_index (errors s))
                (seq 1 (length images)).
Proof.
  intros Hrun.
  destruct (get_page_title_total w url t) as [title Htitle].
  unfold process_article in Hrun. rewrite (bind_ok _ _ _ _ _ Htitle) in Hrun.
  destruct (scrape_article_images w url None (S t)) as [[images'|e] t2] eqn:Hscrape;
    [|rewrite (bind_raise _ _ _ _ _ Hscrape) in Hrun; discriminate].
  rewrite (bind_ok _ _ _ _ _ Hscrape) in Hrun.
  set (images := map (fun a => {| d_url := a_url a; d_alt := a_alt a;
                                  d_title := a_title a; d_width := "";
                                  d_height := ""; d_index := a_index a |}) images').
  assert (Hrel : Forall2 same_descriptor images images').
  { subst images. clear. induction images' as [|a l IH]; simpl; constructor.
    - now unfold same_descriptor.
    - exact IH. }
  destruct (process_loops_agree w prompt images images' Hrel 1 [] [] [] [] t2
              (Forall2_nil _) (Forall2_nil _))
    as (rs & rs' & es & es' & t3' & Hu & Ha & Hrs & Hes).
  destruct (process_url_loop_spec w default_min_size prompt images 1 [] [] t2)
    as (rs0 & es0 & t30 & Hu0 & Hlen & _ & _ & Hsr & Hse & Hperm).
  simpl in Hu0. rewrite Hu in Hu0. inversion Hu0; subst rs0 es0 t30.
  rewrite (bind_ok _ _ _ _ _ Ha) in Hrun. inversion Hrun; subst s t3'. simpl.
  assert (Hri : map r_index rs = map ar_index rs').
  { apply (Forall2_map_eq _ _ _ _ _ (fun r r' H => proj2 (proj2 (proj2 (proj2 (proj2 H))))) Hrs). }
  assert (Hei : map e_index es = map e_index es').
  { apply (Forall2_map_eq _ _ _ _ _ (fun e e' H => proj1 H) Hes). }
  rewrite <- Hri, <- Hei, <- (Forall2_length Hrs), <- (Forall2_length Hes).
  pose proof (Forall2_length Hrel) as Hl.
  exists images', t2. rewrite <- Hl. repeat split; auto.
Qed.

(* ===================================================================== *)
(** ** The cap outside the positive integers, and further scenarios *)
(* ===================================================================== *)

(** [max_images = 0] is falsy: nothing is cut. *)
Lemma limit_zero {A} (images : list A) : limit (Some 0%Z) images = images.
Proof. reflexivity. Qed.

(** A negative [max_images] cuts from the end, as slicing does. *)
Example limit_negative : limit (Some (-1)%Z) [1; 2; 3] = [1; 2].
Proof. reflexivity. Qed.

(** Scenario C: a fetch answered with 404 yields one failure record and no
    caption record. *)
Example scenario_C_not_found :
  let w := Sample.world (Sample.document [ Sample.img [("src", "/missing.png")] ])
                        (fun _ => Sample.server) in
  exists s t3,
    process_url w 200 Sample.page_url None None 0 = (Ok s, t3) /\
    results s = [] /\
    errors s = [ {| e_index := 1; e_url := "https://example.com/missing.png";
                    e_error := "Download failed or image too small" |} ].
Proof. do 2 eexists. split; [vm_compute; reflexivity|]. split; reflexivity. Qed.

(** Scenario D: an image of 50 x 50 pixels with a minimum area of 40000 is
    turned away. *)
Example scenario_D_too_small :
  download_image Sample.w_failures "https://example.com/icon.gif" 40000 0 = (Ok None, 1).
Proof. vm_compute; reflexivity. Qed.

(** Scenario F: a failing image in the middle of a batch leaves the
    indices of the others as they are. *)
Example scenario_F_failure_in_the_middle :
  exists s t3,
    process_url Sample.w_five 200 Sample.page_url None None 0 = (Ok s, t3) /\
    map r_index (results s) = [1; 2; 4; 5] /\
    map e_index (errors s) = [3].
Proof. do 2 eexists. split; [vm_compute; reflexivity|]. split; reflexivity. Qed.

(** The "data:" test is case-sensitive: a data URI written with an
    upper-case scheme comes through [urljoin] unchanged and is emitted. *)
Example upper_case_data_uri_is_emitted :
  let w := Sample.world
             (Sample.document [ Sample.img [("src", "DATA:image/png;base64,AAAA")] ])
             (fun _ => Sample.server) in
  exists images t,
    scrape_images w Sample.page_url 200 200 0 = (Ok images, t) /\
    map d_url images = ["DATA:image/png;base64,AAAA"].
Proof. do 2 eexists. split; [vm_compute; reflexivity|]. reflexivity. Qed.

(** An [<img>] whose "srcset" is blank and which has no other source makes
    [_extract_image_url] raise, and with it the whole extraction. *)
Example blank_srcset_aborts_extraction :
  let w := Sample.world (Sample.document [ Sample.img [("srcset", " ")] ])
                        (fun _ => Sample.server) in
  scrape_images w Sample.page_url 200 200 0
  = (Raise (IndexError "list index out of range"), 1).
Proof. vm_compute; reflexivity. Qed.

(* ===================================================================== *)
(** ** Substrings, and what [_is_svg] accepts *)
(* ===================================================================== *)

Lemma prefix_of_app (p r : string) : String.prefix p (p ++ r)%string = true.
Proof.
  induction p as [|c p IH]; simpl.
  - now destruct r.
  - destruct (ascii_dec c c) as [_|n]; [exact IH|now elim n].
Qed.

Lemma contains_eq (s sub : string) :
  Str.contains s sub =
  String.prefix sub s ||
  match s with EmptyString => false | String _ r => Str.contains r sub end.
Proof. destruct s; reflexivity. Qed.

Lemma endswith_eq (s p : string) :
  Str.endswith s p =
  String.eqb s p ||
  match s with EmptyString => false | String _ r => Str.endswith r p end.
Proof. destruct s; reflexivity. Qed.

Lemma contains_prefix (s sub : string) :
  String.prefix sub s = true -> Str.contains s sub = true.
Proof. intros H. rewrite contains_eq, H. reflexivity. Qed.

Lemma contains_app (a s b : string) : Str.contains (a ++ s ++ b)%string s = true.
Proof.
  induction a as [|c a IH].
  - cbn [append]. apply contains_prefix, prefix_of_app.
  - rewrite contains_eq. cbn [append]. rewrite IH. apply orb_true_r.
Qed.

Lemma contains_inv (s sub : string) :
  Str.contains s sub = true -> exists a b, s = (a ++ sub ++ b)%string.
Proof.
  induction s as [|c s IH]; rewrite contains_eq; intros H;
    apply orb_true_iff in H as [H|H]; try discriminate.
  - apply prefix_app in H as [r ->]. now exists EmptyString, r.
  - apply prefix_app in H as [r ->]. now exists EmptyString, r.
  - destruct (IH H) as (a & b & ->). now exists (String c a), b.
Qed.

Lemma endswith_inv (s p : string) :
  Str.endswith s p = true -> exists a, s = (a ++ p)%string.
Proof.
  induction s as [|c s IH]; rewrite endswith_eq; intros H;
    apply orb_true_iff in H as [H|H]; try discriminate.
  - apply String.eqb_eq in H as <-. now exists EmptyString.
  - apply String.eqb_eq in H as <-. now exists EmptyString.
  - destruct (IH H) as (a & ->). now exists (String c a).
Qed.

Lemma lower_app (a b : string) :
  Str.lower (a ++ b) = (Str.lower a ++ Str.lower b)%string.
Proof. induction a as [|c a IH]; simpl; [reflexivity|now rewrite IH]. Qed.

(** X1: [_is_svg] answers [True] exactly for the URLs in which ".svg"
    occurs somewhere, in any mix of letter cases: at the end, in the
    middle of the path, in the query.  The [endswith] test adds nothing to
    the [in] test. *)
Theorem is_svg_iff_svg_occurs_anywhere (url : string) :
  (_is_svg url = true <->
   exists a b, Str.lower url = (a ++ ".svg" ++ b)%string) /\
  _is_svg url = Str.contains (Str.lower url) ".svg".
Proof.
  assert (Hends : Str.endswith (Str.lower url) ".svg" = true ->
                  Str.contains (Str.lower url) ".svg" = true).
  { intros H. apply endswith_inv in H as [a ->].
    change (a ++ ".svg")%string with (a ++ ".svg" ++ "")%string. apply contains_app. }
  assert (Heq : _is_svg url = Str.contains (Str.lower url) ".svg").
  { unfold _is_svg. destruct (Str.endswith (Str.lower url) ".svg"); [|reflexivity].
    now rewrite Hends. }
  split; [|exact Heq]. rewrite Heq. split.
  - apply contains_inv.
  - intros (a & b & ->). apply contains_app.
Qed.

(** A raster image under a path that mentions ".svg" is taken for an SVG,
    and so is one whose query string does. *)
Example is_svg_false_positives :
  _is_svg "https://example.com/icons.SVG/photo.png" = true /\
  _is_svg "https://example.com/photo.png?from=logo.svg" = true /\
  _is_svg "https://example.com/photo.png" = false.
Proof. repeat split. Qed.

(* ===================================================================== *)
(** ** Descriptors and the elements they come from *)
(* ===================================================================== *)

Lemma scrape_images_loop_elements w url els :
  forall idx acc images,
    scrape_images_loop w url idx els acc = Ok images ->
    exists new,
      images = acc ++ new /\
      Forall (fun d => idx <= d_index d /\
                exists img, nth_error els (d_index d - idx) = Some img /\
                            descriptor_of_element w url img d) new /\
      (forall k img u,
         nth_error els k = Some img -> emits w url img u ->
         exists d, In d new /\ d_index d = idx + k /\ d_url d = u).
Proof.
  induction els as [|img rest IH]; intros idx acc images H; simpl in H.
  - inversion H; subst. exists []. rewrite app_nil_r.
    repeat split; [constructor|]. intros [|k] img u; discriminate.
  - destruct (_extract_image_url w (element img) url) as [img_url|e] eqn:Hx;
      [|discriminate].
    (* Whatever the head does, the tail keeps its promises one index up. *)
    assert (Htail : forall new,
              Forall (fun d => S idx <= d_index d /\
                        exists img0, nth_error rest (d_index d - S idx) = Some img0 /\
                                     descriptor_of_element w url img0 d) new ->
              Forall (fun d => idx <= d_index d /\
                        exists img0, nth_error (img :: rest) (d_index d - idx) = Some img0 /\
                                     descriptor_of_element w url img0 d) new).
    { intros new Hall. eapply Forall_impl; [|exact Hall].
      intros d (Hle & img0 & Hn & Hd). split; [lia|]. exists img0.
      now rewrite nth_error_shift. }
    assert (Hskip : (forall u, ~ emits w url img u) ->
                    scrape_images_loop w url (S idx) rest acc = Ok images ->
                    exists new,
                      images = acc ++ new /\
                      Forall (fun d => idx <= d_index d /\
                                exists img0,
                                  nth_error (img :: rest) (d_index d - idx) = Some img0 /\
                                  descriptor_of_element w url img0 d) new /\
                      (forall k img0 u,
                         nth_error (img :: rest) k = Some img0 -> emits w url img0 u ->
                         exists d, In d new /\ d_index d = idx + k /\ d_url d = u)).
    { intros Hno H'. destruct (IH _ _ _ H') as (new & -> & Hall & Hcomplete).
      exists new. split; [reflexivity|]. split; [now apply Htail|].
      intros [|k] img0 u Hk Hem; simpl in Hk.
      - inversion Hk; subst img0. now elim (Hno u).
      - destruct (Hcomplete k img0 u Hk Hem) as (d & Hin & Hi & Hu).
        exists d. repeat split; auto. lia. }
    destruct (negb (truthy_opt img_url)) eqn:Htruthy.
    { apply Hskip; [|exact H]. intros u (Hx' & Hu & _). rewrite Hx in Hx'.
      inversion Hx'; subst img_url. simpl in Htruthy. now rewrite Hu in Htruthy. }
    destruct img_url as [u0|]; [|discriminate]. simpl in Htruthy.
    apply negb_false_iff in Htruthy.
    destruct (_is_svg u0) eqn:Hsvg.
    { apply Hskip; [|exact H]. intros u (Hx' & _ & Hs & _). congruence. }
    destruct (Str.startswith u0 "data:") eqn:Hdata.
    { apply Hskip; [|exact H]. intros u (Hx' & _ & _ & Hd). congruence. }
    clear Hskip.
    destruct (IH _ _ _ H) as (new & -> & Hall & Hcomplete).
    eexists (_ :: new). rewrite <- app_assoc. simpl. split; [reflexivity|].
    split.
    + constructor; [|now apply Htail].
      simpl. split; [lia|]. rewrite Nat.sub_diag. exists img. split; [reflexivity|].
      unfold descriptor_of_element; simpl. auto.
    + intros [|k] img0 u Hk Hem; simpl in Hk.
      * inversion Hk; subst img0. destruct Hem as (Hx' & _).
        eexists. split; [left; reflexivity|]. simpl. split; [lia|congruence].
      * destruct (Hcomplete k img0 u Hk Hem) as (d & Hin & Hi & Hu).
        exists d. split; [now right|]. split; [lia|exact Hu].
Qed.

Lemma scrape_images_elements
    w url min_width min_height t images t' :
  scrape_images w url min_width min_height t = (Ok images, t') ->
  exists soup,
    page_at w url t = Some soup /\
    StronglySorted lt (map d_index images) /\
    (forall d, In d images ->
       1 <= d_index d /\
       exists img, nth_error (bs4.find_all soup "img") (d_index d - 1) = Some img /\
                   descriptor_of_element w url img d) /\
    (forall k img u,
       nth_error (bs4.find_all soup "img") k = Some img -> emits w url img u ->
       exists d, In d images /\ d_index d = S k /\ d_url d = u).
Proof.
  intros H.
  destruct (scrape_images_descriptors _ _ _ _ _ _ _ H) as (Hsorted & _ & _).
  apply scrape_images_ok in H as (_ & soup & Hpage & Hloop).
  apply scrape_images_loop_elements in Hloop as (new & -> & Hall & Hcomplete).
  exists soup. split; [exact Hpage|]. split; [exact Hsorted|]. simpl.
  split; [now apply Forall_forall|exact Hcomplete].
Qed.

(** X2: when [scrape_images] returns, its descriptors and the [<img>]
    elements of the page correspond: the descriptor with index [i] was
    built from the [i]-th [<img>] element in document order (its resolved
    URL, its "alt", "title", "width" and "height" attributes), indices are
    strictly increasing, and every [<img>] element whose URL resolves to
    something that is not empty, not an SVG reference and not a "data:"
    URI has its descriptor. *)
Theorem scrape_images_descriptors_match_elements
    w url min_width min_height t images t' :
  scrape_images w url min_width min_height t = (Ok images, t') ->
  exists soup,
    page_at w url t = Some soup /\
    StronglySorted lt (map d_index images) /\
    (forall d, In d images ->
       1 <= d_index d /\
       exists img, nth_error (bs4.find_all soup "img") (d_index d - 1) = Some img /\
                   descriptor_of_element w url img d) /\
    (forall k img u,
       nth_error (bs4.find_all soup "img") k = Some img -> emits w url img u ->
       exists d, In d images /\ d_index d = S k /\ d_url d = u).
Proof. exact (scrape_images_elements w url min_width min_height t images t'). Qed.

Lemma scrape_images_descriptors_match_elements_witness :
  exists images,
    scrape_images Sample.w_icon Sample.page_url 200 200 0 = (Ok images, 1) /\
    map d_index images = [2] /\
    exists soup,
      page_at Sample.w_icon Sample.page_url 0 = Some soup /\
      StronglySorted lt (map d_index images) /\
      (forall d, In d images ->
         1 <= d_index d /\
         exists img, nth_error (bs4.find_all soup "img") (d_index d - 1) = Some img /\
                     descriptor_of_element Sample.w_icon Sample.page_url img d) /\
      (forall k img u,
         nth_error (bs4.find_all soup "img") k = Some img ->
         emits Sample.w_icon Sample.page_url img u ->
         exists d, In d images /\ d_index d = S k /\ d_url d = u).
Proof.
  eexists. split; [vm_compute; reflexivity|]. split; [reflexivity|].
  apply (scrape_images_descriptors_match_elements
           Sample.w_icon Sample.page_url 200%Z 200%Z 0) with (t' := 1).
  vm_compute. reflexivity.
Defined.

(* ===================================================================== *)
(** ** Which attribute [_extract_image_url] takes the URL from *)
(* ===================================================================== *)

(** The URL conversion applied to a non-empty source [u]. *)
Lemma extract_image_url_bare w u base_url :
  Str.truthy u = true ->
  _extract_image_url w (img_with_src u) base_url =
    if Str.startswith u "//" then Ok (Some ("https:" ++ u)%string)
    else if Str.startswith u "/" || negb (Str.startswith u "http")
         then rbind (urljoin w base_url u) (fun r => Ok (Some r))
         else Ok (Some u).
Proof. intros Hu. now apply extract_image_url_from_src. Qed.

Lemma extract_image_url_from_data_src w img base_url u :
  truthy_opt (bs4.get img "src") = false ->
  bs4.get img "data-src" = Some u -> Str.truthy u = true ->
  _extract_image_url w img base_url = _extract_image_url w (img_with_src u) base_url.
Proof.
  intros Hsrc Hdata Hu. rewrite (extract_image_url_bare w u base_url Hu).
  unfold _extract_image_url, py_or. rewrite Hsrc, Hdata.
  destruct u as [|c u]; [discriminate|].
  cbn [truthy_opt Str.truthy negb andb rbind].
  destruct (Str.startswith (String c u) "//"); [reflexivity|].
  destruct (Str.startswith (String c u) "/"); [reflexivity|].
  destruct (Str.startswith (String c u) "http"); reflexivity.
Qed.

Lemma extract_image_url_from_srcset w img base_url v :
  truthy_opt (bs4.get img "src") = false ->
  truthy_opt (bs4.get img "data-src") = false ->
  bs4.get img "srcset" = Some v ->
  _extract_image_url w img base_url =
    match Str.split v with
    | [] => Raise (IndexError "list index out of range")
    | first :: _ =>
        let candidate := hd "" (Str.split_on "," first) in
        if Str.truthy candidate
        then _extract_image_url w (img_with_src candidate) base_url
        else Ok None
    end.
Proof.
  intros Hsrc Hdata Hset.
  unfold _extract_image_url at 1. unfold py_or, bs4.has_attr, bs4.get_default.
  rewrite Hsrc, Hdata, Hset. cbn [negb andb].
  destruct (Str.split v) as [|first rest]; [reflexivity|].
  cbn [rbind]. cbv zeta.
  destruct (hd "" (Str.split_on "," first)) as [|c u] eqn:Hc; [reflexivity|].
  rewrite (extract_image_url_bare w (String c u) base_url eq_refl).
  cbn [Str.truthy negb].
  destruct (Str.startswith (String c u) "//"); [reflexivity|].
  destruct (Str.startswith (String c u) "/"); [reflexivity|].
  destruct (Str.startswith (String c u) "http"); reflexivity.
Qed.

(** X3: [_extract_image_url] takes the URL from "src" when that is present
    and not empty and then looks at no other attribute; otherwise from
    "data-src" when that is present and not empty; otherwise from the
    first whitespace-separated entry of "srcset", cut at its first comma.
    Each of them is converted as a "src" would be.  With none of the three
    attributes the result is [None]; with a "srcset" that is empty or all
    whitespace the function raises [IndexError]. *)
Theorem extract_image_url_source_selection w img base_url :
  (forall u, bs4.get img "src" = Some u -> Str.truthy u = true ->
     _extract_image_url w img base_url
     = _extract_image_url w (img_with_src u) base_url) /\
  (forall u, truthy_opt (bs4.get img "src") = false ->
     bs4.get img "data-src" = Some u -> Str.truthy u = true ->
     _extract_image_url w img base_url
     = _extract_image_url w (img_with_src u) base_url) /\
  (truthy_opt (bs4.get img "src") = false ->
   truthy_opt (bs4.get img "data-src") = false ->
   (bs4.get img "srcset" = None -> _extract_image_url w img base_url = Ok None) /\
   (forall v, bs4.get img "srcset" = Some v ->
      match Str.split v with
      | [] => _extract_image_url w img base_url
              = Raise (IndexError "list index out of range")
      | first :: _ =>
          _extract_image_url w img base_url
          = if Str.truthy (hd "" (Str.split_on "," first))
            then _extract_image_url w (img_with_src (hd "" (Str.split_on "," first)))
                   base_url
            else Ok None
      end)).
Proof.
  split; [|split].
  - intros u Hsrc Hu.
    now rewrite (extract_image_url_from_src w img base_url u Hsrc Hu),
                (extract_image_url_bare w u base_url Hu).
  - intros u. apply extract_image_url_from_data_src.
  - intros Hsrc Hdata. split.
    + intros Hset. unfold _extract_image_url, py_or, bs4.has_attr.
      rewrite Hsrc, Hdata, Hset. cbn [negb andb rbind].
      destruct (bs4.get img "data-src") as [u|]; [|reflexivity].
      simpl in Hdata. now rewrite Hdata.
    + intros v Hset.
      rewrite (extract_image_url_from_srcset w img base_url v Hsrc Hdata Hset).
      destruct (Str.split v); reflexivity.
Qed.

(** An element with "src" is read from "src"; one with an empty "src" is
    read from "data-src"; a "srcset" gives its first candidate, also when
    the candidates are separated by no-break spaces; no attribute gives
    nothing; a "srcset" of blanks, or of one no-break space, raises. *)
Lemma extract_image_url_source_selection_witness :
  let base := "https://example.com/page" in
  let w := Sample.w_logo in
  _extract_image_url w (Tag "img" [("src", "/a.png"); ("data-src", "/b.png");
                                   ("srcset", "/c.png 2x")] []) base
  = Ok (Some "https://example.com/a.png") /\
  _extract_image_url w (Tag "img" [("src", ""); ("data-src", "/b.png");
                                   ("srcset", "/c.png 2x")] []) base
  = Ok (Some "https://example.com/b.png") /\
  _extract_image_url w (Tag "img" [("srcset", "/c.png 1x, /d.png 2x")] []) base
  = Ok (Some "https://example.com/c.png") /\
  _extract_image_url w
    (Tag "img" [("srcset", Sample.nbsp ++ "/c.png" ++ Sample.nbsp ++ "2x")%string] [])
    base
  = Ok (Some "https://example.com/c.png") /\
  _extract_image_url w (Tag "img" [("alt", "nothing")] []) base = Ok None /\
  _extract_image_url w (Tag "img" [("srcset", "  ")] []) base
  = Raise (IndexError "list index out of range") /\
  _extract_image_url w (Tag "img" [("srcset", Sample.nbsp)] []) base
  = Raise (IndexError "list index out of range").
Proof.
  cbv zeta.
  pose proof (extract_image_url_source_selection Sample.w_logo) as H.
  split; [|split; [|split; [|split; [|split; [|split]]]]].
  - rewrite (proj1 (H (Tag "img" [("src", "/a.png"); ("data-src", "/b.png");
                                  ("srcset", "/c.png 2x")] [])
                      "https://example.com/page") "/a.png" eq_refl eq_refl).
    reflexivity.
  - rewrite (proj1 (proj2 (H (Tag "img" [("src", ""); ("data-src", "/b.png");
                                         ("srcset", "/c.png 2x")] [])
                             "https://example.com/page"))
               "/b.png" eq_refl eq_refl eq_refl).
    reflexivity.
  - pose proof (proj2 (proj2 (proj2 (H (Tag "img" [("srcset", "/c.png 1x, /d.png 2x")] [])
                  "https://example.com/page")) eq_refl eq_refl)
                  "/c.png 1x, /d.png 2x" eq_refl) as Hc.
    vm_compute in Hc. exact Hc.
  - pose proof (proj2 (proj2 (proj2 (H
                  (Tag "img" [("srcset",
                               Sample.nbsp ++ "/c.png" ++ Sample.nbsp ++ "2x")%string] [])
                  "https://example.com/page")) eq_refl eq_refl)
                  (Sample.nbsp ++ "/c.png" ++ Sample.nbsp ++ "2x")%string eq_refl) as Hc.
    vm_compute in Hc. exact Hc.
  - exact (proj1 (proj2 (proj2 (H (Tag "img" [("alt", "nothing")] [])
             "https://example.com/page")) eq_refl eq_refl) eq_refl).
  - exact (proj2 (proj2 (proj2 (H (Tag "img" [("srcset", "  ")] [])
             "https://example.com/page")) eq_refl eq_refl) "  " eq_refl).
  - pose proof (proj2 (proj2 (proj2 (H (Tag "img" [("srcset", Sample.nbsp)] [])
                  "https://example.com/page")) eq_refl eq_refl)
                  Sample.nbsp eq_refl) as Hc.
    vm_compute in Hc. exact Hc.
Defined.

(* ===================================================================== *)
(** ** One element that raises loses the page *)
(* ===================================================================== *)

Lemma scrape_images_loop_raises w url els :
  forall idx acc img e0,
    In img els ->
    _extract_image_url w (element img) url = Raise e0 ->
    exists e, scrape_images_loop w url idx els acc = Raise e.
Proof.
  induction els as [|img0 rest IH]; intros idx acc img e0 Hin Hx; [destruct Hin|].
  simpl.
  destruct (_extract_image_url w (element img0) url) as [img_url|e] eqn:Hx0;
    [|now exists e].
  destruct Hin as [->|Hin]; [congruence|].
  destruct (negb (truthy_opt img_url)); [now apply (IH _ _ img e0)|].
  destruct (_is_svg _); [now apply (IH _ _ img e0)|].
  destruct (Str.startswith _ "data:"); now apply (IH _ _ img e0).
Qed.

(** X4: extraction is all or nothing.  If [_extract_image_url] raises on
    any [<img>] element of the page (a blank "srcset" with no other
    source, or a URL that [urljoin] refuses), [scrape_images] raises and
    returns no descriptor at all, whatever the other elements are. *)
Theorem scrape_images_raises_if_any_element_raises
    w url min_width min_height t soup img e0 :
  page_at w url t = Some soup ->
  In img (bs4.find_all soup "img") ->
  _extract_image_url w (element img) url = Raise e0 ->
  exists e, scrape_images w url min_width min_height t = (Raise e, S t).
Proof.
  intros Hpage Hin Hx.
  destruct (scrape_images_loop_raises w url _ 1 [] img e0 Hin Hx) as [e He].
  exists e. revert Hpage. unfold page_at, scrape_images; unfold_M.
  destruct (requests_get w t url) as [response|e1]; [|discriminate].
  destruct (raise_for_status response) as [[]|e1]; [|discriminate].
  destruct (html_parser w (text response)) as [soup'|e1]; [|discriminate].
  intros H; inversion H; subst soup'. rewrite He. now destruct e.
Qed.

Lemma scrape_images_raises_witness :
  let soup := Sample.document [ Sample.img [("src", "/good.png")];
                                Sample.img [("srcset", " ")];
                                Sample.img [("src", "/2.png")] ] in
  let w := Sample.world soup (fun _ => Sample.server) in
  exists e, scrape_images w Sample.page_url 200 200 0 = (Raise e, 1).
Proof.
  cbv zeta.
  eapply (scrape_images_raises_if_any_element_raises _ _ 200%Z 200%Z 0 _
            {| element := Sample.img [("srcset", " ")];
               parent := Sample.document [ Sample.img [("src", "/good.png")];
                                           Sample.img [("srcset", " ")];
                                           Sample.img [("src", "/2.png")] ];
               next_siblings := [Sample.img [("src", "/2.png")]] |}).
  - reflexivity.
  - right; left; reflexivity.
  - reflexivity.
Defined.

(* ===================================================================== *)
(** ** Article extraction: the region and its descriptors *)
(* ===================================================================== *)

Lemma find_content_first_match soup pre selector post content :
  Forall (fun s => bs4.select_one soup s = None) pre ->
  bs4.select_one soup selector = Some content ->
  find_content soup (pre ++ selector :: post) = Some content.
Proof.
  induction 1 as [|s rest Hs _ IH]; intros Hsel; simpl.
  - now rewrite Hsel.
  - rewrite Hs. now apply IH.
Qed.

(** What [scrape_article_images] computes once the page is there. *)
Lemma scrape_article_images_on_page w url content_selectors t soup :
  page_at w url t = Some soup ->
  scrape_article_images w url content_selectors t
  = (scrape_article_loop w url 1
       (bs4.find_all (content_region soup content_selectors) "img") [], S t).
Proof.
  unfold page_at, scrape_article_images, content_region; unfold_M.
  destruct (requests_get w t url) as [response|e]; [|discriminate].
  destruct (raise_for_status response) as [[]|e]; [|discriminate].
  destruct (html_parser w (text response)) as [soup'|e]; [|discriminate].
  intros H; inversion H; subst soup'.
  now destruct (scrape_article_loop w url 1 _ []).
Qed.

Lemma scrape_article_images_ok w url content_selectors t images t' :
  scrape_article_images w url content_selectors t = (Ok images, t') ->
  t' = S t /\
  exists soup,
    page_at w url t = Some soup /\
    scrape_article_loop w url 1
      (bs4.find_all (content_region soup content_selectors) "img") [] = Ok images.
Proof.
  intros H. destruct (page_at w url t) as [soup|] eqn:Hpage.
  - rewrite (scrape_article_images_on_page w url content_selectors t soup Hpage) in H.
    inversion H. split; [reflexivity|]. now exists soup.
  - destruct (scrape_no_page w url content_selectors t Hpage) as (e & _ & Ha).
    rewrite Ha in H. discriminate.
Qed.

(** X5: the content selectors are tried in list order, not in document
    order: the region searched is what the first selector that selects
    anything selects, the selectors after it are not consulted, and the
    images are those below that region only. *)
Theorem scrape_article_images_uses_first_matching_selector
    w url t soup pre selector post content :
  page_at w url t = Some soup ->
  Forall (fun s => bs4.select_one soup s = None) pre ->
  bs4.select_one soup selector = Some content ->
  find_content soup (pre ++ selector :: post) = Some content /\
  scrape_article_images w url (Some (pre ++ selector :: post)) t
  = (scrape_article_loop w url 1 (bs4.find_all content "img") [], S t).
Proof.
  intros Hpage Hpre Hsel.
  pose proof (find_content_first_match soup pre selector post content Hpre Hsel) as Hfind.
  split; [exact Hfind|].
  rewrite (scrape_article_images_on_page w url _ t soup Hpage).
  unfold content_region. now rewrite Hfind.
Qed.

(** On the sample page [main] comes before [article] in the document, but
    "article" comes before "main" in the selector list: the article's
    images are taken. *)
Lemma scrape_article_images_first_selector_witness :
  exists content,
    bs4.select_one SampleArticle.page "article" = Some content /\
    find_content SampleArticle.page default_content_selectors = Some content /\
    map a_url (match fst (scrape_article_images SampleArticle.w Sample.page_url
                            (Some default_content_selectors) 0) with
               | Ok images => images
               | Raise _ => []
               end)
    = ["https://example.com/cat.png"; "https://example.com/dog.png"].
Proof.
  eexists. split; [reflexivity|].
  destruct (scrape_article_images_uses_first_matching_selector
              SampleArticle.w Sample.page_url 0 SampleArticle.page
              [] "article"
              [".article-content"; ".post-content"; ".entry-content"; "#content"; "main"]
              _ eq_refl (Forall_nil _) eq_refl) as [Hfind Hrun].
  split; [exact Hfind|].
  change ([] ++ "article" :: [".article-content"; ".post-content"; ".entry-content";
                              "#content"; "main"])
    with default_content_selectors in Hrun.
  rewrite Hrun. reflexivity.
Defined.

Lemma scrape_article_loop_elements w url els :
  forall idx acc images,
    scrape_article_loop w url idx els acc = Ok images ->
    exists new,
      images = acc ++ new /\
      Forall (fun a => idx <= a_index a /\
                exists img, nth_error els (a_index a - idx) = Some img /\
                            article_descriptor_of_element w url img a) new /\
      StronglySorted lt (map a_index new) /\
      (forall k img u,
         nth_error els k = Some img -> emits w url img u ->
         exists a, In a new /\ a_index a = idx + k /\ a_url a = u).
Proof.
  induction els as [|img rest IH]; intros idx acc images H; simpl in H.
  - inversion H; subst. exists []. rewrite app_nil_r.
    repeat split; try constructor. intros [|k] img u; discriminate.
  - destruct (_extract_image_url w (element img) url) as [img_url|e] eqn:Hx;
      [|discriminate].
    assert (Htail : forall new,
              Forall (fun a => S idx <= a_index a /\
                        exists img0, nth_error rest (a_index a - S idx) = Some img0 /\
                                     article_descriptor_of_element w url img0 a) new ->
              Forall (fun a => idx <= a_index a /\
                        exists img0, nth_error (img :: rest) (a_index a - idx) = Some img0 /\
                                     article_descriptor_of_element w url img0 a) new).
    { intros new Hall. eapply Forall_impl; [|exact Hall].
      intros a (Hle & img0 & Hn & Ha). split; [lia|]. exists img0.
      now rewrite nth_error_shift. }
    destruct (negb (truthy_opt img_url)
              || _is_svg (match img_url with Some u => u | None => "" end)
              || Str.startswith (match img_url with Some u => u | None => "" end) "data:")
      eqn:Hskip.
    + destruct (IH _ _ _ H) as (new & -> & Hall & Hsorted & Hcomplete).
      exists new. split; [reflexivity|]. split; [now apply Htail|].
      split; [exact Hsorted|].
      intros [|k] img0 u Hk Hem; simpl in Hk.
      * inversion Hk; subst img0. destruct Hem as (Hx' & Hu & Hs & Hd).
        rewrite Hx in Hx'. inversion Hx'; subst img_url. simpl in Hskip.
        rewrite Hu, Hs, Hd in Hskip. discriminate.
      * destruct (Hcomplete k img0 u Hk Hem) as (a & Hin & Hi & Hu).
        exists a. repeat split; auto. lia.
    + apply orb_false_iff in Hskip as [Hskip Hdata].
      apply orb_false_iff in Hskip as [Htruthy Hsvg].
      destruct img_url as [u0|]; [|discriminate]. simpl in Htruthy.
      apply negb_false_iff in Htruthy.
      destruct (IH _ _ _ H) as (new & -> & Hall & Hsorted & Hcomplete).
      eexists (_ :: new). rewrite <- app_assoc. simpl. split; [reflexivity|].
      split; [|split].
      * constructor; [|now apply Htail].
        simpl. split; [lia|]. rewrite Nat.sub_diag. exists img. split; [reflexivity|].
        unfold article_descriptor_of_element, emits; simpl. auto 10.
      * apply sorted_cons_from; [|exact Hsorted].
        apply Forall_map. eapply Forall_impl; [|exact Hall]. now intros a [Hle _].
      * intros [|k] img0 u Hk Hem; simpl in Hk.
        -- inversion Hk; subst img0. destruct Hem as (Hx' & _).
           eexists. split; [left; reflexivity|]. simpl. split; [lia|congruence].
        -- destruct (Hcomplete k img0 u Hk Hem) as (a & Hin & Hi & Hu).
           exists a. split; [now right|]. split; [lia|exact Hu].
Qed.

Lemma scrape_article_images_elements
    w url content_selectors t images t' :
  scrape_article_images w url content_selectors t = (Ok images, t') ->
  exists soup,
    page_at w url t = Some soup /\
    StronglySorted lt (map a_index images) /\
    (forall a, In a images ->
       1 <= a_index a /\
       exists img,
         nth_error (bs4.find_all (content_region soup content_selectors) "img")
                   (a_index a - 1) = Some img /\
         article_descriptor_of_element w url img a) /\
    (forall k img u,
       nth_error (bs4.find_all (content_region soup content_selectors) "img") k
       = Some img ->
       emits w url img u ->
       exists a, In a images /\ a_index a = S k /\ a_url a = u).
Proof.
  intros H. apply scrape_article_images_ok in H as (_ & soup & Hpage & Hloop).
  apply scrape_article_loop_elements in Hloop as (new & -> & Hall & Hsorted & Hcomplete).
  exists soup. split; [exact Hpage|]. split; [exact Hsorted|]. simpl.
  split; [now apply Forall_forall|exact Hcomplete].
Qed.

(** X6: when [scrape_article_images] returns, the descriptor with index
    [i] was built from the [i]-th [<img>] element below the content
    region: it carries that element's resolved URL, which is not empty,
    not an SVG reference and not a "data:" URI, its "alt" and "title"
    attributes and the caption [_extract_caption] finds next to it.
    Indices are strictly increasing, and every element of the region
    whose URL passes the filters has its descriptor. *)
Theorem scrape_article_images_descriptors_match_elements
    w url content_selectors t images t' :
  scrape_article_images w url content_selectors t = (Ok images, t') ->
  exists soup,
    page_at w url t = Some soup /\
    StronglySorted lt (map a_index images) /\
    (forall a, In a images ->
       1 <= a_index a /\
       exists img,
         nth_error (bs4.find_all (content_region soup content_selectors) "img")
                   (a_index a - 1) = Some img /\
         article_descriptor_of_element w url img a) /\
    (forall k img u,
       nth_error (bs4.find_all (content_region soup content_selectors) "img") k
       = Some img ->
       emits w url img u ->
       exists a, In a images /\ a_index a = S k /\ a_url a = u).
Proof. exact (scrape_article_images_elements w url content_selectors t images t'). Qed.

Lemma scrape_article_images_descriptors_witness :
  exists images,
    scrape_article_images SampleArticle.w Sample.page_url None 0 = (Ok images, 1) /\
    map a_index images = [1; 3] /\
    map a_caption images = ["A cat."; "A dog."] /\
    exists soup,
      page_at SampleArticle.w Sample.page_url 0 = Some soup /\
      StronglySorted lt (map a_index images) /\
      (forall a, In a images ->
         1 <= a_index a /\
         exists img,
           nth_error (bs4.find_all (content_region soup None) "img") (a_index a - 1)
           = Some img /\
           article_descriptor_of_element SampleArticle.w Sample.page_url img a) /\
      (forall k img u,
         nth_error (bs4.find_all (content_region soup None) "img") k = Some img ->
         emits SampleArticle.w Sample.page_url img u ->
         exists a, In a images /\ a_index a = S k /\ a_url a = u).
Proof.
  eexists. split; [vm_compute; reflexivity|].
  split; [reflexivity|]. split; [reflexivity|].
  apply (scrape_article_images_descriptors_match_elements
           SampleArticle.w Sample.page_url None 0) with (t' := 1).
  vm_compute. reflexivity.
Defined.

(* ===================================================================== *)
(** ** The region's images among the page's images *)
(* ===================================================================== *)

(** Induction over documents: a property that holds of every string, and
    of every tag whose children have it, holds of every element. *)
Lemma PageElement_children_ind (P : PageElement -> Prop) :
  (forall s, P (NavigableString s)) ->
  (forall n a cs, Forall P cs -> P (Tag n a cs)) ->
  forall e, P e.
Proof.
  intros Hstring Htag. fix IH 1. intros [n a cs|s]; [|apply Hstring].
  apply Htag. revert cs. fix IHcs 1. intros [|c cs]; constructor.
  - apply IH.
  - apply IHcs.
Qed.

Lemma descendants_tag n a cs :
  bs4.descendants (Tag n a cs) = siblings_walk (Tag n a cs) cs.
Proof.
  simpl. generalize (Tag n a cs) as root. intros root.
  induction cs as [|c rest IH]; [reflexivity|]. now rewrite IH.
Qed.

(** The descendants of a descendant sit together, in order, right after
    it. *)
Lemma descendants_infix root :
  forall l, In l (bs4.descendants root) ->
  exists before after,
    bs4.descendants root = before ++ l :: bs4.descendants (element l) ++ after.
Proof.
  induction root as [s|n a cs IHcs] using PageElement_children_ind;
    intros l Hin; [destruct Hin|].
  rewrite descendants_tag in *.
  generalize dependent (Tag n a cs). intros root Hin.
  induction IHcs as [|c rest Hc _ IHrest]; [destruct Hin|].
  simpl in *. destruct Hin as [<-|Hin].
  - exists [], (siblings_walk root rest). reflexivity.
  - apply in_app_or in Hin as [Hin|Hin].
    + destruct (Hc l Hin) as (before & after & Heq).
      exists ({| element := c; parent := root; next_siblings := rest |} :: before),
             (after ++ siblings_walk root rest).
      rewrite Heq. simpl. rewrite <- ?app_assoc. simpl. rewrite <- ?app_assoc.
      reflexivity.
    + destruct (IHrest Hin) as (before & after & Heq).
      exists ({| element := c; parent := root; next_siblings := rest |}
                :: bs4.descendants c ++ before), after.
      rewrite Heq. simpl. rewrite <- ?app_assoc. simpl. rewrite <- ?app_assoc.
      reflexivity.
Qed.

Lemma select_one_descendant soup selector content :
  bs4.select_one soup selector = Some content ->
  exists l, In l (bs4.descendants soup) /\ element l = content.
Proof.
  unfold bs4.select_one.
  destruct (filter _ (bs4.descendants soup)) as [|l rest] eqn:Hf; [discriminate|].
  intros H; inversion H; subst. exists l. split; [|reflexivity].
  assert (Hin : In l (l :: rest)) by now left.
  rewrite <- Hf in Hin. now apply filter_In in Hin.
Qed.

Lemma find_content_descendant soup content_selectors content :
  find_content soup content_selectors = Some content ->
  exists l, In l (bs4.descendants soup) /\ element l = content.
Proof.
  induction content_selectors as [|s rest IH]; simpl; [discriminate|].
  destruct (bs4.select_one soup s) as [c|] eqn:Hsel; [|exact IH].
  intros H; inversion H; subst. now apply (select_one_descendant soup s).
Qed.

(** The [<img>] elements of the content region are a run of consecutive
    [<img>] elements of the page. *)
Lemma content_region_images soup content_selectors :
  exists before after,
    bs4.find_all soup "img"
    = before ++ bs4.find_all (content_region soup content_selectors) "img" ++ after.
Proof.
  unfold content_region.
  destruct (find_content soup _) as [content|] eqn:Hfind.
  - apply find_content_descendant in Hfind as (l & Hin & <-).
    destruct (descendants_infix soup l Hin) as (before & after & Heq).
    unfold bs4.find_all. rewrite Heq.
    exists (filter (fun l0 => bs4.is_tag_named "img" (element l0)) (before ++ [l])),
           (filter (fun l0 => bs4.is_tag_named "img" (element l0)) after).
    change (l :: bs4.descendants (element l) ++ after)
      with ([l] ++ bs4.descendants (element l) ++ after).
    now rewrite app_assoc, !filter_app.
  - exists [], []. now rewrite app_nil_r.
Qed.

(** X7: article extraction finds nothing that whole-page extraction of
    the same page does not find: when both return, every article
    descriptor has a whole-page descriptor with the same URL, "alt" and
    "title", and its index is at most the index of that descriptor. *)
Theorem article_descriptors_are_among_page_descriptors
    w url content_selectors min_width min_height t page_images article_images t1 t2 :
  scrape_images w url min_width min_height t = (Ok page_images, t1) ->
  scrape_article_images w url content_selectors t = (Ok article_images, t2) ->
  forall a, In a article_images ->
  exists d, In d page_images /\
            d_url d = a_url a /\ d_alt d = a_alt a /\ d_title d = a_title a /\
            a_index a <= d_index d.
Proof.
  intros Hp Ha a Hin.
  apply scrape_images_elements in Hp
    as (soup & Hpage & _ & Hsound & Hcomplete).
  apply scrape_article_images_elements in Ha
    as (soup' & Hpage' & _ & Hsound' & _).
  rewrite Hpage in Hpage'. inversion Hpage'; subst soup'.
  destruct (Hsound' a Hin) as (Hle & img & Hnth & Hem & Halt & Htitle & _).
  destruct (content_region_images soup content_selectors) as (before & after & Heq).
  assert (Hk : nth_error (bs4.find_all soup "img") (length before + (a_index a - 1))
               = Some img).
  { rewrite Heq, nth_error_app2 by lia.
    replace (length before + (a_index a - 1) - length before) with (a_index a - 1) by lia.
    rewrite nth_error_app1; [exact Hnth|]. apply nth_error_Some. congruence. }
  destruct (Hcomplete _ img (a_url a) Hk Hem) as (d & Hd & Hidx & Hurl).
  exists d. split; [exact Hd|]. split; [exact Hurl|].
  destruct (Hsound d Hd) as (_ & img' & Hnth' & _ & Halt' & Htitle' & _).
  rewrite Hidx in Hnth'. simpl in Hnth'. rewrite Nat.sub_0_r, Hk in Hnth'.
  inversion Hnth'; subst img'.
  repeat split; [congruence|congruence|lia].
Qed.

Lemma article_descriptors_among_page_witness :
  exists page_images article_images,
    scrape_images SampleArticle.w Sample.page_url 200 200 0 = (Ok page_images, 1) /\
    scrape_article_images SampleArticle.w Sample.page_url None 0
    = (Ok article_images, 1) /\
    map d_index page_images = [1; 2; 3; 5] /\
    map a_index article_images = [1; 3] /\
    forall a, In a article_images ->
    exists d, In d page_images /\
              d_url d = a_url a /\ d_alt d = a_alt a /\ d_title d = a_title a /\
              a_index a <= d_index d.
Proof.
  do 2 eexists. split; [vm_compute; reflexivity|]. split; [vm_compute; reflexivity|].
  split; [reflexivity|]. split; [reflexivity|].
  apply (article_descriptors_are_among_page_descriptors
           SampleArticle.w Sample.page_url None 200%Z 200%Z 0) with (t1 := 1) (t2 := 1);
    vm_compute; reflexivity.
Defined.

(* ===================================================================== *)
(** ** What a fetched image looks like *)
(* ===================================================================== *)

Lemma sample_convert_contract soup get : convert_contract (Sample.world soup get).
Proof. intros image m converted H. simpl in H. inversion H. now split. Qed.

Lemma download_image_rgb_area w url min_size t image t' :
  convert_contract w ->
  download_image w url min_size t = (Ok (Some image), t') ->
  mode image = "RGB" /\ (min_size <= fst (size image) * snd (size image))%Z.
Proof.
  intros Hconv H.
  assert (Ht : t' = S t) by (rewrite download_image_returns in H; now inversion H).
  subst t'. apply download_image_some in H
    as (response & decoded & _ & _ & _ & Harea & Hmode).
  destruct (negb (mode decoded =? "RGB")%string) eqn:Hneq.
  - destruct (Hconv _ _ _ Hmode) as [Hm Hs]. now rewrite Hs.
  - subst image. apply negb_false_iff, String.eqb_eq in Hneq. now split.
Qed.

(** X8: under the contract of [Image.convert] (the result has the mode
    asked for and the size of the original), every image [download_image]
    returns is in RGB mode and has an area of at least [min_size]. *)
Theorem download_image_returns_rgb_of_sufficient_area w url min_size t image t' :
  convert_contract w ->
  download_image w url min_size t = (Ok (Some image), t') ->
  mode image = "RGB" /\ (min_size <= fst (size image) * snd (size image))%Z.
Proof. exact (download_image_rgb_area w url min_size t image t'). Qed.

Lemma download_image_returns_rgb_witness :
  exists image,
    download_image Sample.w_failures "https://example.com/icon.gif" 200 0
    = (Ok (Some image), 1) /\
    mode image = "RGB" /\ (200 <= fst (size image) * snd (size image))%Z.
Proof.
  eexists. split; [vm_compute; reflexivity|].
  apply (download_image_returns_rgb_of_sufficient_area
           Sample.w_failures "https://example.com/icon.gif" 200 0) with (t' := 1).
  - apply sample_convert_contract.
  - vm_compute. reflexivity.
Defined.

(* ===================================================================== *)
(** ** Invariants of the two loops *)
(* ===================================================================== *)

Lemma process_url_loop_invariant w min_image_size prompt
    (I : list CaptionRecord -> list FailureRecord -> Prop) :
  (forall idx d results errors t rs es t',
     process_url_item w min_image_size prompt idx d results errors t = (Ok (rs, es), t') ->
     I results errors -> I rs es) ->
  forall images idx results errors t rs es t',
    process_url_loop w min_image_size prompt idx images results errors t
    = (Ok (rs, es), t') ->
    I results errors -> I rs es.
Proof.
  intros Hstep. induction images as [|d rest IH];
    intros idx results errors t rs es t' Hloop HI; simpl in Hloop.
  - inversion Hloop; now subst.
  - unfold bind in Hloop.
    destruct (process_url_item w min_image_size prompt idx d results errors t)
      as [[[rs1 es1]|e] t1] eqn:Hitem; [|discriminate].
    simpl in Hloop. eapply IH; [exact Hloop|]. eapply Hstep; eauto.
Qed.

Lemma process_article_loop_invariant w prompt
    (I : list ArticleCaptionRecord -> list FailureRecord -> Prop) :
  (forall idx a results errors t rs es t',
     process_article_item w prompt idx a results errors t = (Ok (rs, es), t') ->
     I results errors -> I rs es) ->
  forall images idx results errors t rs es t',
    process_article_loop w prompt idx images results errors t = (Ok (rs, es), t') ->
    I results errors -> I rs es.
Proof.
  intros Hstep. induction images as [|a rest IH];
    intros idx results errors t rs es t' Hloop HI; simpl in Hloop.
  - inversion Hloop; now subst.
  - unfold bind in Hloop.
    destruct (process_article_item w prompt idx a results errors t)
      as [[[rs1 es1]|e] t1] eqn:Hitem; [|discriminate].
    simpl in Hloop. eapply IH; [exact Hloop|]. eapply Hstep; eauto.
Qed.

(** What one pass of the whole-page loop does, read off its result. *)
Lemma process_url_item_inv w min_image_size prompt idx d results errors t rs es t' :
  process_url_item w min_image_size prompt idx d results errors t = (Ok (rs, es), t') ->
  (exists image caption,
     download_image w (d_url d) min_image_size t = (Ok (Some image), S t) /\
     generate w (S t) image (if truthy_opt prompt then prompt else None) = Ok caption /\
     t' = S (S t) /\ es = errors /\
     rs = results ++ [ {| r_image_url := d_url d; r_caption := caption;
                          r_alt := d_alt d; r_title := d_title d;
                          r_width := fst (size image); r_height := snd (size image);
                          r_index := idx |} ]) \/
  (exists reason,
     rs = results /\
     es = errors ++ [ {| e_index := idx; e_url := d_url d; e_error := reason |} ]).
Proof.
  unfold process_url_item, try_except, bind.
  destruct (download_image_total w (d_url d) min_image_size t) as [r Hdl].
  rewrite Hdl. destruct r as [image|].
  - unfold generate_caption, try_except, raise, ret.
    destruct (generate w (S t) image _) as [caption|e] eqn:Hgen; intros H; inversion H.
    + left. exists image, caption. auto.
    + right. eexists. split; reflexivity.
  - unfold ret. intros H; inversion H. right. eexists. split; reflexivity.
Qed.

Lemma process_article_item_inv w prompt idx a results errors t rs es t' :
  process_article_item w prompt idx a results errors t = (Ok (rs, es), t') ->
  (exists image caption,
     download_image w (a_url a) default_min_size t = (Ok (Some image), S t) /\
     generate w (S t) image (if truthy_opt prompt then prompt else None) = Ok caption /\
     t' = S (S t) /\ es = errors /\
     rs = results ++ [ {| ar_image_url := a_url a; ar_caption := caption;
                          ar_original_caption := a_caption a; ar_alt := a_alt a;
                          ar_width := fst (size image); ar_height := snd (size image);
                          ar_index := idx |} ]) \/
  (exists reason,
     rs = results /\
     es = errors ++ [ {| e_index := idx; e_url := a_url a; e_error := reason |} ]).
Proof.
  unfold process_article_item, try_except, bind.
  destruct (download_image_total w (a_url a) default_min_size t) as [r Hdl].
  rewrite Hdl. destruct r as [image|].
  - unfold generate_caption, try_except, raise, ret.
    destruct (generate w (S t) image _) as [caption|e] eqn:Hgen; intros H; inversion H.
    + left. exists image, caption. auto.
    + right. eexists. split; reflexivity.
  - unfold ret. intros H; inversion H. right. eexists. split; reflexivity.
Qed.

(** X9: under the contract of [Image.convert], no success record of a
    completed run is below the minimum area: in whole-page mode every
    record has [width * height >= min_image_size], in article mode
    [width * height >= 200], the downloader's default. *)
Theorem caption_records_have_sufficient_area
    w min_image_size url prompt max_images t :
  convert_contract w ->
  (forall s t3,
     process_url w min_image_size url prompt max_images t = (Ok s, t3) ->
     Forall (fun r => (min_image_size <= r_width r * r_height r)%Z) (results s)) /\
  (forall s t3,
     process_article w url prompt t = (Ok s, t3) ->
     Forall (fun r => (default_min_size <= ar_width r * ar_height r)%Z) (results s)).
Proof.
  intros Hconv. split; intros s t3 Hrun.
  - apply process_url_inv in Hrun
      as (title & images & t2 & rs & es & _ & _ & Hloop & _ & ->). simpl.
    apply (process_url_loop_invariant w min_image_size prompt
             (fun rs _ => Forall (fun r => (min_image_size <= r_width r * r_height r)%Z) rs))
      in Hloop; [exact Hloop| |constructor].
    intros idx d results errors t0 rs0 es0 t' Hitem Hall.
    apply process_url_item_inv in Hitem
      as [(image & caption & Hdl & _ & _ & _ & ->) | (reason & -> & _)]; [|exact Hall].
    apply Forall_app. split; [exact Hall|]. constructor; [|constructor]. simpl.
    now apply (download_image_rgb_area _ _ _ _ _ _ Hconv Hdl).
  - unfold process_article in Hrun.
    destruct (get_page_title_total w url t) as [title Htitle].
    rewrite (bind_ok _ _ _ _ _ Htitle) in Hrun. unfold bind in Hrun.
    destruct (scrape_article_images w url None (S t)) as [[images|e] t2]; [|discriminate].
    destruct (process_article_loop w prompt 1 images [] [] t2)
      as [[[rs es]|e] t3'] eqn:Hloop; [|discriminate].
    inversion Hrun; subst. simpl.
    apply (process_article_loop_invariant w prompt
             (fun rs _ => Forall (fun r => (default_min_size <= ar_width r * ar_height r)%Z) rs))
      in Hloop; [exact Hloop| |constructor].
    intros idx a results errors t0 rs0 es0 t' Hitem Hall.
    apply process_article_item_inv in Hitem
      as [(image & caption & Hdl & _ & _ & _ & ->) | (reason & -> & _)]; [|exact Hall].
    apply Forall_app. split; [exact Hall|]. constructor; [|constructor]. simpl.
    now apply (download_image_rgb_area _ _ _ _ _ _ Hconv Hdl).
Qed.

Lemma caption_records_area_witness :
  (exists s t3,
     process_url Sample.w_five 200 Sample.page_url None None 0 = (Ok s, t3) /\
     length (results s) = 4 /\
     Forall (fun r => (200 <= r_width r * r_height r)%Z) (results s)) /\
  (exists s t3,
     process_article SampleArticle.w Sample.page_url None 0 = (Ok s, t3) /\
     length (results s) = 2 /\
     Forall (fun r => (default_min_size <= ar_width r * ar_height r)%Z) (results s)).
Proof.
  split.
  - do 2 eexists. split; [vm_compute; reflexivity|]. split; [reflexivity|].
    apply (proj1 (caption_records_have_sufficient_area
                    Sample.w_five 200 Sample.page_url None None 0
                    (sample_convert_contract _ _)) _ 11).
    vm_compute. reflexivity.
  - do 2 eexists. split; [vm_compute; reflexivity|]. split; [reflexivity|].
    apply (proj2 (caption_records_have_sufficient_area
                    SampleArticle.w 200 Sample.page_url None None 0
                    (sample_convert_contract _ _)) _ 6).
    vm_compute. reflexivity.
Defined.

(* ===================================================================== *)
(** ** The prompt *)
(* ===================================================================== *)

Lemma process_url_loop_empty_prompt w min_image_size images :
  forall idx results errors t,
    process_url_loop w min_image_size (Some "") idx images results errors t
    = process_url_loop w min_image_size None idx images results errors t.
Proof.
  induction images as [|d rest IH]; intros idx results errors t; simpl; [reflexivity|].
  unfold bind.
  change (process_url_item w min_image_size (Some "") idx d results errors t)
    with (process_url_item w min_image_size None idx d results errors t).
  destruct (process_url_item w min_image_size None idx d results errors t)
    as [[acc|e] t1]; [apply IH|reflexivity].
Qed.

Lemma process_article_loop_empty_prompt w images :
  forall idx results errors t,
    process_article_loop w (Some "") idx images results errors t
    = process_article_loop w None idx images results errors t.
Proof.
  induction images as [|a rest IH]; intros idx results errors t; simpl; [reflexivity|].
  unfold bind.
  change (process_article_item w (Some "") idx a results errors t)
    with (process_article_item w None idx a results errors t).
  destruct (process_article_item w None idx a results errors t)
    as [[acc|e] t1]; [apply IH|reflexivity].
Qed.

(** X10: an empty prompt is no prompt.  A run with [prompt = ""] is the
    same, step for step, as the run without a prompt, in both modes and
    for a local file: the captioning model is never handed an empty
    prompt. *)
Theorem empty_prompt_is_no_prompt w min_image_size url max_images image_path t :
  process_url w min_image_size url (Some "") max_images t
  = process_url w min_image_size url None max_images t /\
  process_article w url (Some "") t = process_article w url None t /\
  process_image_file w image_path (Some "") t = process_image_file w image_path None t.
Proof.
  split; [|split].
  - unfold process_url, bind.
    destruct (get_page_title w url t) as [[title|e] t1]; [|reflexivity].
    destruct (scrape_images w url 200 200 t1) as [[images|e] t2]; [|reflexivity].
    now rewrite process_url_loop_empty_prompt.
  - unfold process_article, bind.
    destruct (get_page_title w url t) as [[title|e] t1]; [|reflexivity].
    destruct (scrape_article_images w url None t1) as [[images|e] t2]; [|reflexivity].
    now rewrite process_article_loop_empty_prompt.
  - reflexivity.
Qed.

(* ===================================================================== *)
(** ** The cap, for every value of [max_images] *)
(* ===================================================================== *)

Lemma limit_length {A} (max_images : option Z) (images : list A) :
  Z.of_nat (length (limit max_images images)) = capped_count max_images (length images).
Proof.
  unfold limit, capped_count, slice_to. destruct max_images as [m|]; [|reflexivity].
  destruct (Z.eqb_spec m 0); [reflexivity|].
  destruct (Z.ltb_spec m 0); rewrite length_firstn; lia.
Qed.

(** X11: [total_images_found] for every value of [max_images].  With [n]
    descriptors extracted, a run that completes reports [n] when
    [max_images] is absent or 0 (0 does not mean "no images"), the
    smaller of [max_images] and [n] when it is positive, and [n] less the
    absolute value, but at least 0, when it is negative: a negative cap
    drops the last images. *)
Theorem total_images_found_for_every_cap
    w min_image_size url prompt max_images t s t3 :
  process_url w min_image_size url prompt max_images t = (Ok s, t3) ->
  exists images t2,
    scrape_images w url 200 200 (S t) = (Ok images, t2) /\
    Z.of_nat (total_images_found s) = capped_count max_images (length images) /\
    images_processed s + images_failed s = total_images_found s.
Proof.
  intros Hrun. apply process_url_inv in Hrun
    as (title & images & t2 & rs & es & _ & Hscrape & _ & Hout & ->).
  exists images, t2. split; [exact Hscrape|]. simpl.
  split; [apply limit_length|apply Hout].
Qed.

Lemma total_images_found_for_every_cap_witness :
  let total max_images :=
    match fst (process_url Sample.w_five 200 Sample.page_url None max_images 0) with
    | Ok s => Z.of_nat (total_images_found s)
    | Raise _ => (-1)%Z
    end in
  total None = 5%Z /\ total (Some 0%Z) = 5%Z /\ total (Some 3%Z) = 3%Z /\
  total (Some 9%Z) = 5%Z /\ total (Some (-2)%Z) = 3%Z /\ total (Some (-7)%Z) = 0%Z.
Proof.
  cbv zeta.
  assert (H : forall max_images s t3,
            process_url Sample.w_five 200 Sample.page_url None max_images 0 = (Ok s, t3) ->
            Z.of_nat (total_images_found s) = capped_count max_images 5).
  { intros max_images s t3 Hrun.
    destruct (total_images_found_for_every_cap _ _ _ _ _ _ _ _ Hrun)
      as (images & t2 & Hscrape & Htotal & _).
    vm_compute in Hscrape. inversion Hscrape; subst images. exact Htotal. }
  repeat split;
    match goal with
    | |- match fst ?run with _ => _ end = _ =>
        let r := eval vm_compute in run in
        match r with
        | (Ok ?s, ?t3) =>
            change run with (Ok s, t3); cbn [fst];
            rewrite (H _ s t3 ltac:(vm_compute; reflexivity)); reflexivity
        end
    end.
Defined.

(* ===================================================================== *)
(** ** Article runs: the record of an image *)
(* ===================================================================== *)

Lemma process_article_loop_records w prompt images :
  forall idx results errors t rs es t',
    process_article_loop w prompt idx images results errors t = (Ok (rs, es), t') ->
    exists rs' es',
      rs = results ++ rs' /\ es = errors ++ es' /\
      Forall (fun r => idx <= ar_index r /\
                exists a, nth_error images (ar_index r - idx) = Some a /\
                          ar_image_url r = a_url a /\
                          ar_original_caption r = a_caption a /\
                          ar_alt r = a_alt a) rs' /\
      Forall (fun e => idx <= e_index e /\
                exists a, nth_error images (e_index e - idx) = Some a /\
                          e_url e = a_url a) es'.
Proof.
  induction images as [|a rest IH]; intros idx results errors t rs es t' Hloop;
    simpl in Hloop.
  - inversion Hloop; subst. exists [], []. rewrite !app_nil_r. auto.
  - unfold bind in Hloop.
    destruct (process_article_item w prompt idx a results errors t)
      as [[[rs1 es1]|e] t1] eqn:Hitem; [|discriminate].
    simpl in Hloop.
    destruct (IH _ _ _ _ _ _ _ Hloop) as (rs' & es' & -> & -> & Hrs & Hes).
    assert (Hrs0 : Forall (fun r => idx <= ar_index r /\
                     exists a0, nth_error (a :: rest) (ar_index r - idx) = Some a0 /\
                                ar_image_url r = a_url a0 /\
                                ar_original_caption r = a_caption a0 /\
                                ar_alt r = a_alt a0) rs').
    { eapply Forall_impl; [|exact Hrs]. intros r (Hle & a0 & Hn & Hf).
      split; [lia|]. exists a0. now rewrite nth_error_shift. }
    assert (Hes0 : Forall (fun e => idx <= e_index e /\
                     exists a0, nth_error (a :: rest) (e_index e - idx) = Some a0 /\
                                e_url e = a_url a0) es').
    { eapply Forall_impl; [|exact Hes]. intros e (Hle & a0 & Hn & Hf).
      split; [lia|]. exists a0. now rewrite nth_error_shift. }
    apply process_article_item_inv in Hitem
      as [(image & caption & _ & _ & _ & -> & ->) | (reason & -> & ->)].
    + eexists (_ :: rs'), es'. rewrite <- app_assoc. split; [reflexivity|].
      split; [reflexivity|]. split; [|exact Hes0].
      constructor; [|exact Hrs0]. simpl. split; [lia|]. rewrite Nat.sub_diag.
      exists a. auto.
    + eexists rs', (_ :: es'). rewrite <- app_assoc. split; [reflexivity|].
      split; [reflexivity|]. split; [exact Hrs0|].
      constructor; [|exact Hes0]. simpl. split; [lia|]. rewrite Nat.sub_diag.
      exists a. auto.
Qed.

(** X12: in the summary of every article run that completes, the counts
    add up to the number of article descriptors; the two lists are in
    strictly ascending order of index and between them hold each of 1,
    ..., [total_images_found] once; the success record with index [i]
    carries the URL and "alt" of the [i]-th descriptor and, as
    [original_caption], the caption extracted for it; the failure record
    with index [i] carries its URL. *)
Theorem article_records_follow_descriptors w url prompt t s t3 :
  process_article w url prompt t = (Ok s, t3) ->
  exists images t2,
    scrape_article_images w url None (S t) = (Ok images, t2) /\
    images_processed s + images_failed s = total_images_found s /\
    total_images_found s = length images /\
    StronglySorted lt (map ar_index (results s)) /\
    StronglySorted lt (map e_index (errors s)) /\
    Permutation (map ar_index (results s) ++ map e_index (errors s))
                (seq 1 (length images)) /\
    (forall r, In r (results s) ->
       1 <= ar_index r /\
       exists a, nth_error images (ar_index r - 1) = Some a /\
                 ar_image_url r = a_url a /\
                 ar_original_caption r = a_caption a /\
                 ar_alt r = a_alt a) /\
    (forall e, In e (errors s) ->
       1 <= e_index e /\
       exists a, nth_error images (e_index e - 1) = Some a /\ e_url e = a_url a).
Proof.
  intros Hrun.
  destruct (process_article_summary_partitions w url prompt t s t3 Hrun)
    as (images & t2 & Hscrape & Hsum & Htotal & Hsr & Hse & Hperm).
  exists images, t2. do 6 (split; [assumption|]).
  unfold process_article in Hrun.
  destruct (get_page_title_total w url t) as [title Htitle].
  rewrite (bind_ok _ _ _ _ _ Htitle), (bind_ok _ _ _ _ _ Hscrape) in Hrun.
  unfold bind in Hrun.
  destruct (process_article_loop w prompt 1 images [] [] t2)
    as [[[rs es]|e] t3'] eqn:Hloop; [|discriminate].
  inversion Hrun; subst. simpl.
  apply process_article_loop_records in Hloop as (rs' & es' & -> & -> & Hrs & Hes).
  simpl. split; now apply Forall_forall.
Qed.

Lemma article_records_follow_descriptors_witness :
  exists s t3,
    process_article SampleArticle.w Sample.page_url None 0 = (Ok s, t3) /\
    map ar_index (results s) = [1; 2] /\
    map ar_original_caption (results s) = ["A cat."; "A dog."] /\
    exists images t2,
      scrape_article_images SampleArticle.w Sample.page_url None 1 = (Ok images, t2) /\
      images_processed s + images_failed s = total_images_found s /\
      total_images_found s = length images /\
      StronglySorted lt (map ar_index (results s)) /\
      StronglySorted lt (map e_index (errors s)) /\
      Permutation (map ar_index (results s) ++ map e_index (errors s))
                  (seq 1 (length images)) /\
      (forall r, In r (results s) ->
         1 <= ar_index r /\
         exists a, nth_error images (ar_index r - 1) = Some a /\
                   ar_image_url r = a_url a /\
                   ar_original_caption r = a_caption a /\
                   ar_alt r = a_alt a) /\
      (forall e, In e (errors s) ->
         1 <= e_index e /\
         exists a, nth_error images (e_index e - 1) = Some a /\ e_url e = a_url a).
Proof.
  do 2 eexists. split; [vm_compute; reflexivity|].
  split; [reflexivity|]. split; [reflexivity|].
  apply (article_records_follow_descriptors SampleArticle.w Sample.page_url None 0)
    with (t3 := 6).
  vm_compute. reflexivity.
Defined.

(* ===================================================================== *)
(** ** A single local file *)
(* ===================================================================== *)

(** X13: [process_image_file] does not isolate failures.  When the file
    cannot be opened, cannot be converted, or the model fails, the
    exception propagates to the caller; no failure record is ever
    returned.  When it returns, the record names the path and the caption
    the model gave for the file's image converted to RGB, and the prompt
    it records is the caller's, or [None] if that was empty. *)
Theorem process_image_file_raises_or_captions w image_path prompt t :
  (forall e, open_path w t image_path = Raise e ->
     process_image_file w image_path prompt t = (Raise e, S t)) /\
  (forall r t', process_image_file w image_path prompt t = (Ok r, t') ->
     exists opened image caption,
       open_path w t image_path = Ok opened /\
       Image_convert w opened "RGB" = Ok image /\
       generate w (S t) image (if truthy_opt prompt then prompt else None) = Ok caption /\
       r = Captioned image_path (if truthy_opt prompt then prompt else None) caption /\
       t' = S (S t)) /\
  (forall e t', process_image_file w image_path prompt t = (Raise e, t') ->
     open_path w t image_path = Raise e \/
     (exists opened, open_path w t image_path = Ok opened /\
        (Image_convert w opened "RGB" = Raise e \/
         exists image, Image_convert w opened "RGB" = Ok image /\
           generate w (S t) image (if truthy_opt prompt then prompt else None)
           = Raise e))).
Proof.
  assert (Hrun : process_image_file w image_path prompt t =
            match open_path w t image_path with
            | Raise e => (Raise e, S t)
            | Ok opened =>
                match Image_convert w opened "RGB" with
                | Raise e => (Raise e, S t)
                | Ok image =>
                    match generate w (S t) image
                            (if truthy_opt prompt then prompt else None) with
                    | Ok caption =>
                        (Ok (Captioned image_path
                               (if truthy_opt prompt then prompt else None) caption),
                         S (S t))
                    | Raise e => (Raise e, S (S t))
                    end
                end
            end).
  { unfold process_image_file, caption_single, generate_caption_from_path,
      generate_caption, py_or; unfold_M.
    destruct (open_path w t image_path) as [opened|e]; [|reflexivity].
    destruct (Image_convert w opened "RGB") as [image|e]; [|reflexivity].
    destruct (truthy_opt prompt) eqn:Hp; [rewrite Hp|];
      (destruct (generate w (S t) image _) as [caption|e]; reflexivity). }
  rewrite Hrun. split; [|split].
  - intros e ->. reflexivity.
  - intros r t'.
    destruct (open_path w t image_path) as [opened|e]; [|discriminate].
    destruct (Image_convert w opened "RGB") as [image|e] eqn:Hconv; [|discriminate].
    destruct (generate w (S t) image _) as [caption|e] eqn:Hgen; [|discriminate].
    intros H; inversion H; subst. exists opened, image, caption.
    repeat split; assumption || reflexivity.
  - intros e t'.
    destruct (open_path w t image_path) as [opened|e0];
      [|intros H; inversion H; now left].
    destruct (Image_convert w opened "RGB") as [image|e0] eqn:Hconv.
    + destruct (generate w (S t) image _) as [caption|e0] eqn:Hgen; [discriminate|].
      intros H; inversion H; subst. right. exists opened. split; [reflexivity|].
      right. exists image. split; assumption.
    + intros H; inversion H; subst. right. exists opened. split; [reflexivity|].
      left. assumption.
Qed.

Lemma process_image_file_witness :
  process_image_file SampleFiles.w "missing.jpg" None 0
  = (Raise (OSError "No such file or directory"), 1) /\
  process_image_file SampleFiles.w "cat.jpg" (Some "a photo of") 0
  = (Ok (Captioned "cat.jpg" (Some "a photo of") "a photo of a cat"), 2) /\
  exists opened image caption,
    open_path SampleFiles.w 0 "cat.jpg" = Ok opened /\
    Image_convert SampleFiles.w opened "RGB" = Ok image /\
    generate SampleFiles.w 1 image (Some "a photo of") = Ok caption /\
    Captioned "cat.jpg" (Some "a photo of") "a photo of a cat"
    = Captioned "cat.jpg" (Some "a photo of") caption /\
    2 = 2.
Proof.
  pose proof (process_image_file_raises_or_captions SampleFiles.w "missing.jpg" None 0)
    as (Hraise & _).
  pose proof (process_image_file_raises_or_captions
                SampleFiles.w "cat.jpg" (Some "a photo of") 0) as (_ & Hok & _).
  split; [apply Hraise; vm_compute; reflexivity|].
  split; [vm_compute; reflexivity|].
  apply Hok. vm_compute. reflexivity.
Defined.

(* ===================================================================== *)
(** ** Where the failure reasons come from *)
(* ===================================================================== *)

Lemma process_url_item_errors w min_image_size prompt idx d results errors t rs es t' :
  process_url_item w min_image_size prompt idx d results errors t = (Ok (rs, es), t') ->
  es = errors \/
  exists e, es = errors ++ [e] /\ e_index e = idx /\ e_url e = d_url d /\
            failure_explained w min_image_size "Download failed or image too small"
              prompt e.
Proof.
  unfold process_url_item, try_except, bind.
  destruct (download_image_total w (d_url d) min_image_size t) as [r Hdl].
  rewrite Hdl. destruct r as [image|].
  - unfold generate_caption, try_except, raise, ret.
    destruct (generate w (S t) image _) as [caption|ex] eqn:Hgen; intros H; inversion H.
    + now left.
    + right. eexists. split; [reflexivity|]. split; [reflexivity|]. split; [reflexivity|].
      right. exists t, image, ex. auto.
  - unfold ret. intros H; inversion H. right. eexists.
    split; [reflexivity|]. split; [reflexivity|]. split; [reflexivity|].
    left. exists t. auto.
Qed.

Lemma process_article_item_errors w prompt idx a results errors t rs es t' :
  process_article_item w prompt idx a results errors t = (Ok (rs, es), t') ->
  es = errors \/
  exists e, es = errors ++ [e] /\ e_index e = idx /\ e_url e = a_url a /\
            failure_explained w default_min_size "Download failed" prompt e.
Proof.
  unfold process_article_item, try_except, bind.
  destruct (download_image_total w (a_url a) default_min_size t) as [r Hdl].
  rewrite Hdl. destruct r as [image|].
  - unfold generate_caption, try_except, raise, ret.
    destruct (generate w (S t) image _) as [caption|ex] eqn:Hgen; intros H; inversion H.
    + now left.
    + right. eexists. split; [reflexivity|]. split; [reflexivity|]. split; [reflexivity|].
      right. exists t, image, ex. auto.
  - unfold ret. intros H; inversion H. right. eexists.
    split; [reflexivity|]. split; [reflexivity|]. split; [reflexivity|].
    left. exists t. auto.
Qed.

(** X14: every failure record of a completed run is accounted for.  In
    whole-page mode its reason is "Download failed or image too small"
    and the fetch of its URL (with the pipeline's minimum area) returned
    nothing, or it is the text of the exception the model raised on the
    image fetched from its URL.  In article mode the same holds with the
    reason "Download failed" and the downloader's default minimum area.
    No other text ever appears as a reason. *)
Theorem failure_reasons_are_accounted_for
    w min_image_size url prompt max_images t :
  (forall s t3,
     process_url w min_image_size url prompt max_images t = (Ok s, t3) ->
     Forall (failure_explained w min_image_size "Download failed or image too small"
               prompt) (errors s)) /\
  (forall s t3,
     process_article w url prompt t = (Ok s, t3) ->
     Forall (failure_explained w default_min_size "Download failed" prompt) (errors s)).
Proof.
  split; intros s t3 Hrun.
  - apply process_url_inv in Hrun
      as (title & images & t2 & rs & es & _ & _ & Hloop & _ & ->). simpl.
    apply (process_url_loop_invariant w min_image_size prompt
             (fun _ es => Forall (failure_explained w min_image_size
                                    "Download failed or image too small" prompt) es))
      in Hloop; [exact Hloop| |constructor].
    intros idx d results errors t0 rs0 es0 t' Hitem Hall.
    apply process_url_item_errors in Hitem as [->|(e & -> & _ & _ & He)]; [exact Hall|].
    apply Forall_app. split; [exact Hall|]. now constructor.
  - unfold process_article in Hrun.
    destruct (get_page_title_total w url t) as [title Htitle].
    rewrite (bind_ok _ _ _ _ _ Htitle) in Hrun. unfold bind in Hrun.
    destruct (scrape_article_images w url None (S t)) as [[images|e] t2]; [|discriminate].
    destruct (process_article_loop w prompt 1 images [] [] t2)
      as [[[rs es]|e] t3'] eqn:Hloop; [|discriminate].
    inversion Hrun; subst. simpl.
    apply (process_article_loop_invariant w prompt
             (fun _ es => Forall (failure_explained w default_min_size
                                    "Download failed" prompt) es))
      in Hloop; [exact Hloop| |constructor].
    intros idx a results errors t0 rs0 es0 t' Hitem Hall.
    apply process_article_item_errors in Hitem as [->|(e & -> & _ & _ & He)]; [exact Hall|].
    apply Forall_app. split; [exact Hall|]. now constructor.
Qed.

(* ===================================================================== *)
(** ** The URL checks *)
(* ===================================================================== *)

Lemma truthy_true (s : string) : Str.truthy s = true <-> s <> "".
Proof. destruct s; simpl; split; congruence. Qed.

Lemma is_image_accessible_spec p url t :
  is_image_accessible p url t =
    (Ok (match requests_head p t url with
         | Ok response => (status_code response =? 200)%Z
         | Raise _ => false
         end), S t).
Proof.
  unfold is_image_accessible, http_head; unfold_M.
  now destruct (requests_head p t url).
Qed.

(** X15: [is_valid_url] and [is_image_accessible] never raise.
    [is_valid_url] answers [True] exactly when [urlparse] returns a result
    with a non-empty scheme and a non-empty network location and the HEAD
    request is answered with status 200; any other status (a redirect, 204,
    405 for a server that refuses HEAD) and any exception give [False].
    When [urlparse] raises or scheme or location is empty, no request is
    sent.  [is_image_accessible] answers [True] exactly when the HEAD
    request is answered with status 200, so it holds of every URL that
    [is_valid_url] accepts. *)
Theorem url_checks_never_raise_and_require_status_200 p url t :
  (exists b t',
     is_valid_url p url t = (Ok b, t') /\
     (b = true <->
      exists parsed response,
        urlparse p url = Ok parsed /\
        urllib_parse.pr_scheme parsed <> "" /\ urllib_parse.pr_netloc parsed <> "" /\
        requests_head p t url = Ok response /\ status_code response = 200%Z) /\
     ((forall parsed, urlparse p url = Ok parsed ->
         urllib_parse.pr_scheme parsed = "" \/ urllib_parse.pr_netloc parsed = "") ->
      b = false /\ t' = t) /\
     (b = true -> is_image_accessible p url t = (Ok true, t'))) /\
  (exists b,
     is_image_accessible p url t = (Ok b, S t) /\
     (b = true <->
      exists response,
        requests_head p t url = Ok response /\ status_code response = 200%Z)).
Proof.
  split.
  - rewrite is_image_accessible_spec.
    unfold is_valid_url, http_head; unfold_M.
    destruct (urlparse p url) as [parsed|e] eqn:Hparse.
    + destruct (Str.truthy (urllib_parse.pr_scheme parsed)) eqn:Hs;
        [destruct (Str.truthy (urllib_parse.pr_netloc parsed)) eqn:Hn|]; simpl.
      * apply truthy_true in Hs. apply truthy_true in Hn.
        destruct (requests_head p t url) as [response|e] eqn:Hhead.
        -- exists (status_code response =? 200)%Z, (S t).
           split; [reflexivity|]. split; [|split].
           ++ split.
              ** intros Hb. exists parsed, response. apply Z.eqb_eq in Hb. auto.
              ** intros (parsed' & response' & _ & _ & _ & Hr & Hst).
                 inversion Hr; subst. now apply Z.eqb_eq.
           ++ intros Hnone. destruct (Hnone parsed eq_refl); contradiction.
           ++ now intros ->.
        -- exists false, (S t). split; [reflexivity|]. split; [|split].
           ++ split; [discriminate|]. intros (_ & response' & _ & _ & _ & Hr & _).
              discriminate.
           ++ intros Hnone. destruct (Hnone parsed eq_refl); contradiction.
           ++ discriminate.
      * exists false, t. split; [reflexivity|]. split; [|split].
        -- split; [discriminate|]. intros (parsed' & _ & Hp & _ & Hn' & _).
           inversion Hp; subst. apply truthy_true in Hn'. congruence.
        -- now intros _.
        -- discriminate.
      * exists false, t. split; [reflexivity|]. split; [|split].
        -- split; [discriminate|]. intros (parsed' & _ & Hp & Hs' & _).
           inversion Hp; subst. apply truthy_true in Hs'. congruence.
        -- now intros _.
        -- discriminate.
    + exists false, t. split; [reflexivity|]. split; [|split].
      * split; [discriminate|]. intros (parsed' & _ & Hp & _). discriminate.
      * now intros _.
      * discriminate.
  - rewrite is_image_accessible_spec. eexists. split; [reflexivity|].
    destruct (requests_head p t url) as [response|e].
    + rewrite Z.eqb_eq. split.
      * intros Hst. now exists response.
      * intros (response' & Hr & Hst). now inversion Hr; subst.
    + split; [discriminate|]. intros (response' & Hr & _). discriminate.
Qed.

(** A page that answers 404 and a URL without a scheme are both invalid;
    for the second no request is sent. *)
Example is_valid_url_samples :
  is_valid_url SamplePlatform.p "https://example.com/page" 0 = (Ok true, 1) /\
  is_valid_url SamplePlatform.p "https://example.com/missing.png" 0 = (Ok false, 1) /\
  is_valid_url SamplePlatform.p "example.com/page" 0 = (Ok false, 0) /\
  is_image_accessible SamplePlatform.p "example.com/a.png" 0 = (Ok false, 1).
Proof. repeat split; vm_compute; reflexivity. Qed.

(* ===================================================================== *)
(** ** Saving a fetched image *)
(* ===================================================================== *)

(** X16: [download_and_save] never raises.  It answers [True] exactly
    when [download_image] returned an image, the resize (done only when
    [max_size] is given) succeeded and [Image.save] succeeded on the
    result.  When the fetch returned nothing, or the resize failed, the
    answer is [False] and [Image.save] is not called. *)
Theorem download_and_save_true_iff_saved p url output_path max_size t :
  exists b t',
    download_and_save p url output_path max_size t = (Ok b, t') /\
    (b = true <->
     exists image resized,
       download_image (world p) url default_min_size t = (Ok (Some image), S t) /\
       match max_size with
       | Some bound => Image_thumbnail p image bound = Ok resized
       | None => resized = image
       end /\
       Image_save p (S t) resized output_path = Ok tt) /\
    (t' = S (S t) <->
     exists image resized,
       download_image (world p) url default_min_size t = (Ok (Some image), S t) /\
       match max_size with
       | Some bound => Image_thumbnail p image bound = Ok resized
       | None => resized = image
       end).
Proof.
  unfold download_and_save, try_except, bind.
  destruct (download_image_total (world p) url default_min_size t) as [r Hdl].
  rewrite Hdl. destruct r as [image|].
  - destruct (match max_size with
              | Some bound => lift (Image_thumbnail p image bound)
              | None => ret image
              end (S t)) as [[resized|e] t1] eqn:Hresize.
    + assert (Hr : match max_size with
                   | Some bound => Image_thumbnail p image bound = Ok resized
                   | None => resized = image
                   end /\ t1 = S t).
      { destruct max_size as [bound|]; unfold lift, ret in Hresize.
        - inversion Hresize. now split.
        - inversion Hresize. now split. }
      destruct Hr as [Hr ->].
      destruct (Image_save p (S t) resized output_path) as [[]|e] eqn:Hsave.
      * exists true, (S (S t)). unfold ret. split; [reflexivity|]. split.
        -- split; [|reflexivity]. intros _. exists image, resized. auto.
        -- split; [|reflexivity]. intros _. exists image, resized. auto.
      * exists false, (S (S t)). unfold ret. split; [reflexivity|]. split.
        -- split; [discriminate|]. intros (image' & resized' & Hd & Hr' & Hs).
           inversion Hd; subst image'.
           assert (resized' = resized) by (destruct max_size; congruence).
           subst. congruence.
        -- split; [|reflexivity]. intros _. exists image, resized. auto.
    + assert (Ht1 : t1 = S t).
      { destruct max_size as [bound|]; unfold lift, ret in Hresize;
          now inversion Hresize. }
      subst t1. exists false, (S t). unfold ret. split; [reflexivity|]. split.
      * split; [discriminate|]. intros (image' & resized' & Hd & Hr' & _).
        inversion Hd; subst image'.
        destruct max_size as [bound|]; unfold lift, ret in Hresize;
          [rewrite Hr' in Hresize|]; discriminate.
      * split; [intros H; exfalso; revert H; apply Nat.neq_succ_diag_r|].
        intros (image' & resized' & Hd & Hr').
        inversion Hd; subst image'.
        destruct max_size as [bound|]; unfold lift, ret in Hresize;
          [rewrite Hr' in Hresize|]; discriminate.
  - exists false, (S t). unfold ret. split; [reflexivity|]. split.
    + split; [discriminate|]. intros (image' & _ & Hd & _). discriminate.
    + split; [intros H; exfalso; revert H; apply Nat.neq_succ_diag_r|].
      intros (image' & _ & Hd & _). discriminate.
Qed.

(** A good image is saved; a missing one is not, and neither is a good
    one whose target cannot be written. *)
Example download_and_save_samples :
  download_and_save SamplePlatform.p "https://example.com/good.png" "out/good.png"
    (Some (64, 64)%Z) 0 = (Ok true, 2) /\
  download_and_save SamplePlatform.p "https://example.com/missing.png" "out/m.png"
    None 0 = (Ok false, 1) /\
  download_and_save SamplePlatform.p "https://example.com/good.png" "/readonly/good.png"
    None 0 = (Ok false, 2).
Proof. repeat split; vm_compute; reflexivity. Qed.

(* ===================================================================== *)
(** ** The batch tab of the UI *)
(* ===================================================================== *)

(** X17: [caption_batch_images] never raises and never lists a result.
    Its JSON text is always empty, and its summary is one of three texts:
    the error of the model loading, the request to upload an image when
    the list of files is empty, and, for every non-empty list of files,
    the [UnboundLocalError] that [caption_batch] raises.  No caption is
    ever shown, whatever the files and the prompt. *)
Theorem caption_batch_images_never_lists_results p files prompt t :
  caption_batch_images p files prompt t =
    (Ok (match load_models p t, files with
         | Raise e, _ => ("❌ **Error:** " ++ str_exn e)%string
         | Ok _, [] => "⚠️ Please upload at least one image."
         | Ok _, _ :: _ =>
             "❌ **Error:** cannot access local variable 'image_path' where it is not associated with a value"
         end, ""), S t).
Proof.
  unfold caption_batch_images, try_except, bind, ret.
  destruct (load_models p t) as [[]|e]; [|reflexivity].
  destruct files as [|file rest]; reflexivity.
Qed.
